(** * Personal expense manager: the derived-analytics services

    A shallow embedding of the services of [src/index.tsx]
    ([calculateTotals], [getCategoryById], [groupExpensesByCategory],
    [groupTransactionsByMonth], [getDashboardStats]), of the budget
    computations of [DashboardPage] ([budgetStatus], [budgetAlerts], the
    alert messages and the progress bars), of the store of [AppProvider]
    ([addTransaction], [deleteTransaction], [setBudget],
    [resetTransactions]) and of the handlers of the pages
    ([handleTypeChange], [handleSubmit], [handleSetBudget], [handleReset],
    [handleWelcomeFinish]), together with the part of the JavaScript
    platform they call: numbers, plain objects used as dictionaries,
    [Array.prototype.sort] and [Date].

    Modelling conventions.
    - A JavaScript number is an exact rational, or one of [+Infinity],
      [-Infinity], [NaN]: the rounding of binary64, its overflow and the
      sign of zero are not modelled, the propagation of the three special
      values is.  What is stated about sums therefore compares a result of
      the code with the same operations carried out in the same order;
      where the code and the specification add in different orders, the
      comparison is made on binary64 numbers ([Binary64], on the primitive
      floating-point numbers of the prover).
    - A plain object used as a dictionary is an association list in insertion
      order, enumerated as ECMAScript prescribes (array-index keys first).
      It holds own properties only; the names that every object inherits
      from [Object.prototype] are listed in [Obj.inherited], and what is
      stated about an object indexed by a category id assumes that the id
      is none of them ([Vocab.plainIds], [Vocab.plainKeys]).
    - [Array.prototype.sort] is a stable insertion sort; the comparators of
      the code are consistent on the hosts considered, so the result does
      not depend on the algorithm.
    - The host (time zone, clock, fallback date parser) is an explicit
      record: code that reads it takes it as its first argument. Dates of
      the form [YYYY-MM-DD], the only ones the entry form produces, are
      parsed as ECMAScript prescribes; every other string is left to the
      parser of the host.
    - [parseFloat] is left to the engine: the handlers that call it take
      it as an argument, and what is proved holds for every such function.
    - Of [localStorage] only the item [hasSeenWelcome] is modelled, as part
      of the store.  Rendering, navigation, number formatting, the dialogs
      and the JSON text of the other items are not modelled.

    Layout: the platform ([Num], [Obj], [Arr], [JsDate]), the application
    ([App], [Binary64], [Provider], [Pages]), hosts and sample data
    ([Sample]), the vocabulary of the statements ([Vocab]), then the facts,
    one module per subject. *)

From Stdlib Require Import ZArith QArith Qcanon String Ascii List Bool.
From Stdlib Require Import Permutation Sorted Lia Lqa.
From Stdlib Require Import DecimalString DecimalN.
From Stdlib Require Import Floats.
Import ListNotations.

Set Warnings "-inexact-float".

Local Open Scope string_scope.

(* ================================================================= *)
(** ** JavaScript numbers *)

Module Num.

Inductive number : Type :=
| Fin (q : Qc)
| PInf
| NInf
| NaN.

Definition ofZ (z : Z) : number := Fin (Q2Qc (inject_Z z)).

Definition zero : number := ofZ 0.

Definition isFinite (x : number) : bool :=
  match x with Fin _ => true | _ => false end.

(** Sign of a number; [Eq] for zero and for [NaN]. *)
Definition sign (x : number) : comparison :=
  match x with
  | Fin a => (a ?= Q2Qc 0)%Qc
  | PInf => Gt
  | NInf => Lt
  | NaN => Eq
  end.

Definition signMul (c d : comparison) : comparison :=
  match c, d with
  | Eq, _ | _, Eq => Eq
  | Gt, Gt | Lt, Lt => Gt
  | _, _ => Lt
  end.

(** The infinity of a given sign; an undetermined sign gives [NaN]. *)
Definition infOf (c : comparison) : number :=
  match c with Gt => PInf | Lt => NInf | Eq => NaN end.

Definition add (x y : number) : number :=
  match x, y with
  | NaN, _ | _, NaN => NaN
  | Fin a, Fin b => Fin (a + b)
  | PInf, NInf | NInf, PInf => NaN
  | PInf, _ | _, PInf => PInf
  | NInf, _ | _, NInf => NInf
  end.

Definition neg (x : number) : number :=
  match x with
  | Fin a => Fin (- a)
  | PInf => NInf
  | NInf => PInf
  | NaN => NaN
  end.

Definition sub (x y : number) : number := add x (neg y).

Definition mul (x y : number) : number :=
  match x, y with
  | NaN, _ | _, NaN => NaN
  | Fin a, Fin b => Fin (a * b)
  | _, _ => infOf (signMul (sign x) (sign y))
  end.

(** Division; a zero divisor counts as [+0]. *)
Definition div (x y : number) : number :=
  match x, y with
  | NaN, _ | _, NaN => NaN
  | Fin a, Fin b =>
      if Qc_eq_bool b (Q2Qc 0) then infOf (sign x) else Fin (a / b)
  | Fin _, _ => zero
  | _, Fin b =>
      infOf (signMul (sign x) (if Qc_eq_bool b (Q2Qc 0) then Gt else sign y))
  | _, _ => NaN
  end.

(** Comparison; [None] when an operand is [NaN]. *)
Definition cmp (x y : number) : option comparison :=
  match x, y with
  | NaN, _ | _, NaN => None
  | Fin a, Fin b => Some (a ?= b)%Qc
  | PInf, PInf | NInf, NInf => Some Eq
  | NInf, _ | _, PInf => Some Lt
  | _, _ => Some Gt
  end.

(** [x < y], [x <= y], [x > y], [x >= y], [x === y] *)
Definition ltb (x y : number) : bool :=
  match cmp x y with Some Lt => true | _ => false end.
Definition leb (x y : number) : bool :=
  match cmp x y with Some Lt | Some Eq => true | _ => false end.
Definition gtb (x y : number) : bool := ltb y x.
Definition geb (x y : number) : bool := leb y x.
Definition strictEq (x y : number) : bool :=
  match cmp x y with Some Eq => true | _ => false end.

(** ToBoolean on a number: [0] and [NaN] are falsy. *)
Definition truthy (x : number) : bool :=
  match x with
  | Fin a => negb (Qc_eq_bool a (Q2Qc 0))
  | NaN => false
  | _ => true
  end.

(** [x || d] on numbers *)
Definition orElse (x d : number) : number := if truthy x then x else d.

(** [Math.max] of two numbers, and of a list ([Math.max()] is [-Infinity]) *)
Definition max2 (x y : number) : number :=
  match cmp x y with
  | None => NaN
  | Some Lt => y
  | _ => x
  end.

Definition mathMax (l : list number) : number := fold_left max2 l NInf.

(** Sum of a list, accumulated from the left starting at [0] *)
Definition sum (l : list number) : number := fold_left add l zero.


(** [Math.abs] *)
Definition abs (x : number) : number :=
  match x with
  | Fin a => if ltb x zero then Fin (- a) else x
  | NaN => NaN
  | _ => PInf
  end.

End Num.

Export Num.

Declare Scope num_scope.
Delimit Scope num_scope with num.
Bind Scope num_scope with number.
Notation "x + y" := (add x y) : num_scope.
Notation "x - y" := (sub x y) : num_scope.
Notation "x * y" := (mul x y) : num_scope.
Notation "x / y" := (div x y) : num_scope.

(* ================================================================= *)
(** ** Plain objects used as dictionaries *)

Module Obj.

Section Dict.
Context {V : Type}.

(** Own string-keyed properties, in insertion order. *)
Definition t := list (string * V).

Definition empty : t := [].

(** [o[k]]: [None] stands for [undefined]. *)
Fixpoint get (o : t) (k : string) : option V :=
  match o with
  | [] => None
  | (k', v) :: o' => if String.eqb k k' then Some v else get o' k
  end.

(** [o[k] = v]: an existing property keeps its place, a new one is added
    last. *)
Fixpoint set (o : t) (k : string) (v : V) : t :=
  match o with
  | [] => [(k, v)]
  | (k', v') :: o' =>
      if String.eqb k k' then (k', v) :: o' else (k', v') :: set o' k v
  end.

(** [delete o[k]] *)
Fixpoint delete (o : t) (k : string) : t :=
  match o with
  | [] => []
  | (k', v') :: o' =>
      if String.eqb k k' then delete o' k else (k', v') :: delete o' k
  end.

(** [o[k].f = e] on a property that is present: the stored value is
    replaced in place. *)
Definition modify (o : t) (k : string) (f : V -> V) : t :=
  match get o k with
  | Some v => set o k (f v)
  | None => o
  end.

End Dict.

Arguments t : clear implicits.

(** *** Property enumeration order

    [Object.keys], [Object.values] and [Object.entries] list the array-index
    keys first, in ascending numeric order, then the other keys in insertion
    order. *)

Definition digitVal (c : ascii) : option N :=
  let n := N_of_ascii c in
  if (48 <=? n)%N && (n <=? 57)%N then Some (n - 48)%N else None.

Fixpoint digitsVal (s : string) (acc : N) : option N :=
  match s with
  | EmptyString => Some acc
  | String c s' =>
      match digitVal c with
      | Some d => digitsVal s' (10 * acc + d)%N
      | None => None
      end
  end.

(** A canonical numeric string below [2^32 - 1] is an array index. *)
Definition arrayIndex (s : string) : option N :=
  match s with
  | EmptyString => None
  | String c s' =>
      if Ascii.eqb c "0"%char && negb (String.eqb s' EmptyString) then None
      else match digitsVal s 0 with
           | Some n => if (n <? 4294967295)%N then Some n else None
           | None => None
           end
  end.

Fixpoint insertIndex (n : N) (k : string) (l : list (N * string))
  : list (N * string) :=
  match l with
  | [] => [(n, k)]
  | (m, k') :: l' =>
      if (n <=? m)%N then (n, k) :: l else (m, k') :: insertIndex n k l'
  end.

Fixpoint indexKeys (ks : list string) : list (N * string) :=
  match ks with
  | [] => []
  | k :: ks' =>
      match arrayIndex k with
      | Some n => insertIndex n k (indexKeys ks')
      | None => indexKeys ks'
      end
  end.

Definition isIndex (k : string) : bool :=
  match arrayIndex k with Some _ => true | None => false end.

Definition ownKeys {V} (o : t V) : list string :=
  let ks := map fst o in
  map snd (indexKeys ks) ++ filter (fun k => negb (isIndex k)) ks.

Definition entries {V} (o : t V) : list (string * V) :=
  flat_map (fun k => match get o k with
                     | Some v => [(k, v)]
                     | None => []
                     end) (ownKeys o).

Definition values {V} (o : t V) : list V := map snd (entries o).

(** [{ ...o }]: a fresh object that receives the own properties of [o] in
    enumeration order. *)
Definition spread {V} (o : t V) : t V := entries o.

(** Representation invariant: a property name occurs once. *)
Definition wf {V} (o : t V) : Prop := NoDup (map fst o).

(** *** What an object inherits

    An object created by [{}] inherits the properties of
    [Object.prototype]: reading one of these names on it gives the
    inherited value and not [undefined], and writing [__proto__] creates no
    own property.  [get] and [set] describe the own properties only, so
    they describe the object on every other name.  The names are those of
    ECMA-262, with the accessors of its Annex B. *)
Definition inherited : list string :=
  [ "constructor"; "hasOwnProperty"; "isPrototypeOf";
    "propertyIsEnumerable"; "toLocaleString"; "toString"; "valueOf";
    "__proto__"; "__defineGetter__"; "__defineSetter__";
    "__lookupGetter__"; "__lookupSetter__" ].

(** The name is not one that [{}] inherits. *)
Definition plain (k : string) : bool :=
  negb (existsb (String.eqb k) inherited).

End Obj.

(* ================================================================= *)
(** ** [Array.prototype.sort] with a comparator

    The sort is stable; [x] is moved after [y] only when the comparator
    returns a value greater than zero ([NaN] counts as zero). *)

Module Arr.

Section Sort.
Context {A : Type} (comparator : A -> A -> number).

Fixpoint insert (x : A) (l : list A) : list A :=
  match l with
  | [] => [x]
  | y :: l' =>
      if gtb (comparator x y) zero then y :: insert x l' else x :: l
  end.

Definition sort (l : list A) : list A := fold_right insert [] l.

End Sort.

End Arr.

(* ================================================================= *)
(** ** [Date]

    A [Date] holds a time value: milliseconds since 1970-01-01T00:00Z, or
    [NaN] for an invalid date.  Calendar fields are read in the host's local
    time; a date-only ISO string denotes midnight UTC. *)

Module JsDate.

Local Open Scope Z_scope.

Record Host : Type := {
  (** local time minus UTC, in minutes *)
  utcOffsetMinutes : Z;
  (** time value returned by [new Date()] *)
  clock : Z;
  (** [Date.parse] on strings that are not of the date-only form
      [YYYY-MM-DD]: left to the engine by ECMA-262 *)
  parseOther : string -> option Z
}.

(** Time value of a [Date]; [None] is [NaN]. *)
Definition Date := option Z.

Definition msPerDay : Z := 86400000.
Definition msPerMinute : Z := 60000.

Definition isLeap (y : Z) : bool :=
  ((y mod 4 =? 0) && negb (y mod 100 =? 0)) || (y mod 400 =? 0).

Definition daysInMonth (y m : Z) : Z :=
  if m =? 2 then (if isLeap y then 29 else 28)
  else if (m =? 4) || (m =? 6) || (m =? 9) || (m =? 11) then 30
  else 31.

(** Day number (days since the epoch) of a proleptic Gregorian date. *)
Definition daysFromCivil (y m d : Z) : Z :=
  let y' := if m <=? 2 then y - 1 else y in
  let era := y' / 400 in
  let yoe := y' - era * 400 in
  let mp := if 2 <? m then m - 3 else m + 9 in
  let doy := (153 * mp + 2) / 5 + d - 1 in
  let doe := yoe * 365 + yoe / 4 - yoe / 100 + doy in
  era * 146097 + doe - 719468.

(** Year, month (1-12) and day of month of a day number. *)
Definition civilFromDays (z : Z) : Z * Z * Z :=
  let z' := z + 719468 in
  let era := z' / 146097 in
  let doe := z' - era * 146097 in
  let yoe := (doe - doe / 1460 + doe / 36524 - doe / 146096) / 365 in
  let doy := doe - (365 * yoe + yoe / 4 - yoe / 100) in
  let mp := (5 * doy + 2) / 153 in
  let d := doy - (153 * mp + 2) / 5 + 1 in
  let m := if mp <? 10 then mp + 3 else mp - 9 in
  let y := yoe + era * 400 in
  (if m <=? 2 then y + 1 else y, m, d).

Definition digitZ (c : ascii) : option Z :=
  match Obj.digitVal c with Some n => Some (Z.of_N n) | None => None end.

Fixpoint digitsZ (cs : list ascii) (acc : Z) : option Z :=
  match cs with
  | [] => Some acc
  | c :: cs' =>
      match digitZ c with
      | Some d => digitsZ cs' (10 * acc + d)
      | None => None
      end
  end.

(** The date-only form [YYYY-MM-DD] with a month and a day that exist. *)
Definition parseIsoDate (s : string) : option (Z * Z * Z) :=
  match list_ascii_of_string s with
  | [y1; y2; y3; y4; s1; m1; m2; s2; d1; d2] =>
      if Ascii.eqb s1 "-" && Ascii.eqb s2 "-" then
        match digitsZ [y1; y2; y3; y4] 0, digitsZ [m1; m2] 0,
              digitsZ [d1; d2] 0 with
        | Some y, Some m, Some d =>
            if (1 <=? m) && (m <=? 12) && (1 <=? d) && (d <=? daysInMonth y m)
            then Some (y, m, d) else None
        | _, _, _ => None
        end
      else None
  | _ => None
  end.

Section WithHost.
Variable h : Host.

(** [new Date()] *)
Definition now : Date := Some (clock h).

(** [new Date(s)] *)
Definition ofString (s : string) : Date :=
  match parseIsoDate s with
  | Some (y, m, d) => Some (daysFromCivil y m d * msPerDay)
  | None => parseOther h s
  end.

(** Local calendar fields of a time value. *)
Definition localFields (t : Z) : Z * Z * Z :=
  civilFromDays ((t + utcOffsetMinutes h * msPerMinute) / msPerDay).

(** [d.getFullYear()] *)
Definition getFullYear (d : Date) : number :=
  match d with
  | Some t => let '(y, _, _) := localFields t in ofZ y
  | None => NaN
  end.

(** [d.getMonth()]: January is [0] *)
Definition getMonth (d : Date) : number :=
  match d with
  | Some t => let '(_, m, _) := localFields t in ofZ (m - 1)
  | None => NaN
  end.

(** [d.getTime()] *)
Definition getTime (d : Date) : number :=
  match d with
  | Some t => ofZ t
  | None => NaN
  end.

End WithHost.

(** Abbreviated month names of the locale [ar-EG]. *)
Definition monthShort (m : Z) : string :=
  match m with
  | 1 => "يناير" | 2 => "فبراير" | 3 => "مارس" | 4 => "أبريل"
  | 5 => "مايو" | 6 => "يونيو" | 7 => "يوليو" | 8 => "أغسطس"
  | 9 => "سبتمبر" | 10 => "أكتوبر" | 11 => "نوفمبر" | _ => "ديسمبر"
  end.

(** Decimal digits of a non-negative integer. *)
Definition showZ (n : Z) : string :=
  NilEmpty.string_of_uint (N.to_uint (Z.to_N n)).

(** [d.toLocaleString('ar-EG', { month: 'short', year: 'numeric',
    numberingSystem: 'latn' })]: abbreviated month, a space, the year of the
    era in Latin digits. *)
Definition toLocaleMonthYear (h : Host) (d : Date) : string :=
  match d with
  | Some t =>
      let '(y, m, _) := localFields h t in
      monthShort m ++ " " ++ showZ (if y <=? 0 then 1 - y else y)
  | None => "Invalid Date"
  end.

End JsDate.

(* ================================================================= *)
(** ** The application *)

Module App.

Import JsDate.
Local Open Scope num_scope.

(** *** Types *)

Inductive TransactionType : Type := INCOME | EXPENSE.

Definition isIncome (t : TransactionType) : bool :=
  match t with INCOME => true | EXPENSE => false end.

Definition isExpense (t : TransactionType) : bool :=
  match t with EXPENSE => true | INCOME => false end.

Record Category : Type := {
  cat_id : string;
  cat_name : string;
  cat_color : string
}.

Record Transaction : Type := {
  tx_id : string;
  tx_type : TransactionType;
  categoryId : string;
  amount : number;
  date : string;
  description : string;
  tags : option (list string)
}.

Definition CATEGORIES_INCOME : list Category := [
  {| cat_id := "salary"; cat_name := "راتب"; cat_color := "#22c55e" |};
  {| cat_id := "freelance"; cat_name := "عمل حر"; cat_color := "#4ade80" |};
  {| cat_id := "investment"; cat_name := "استثمار"; cat_color := "#86efac" |};
  {| cat_id := "other_income"; cat_name := "دخل آخر"; cat_color := "#bbf7d0" |}
].

Definition CATEGORIES_EXPENSE : list Category := [
  {| cat_id := "food"; cat_name := "طعام"; cat_color := "#ef4444" |};
  {| cat_id := "housing"; cat_name := "سكن"; cat_color := "#f87171" |};
  {| cat_id := "transport"; cat_name := "مواصلات"; cat_color := "#f97316" |};
  {| cat_id := "entertainment"; cat_name := "ترفيه"; cat_color := "#facc15" |};
  {| cat_id := "health"; cat_name := "صحة"; cat_color := "#3b82f6" |};
  {| cat_id := "shopping"; cat_name := "تسوق"; cat_color := "#a855f7" |};
  {| cat_id := "education"; cat_name := "تعليم"; cat_color := "#8b5cf6" |};
  {| cat_id := "bills"; cat_name := "فواتير"; cat_color := "#6366f1" |};
  {| cat_id := "debts"; cat_name := "ديون"; cat_color := "#ec4899" |};
  {| cat_id := "investment_expense"; cat_name := "استثمارات";
     cat_color := "#14b8a6" |};
  {| cat_id := "leisure"; cat_name := "مصاريف ترفيهية";
     cat_color := "#d97706" |};
  {| cat_id := "other_expense"; cat_name := "مصاريف أخرى";
     cat_color := "#6b7280" |}
].

(** *** Services *)

Record Totals : Type := {
  income : number;
  expense : number;
  balance : number
}.

Definition totalsStep (acc : Totals) (transaction : Transaction) : Totals :=
  let acc1 :=
    if isIncome (tx_type transaction)
    then {| income := income acc + amount transaction;
            expense := expense acc;
            balance := balance acc |}
    else {| income := income acc;
            expense := expense acc + amount transaction;
            balance := balance acc |} in
  {| income := income acc1;
     expense := expense acc1;
     balance := income acc1 - expense acc1 |}.

Definition calculateTotals (transactions : list Transaction) : Totals :=
  fold_left totalsStep transactions
    {| income := zero; expense := zero; balance := zero |}.

Definition getCategoryById (id : string) : option Category :=
  let allCategories := (CATEGORIES_INCOME ++ CATEGORIES_EXPENSE)%list in
  find (fun cat => String.eqb (cat_id cat) id) allCategories.

Record Bucket : Type := {
  total : number;
  bk_color : string;
  count : number
}.

Record Slice : Type := {
  slice_name : string;
  value : number;
  slice_color : string
}.

Definition groupStep (acc : Obj.t Bucket) (expense : Transaction)
  : Obj.t Bucket :=
  match getCategoryById (categoryId expense) with
  | Some category =>
      let acc1 :=
        match Obj.get acc (cat_name category) with
        | None =>
            Obj.set acc (cat_name category)
              {| total := zero; bk_color := cat_color category;
                 count := zero |}
        | Some _ => acc
        end in
      let acc2 :=
        Obj.modify acc1 (cat_name category) (fun b =>
          {| total := total b + amount expense; bk_color := bk_color b;
             count := count b |}) in
      Obj.modify acc2 (cat_name category) (fun b =>
        {| total := total b; bk_color := bk_color b;
           count := count b + ofZ 1 |})
  | None => acc
  end.

Definition groupExpensesByCategory (transactions : list Transaction)
  : list Slice :=
  let expenses := filter (fun t => isExpense (tx_type t)) transactions in
  let grouped := fold_left groupStep expenses Obj.empty in
  map (fun '(name, data) =>
         {| slice_name := name; value := total data;
            slice_color := bk_color data |})
      (Obj.entries grouped).

(** A row of the monthly series; [mr_income] is the property [دخل] and
    [mr_expense] the property [مصروف]. *)
Record MonthRow : Type := {
  mr_name : string;
  mr_income : number;
  mr_expense : number
}.

Section WithHost.
Variable h : Host.

Definition monthStep (acc : Obj.t MonthRow) (tx : Transaction)
  : Obj.t MonthRow :=
  let month := toLocaleMonthYear h (ofString h (date tx)) in
  let acc1 :=
    match Obj.get acc month with
    | None =>
        Obj.set acc month
          {| mr_name := month; mr_income := zero; mr_expense := zero |}
    | Some _ => acc
    end in
  if isIncome (tx_type tx)
  then Obj.modify acc1 month (fun r =>
         {| mr_name := mr_name r; mr_income := mr_income r + amount tx;
            mr_expense := mr_expense r |})
  else Obj.modify acc1 month (fun r =>
         {| mr_name := mr_name r; mr_income := mr_income r;
            mr_expense := mr_expense r + amount tx |}).

Definition byLabelTime (a b : MonthRow) : number :=
  getTime (ofString h (mr_name b)) - getTime (ofString h (mr_name a)).

Definition groupTransactionsByMonth (transactions : list Transaction)
  : list MonthRow :=
  let data := fold_left monthStep transactions Obj.empty in
  Arr.sort byLabelTime (Obj.values data).

Record DashboardStats : Type := {
  totalTransactions : number;
  largestSpendingCategory : string;
  highestIncome : number;
  monthlySavingsPercentage : number
}.

(** [acc[k] || 0] *)
Definition getOr0 (acc : Obj.t number) (k : string) : number :=
  match Obj.get acc k with
  | Some v => orElse v zero
  | None => zero
  end.

Definition spendStep (acc : Obj.t number) (tx : Transaction)
  : Obj.t number :=
  Obj.set acc (categoryId tx) (getOr0 acc (categoryId tx) + amount tx).

(** The filter shared by the dashboard statistics and the budget status:
    the transaction's date has the month and the year of [new Date()]. *)
Definition inCurrentMonth (tx : Transaction) : bool :=
  let currentMonth := getMonth h (now h) in
  let currentYear := getFullYear h (now h) in
  let txDate := ofString h (date tx) in
  strictEq (getMonth h txDate) currentMonth
  && strictEq (getFullYear h txDate) currentYear.

Definition getDashboardStats (transactions : list Transaction)
  : DashboardStats :=
  let totalTransactions := ofZ (Z.of_nat (length transactions)) in
  let expenseTransactions :=
    filter (fun tx => isExpense (tx_type tx)) transactions in
  let largestSpendingCategory :=
    match expenseTransactions with
    | [] => "لا يوجد"
    | _ :: _ =>
        let spendingByCategory :=
          fold_left spendStep expenseTransactions Obj.empty in
        match Arr.sort (fun x y => snd y - snd x)
                (Obj.entries spendingByCategory) with
        | largestCategoryEntry :: _ =>
            match getCategoryById (fst largestCategoryEntry) with
            | Some category => cat_name category
            | None => "غير معروف"
            end
        | [] => "لا يوجد"
        end
    end in
  let incomeTransactions :=
    filter (fun tx => isIncome (tx_type tx)) transactions in
  let highestIncome :=
    match incomeTransactions with
    | [] => zero
    | _ :: _ => mathMax (map amount incomeTransactions)
    end in
  let currentMonthTransactions := filter inCurrentMonth transactions in
  let monthlyTotals := calculateTotals currentMonthTransactions in
  let monthlySavings := income monthlyTotals - expense monthlyTotals in
  let monthlySavingsPercentage :=
    if gtb (income monthlyTotals) zero
    then (monthlySavings / income monthlyTotals) * ofZ 100
    else zero in
  {| totalTransactions := totalTransactions;
     largestSpendingCategory := largestSpendingCategory;
     highestIncome := highestIncome;
     monthlySavingsPercentage := monthlySavingsPercentage |}.

(** *** The budget status of [DashboardPage] *)

Record BudgetRow : Type := {
  bs_categoryId : string;
  categoryName : string;
  budgetAmount : number;
  spentAmount : number;
  percentage : number;
  remaining : number;
  bs_color : string
}.

Definition budgetRow (budgets expensesByCategory : Obj.t number)
  (categoryId : string) : option BudgetRow :=
  match Obj.get budgets categoryId with
  | None => None
  | Some budgetAmount =>
      if negb (truthy budgetAmount) || leb budgetAmount zero then None
      else
        let category := getCategoryById categoryId in
        let spentAmount := getOr0 expensesByCategory categoryId in
        let percentage := (spentAmount / budgetAmount) * ofZ 100 in
        let remaining := budgetAmount - spentAmount in
        Some {| bs_categoryId := categoryId;
                categoryName := match category with
                                | Some c => cat_name c
                                | None => "غير معروف"
                                end;
                budgetAmount := budgetAmount;
                spentAmount := spentAmount;
                percentage := percentage;
                remaining := remaining;
                bs_color := match category with
                            | Some c => cat_color c
                            | None => "#ccc"
                            end |}
  end.

Definition byPercentage (a b : BudgetRow) : number :=
  percentage b - percentage a.

Definition nonNull {A} (l : list (option A)) : list A :=
  flat_map (fun item => match item with Some x => [x] | None => [] end) l.

Definition budgetStatus (transactions : list Transaction)
  (budgets : Obj.t number) : list BudgetRow :=
  let currentMonthExpenses :=
    filter (fun tx => isExpense (tx_type tx) && inCurrentMonth tx)
      transactions in
  let expensesByCategory :=
    fold_left spendStep currentMonthExpenses Obj.empty in
  Arr.sort byPercentage
    (nonNull (map (budgetRow budgets expensesByCategory)
                (Obj.ownKeys budgets))).

Definition budgetAlerts (budgetStatus : list BudgetRow) : list BudgetRow :=
  Arr.sort byPercentage
    (filter (fun s => geb (percentage s) (ofZ 80)) budgetStatus).

End WithHost.

(** *** The budget store of [AppProvider]

    [setBudget] maps the stored configuration to the next one. *)
Definition setBudget (categoryId : string) (amount : number)
  (prev : Obj.t number) : Obj.t number :=
  if ltb amount zero then prev
  else
    let newBudgets := Obj.spread prev in
    if strictEq amount zero then Obj.delete newBudgets categoryId
    else Obj.set newBudgets categoryId amount.

End App.

(* ================================================================= *)
(** ** The totals and the category grouping on binary64 numbers

    [calculateTotals] and [groupExpensesByCategory] once more, this time
    on the numbers of the engine: the binary64 numbers of IEEE 754, with
    their rounding.  The two definitions follow the source as those of
    [App] do, operation for operation; they serve to measure what rounding
    does to the sums that [App] computes exactly. *)

Module Binary64.

Import App.

Record Transaction : Type := {
  tx_id : string;
  tx_type : TransactionType;
  categoryId : string;
  amount : float;
  date : string;
  description : string;
  tags : option (list string)
}.

Record Totals : Type := {
  income : float;
  expense : float;
  balance : float
}.

Definition totalsStep (acc : Totals) (transaction : Transaction) : Totals :=
  let acc1 :=
    if isIncome (tx_type transaction)
    then {| income := PrimFloat.add (income acc) (amount transaction);
            expense := expense acc;
            balance := balance acc |}
    else {| income := income acc;
            expense := PrimFloat.add (expense acc) (amount transaction);
            balance := balance acc |} in
  {| income := income acc1;
     expense := expense acc1;
     balance := PrimFloat.sub (income acc1) (expense acc1) |}.

Definition calculateTotals (transactions : list Transaction) : Totals :=
  fold_left totalsStep transactions
    {| income := 0%float; expense := 0%float; balance := 0%float |}.

Record Bucket : Type := {
  total : float;
  bk_color : string;
  count : float
}.

Record Slice : Type := {
  slice_name : string;
  value : float;
  slice_color : string
}.

Definition groupStep (acc : Obj.t Bucket) (expense : Transaction)
  : Obj.t Bucket :=
  match getCategoryById (categoryId expense) with
  | Some category =>
      let acc1 :=
        match Obj.get acc (cat_name category) with
        | None =>
            Obj.set acc (cat_name category)
              {| total := 0%float; bk_color := cat_color category;
                 count := 0%float |}
        | Some _ => acc
        end in
      let acc2 :=
        Obj.modify acc1 (cat_name category) (fun b =>
          {| total := PrimFloat.add (total b) (amount expense);
             bk_color := bk_color b;
             count := count b |}) in
      Obj.modify acc2 (cat_name category) (fun b =>
        {| total := total b; bk_color := bk_color b;
           count := PrimFloat.add (count b) 1%float |})
  | None => acc
  end.

Definition groupExpensesByCategory (transactions : list Transaction)
  : list Slice :=
  let expenses := filter (fun t => isExpense (tx_type t)) transactions in
  let grouped := fold_left groupStep expenses Obj.empty in
  map (fun '(name, data) =>
         {| slice_name := name; value := total data;
            slice_color := bk_color data |})
      (Obj.entries grouped).

(** Sum of a list, accumulated from the left starting at [0] *)
Definition sum (l : list float) : float := fold_left PrimFloat.add l 0%float.

End Binary64.

(* ================================================================= *)
(** ** The store of [AppProvider] and the start of [App]

    The state that [AppProvider] keeps, and the updates it hands to the
    pages.  An update maps the previous state to the next one, as the
    function passed to the setter does.  The dialogs ([window.confirm],
    [alert]) are outside the model: the answer of [window.confirm] is an
    argument, [alert] is left out. *)

Module Provider.

Import JsDate App.

Definition getSeedData : list Transaction := [].

(** [Date.now().toString()]: the decimal digits of the time value, with a
    minus sign for a moment before 1970 (a time value is an integer below
    [8.64e15] in absolute value, so no exponent is printed). *)
Definition nowString (h : Host) : string :=
  if (clock h <? 0)%Z then "-" ++ showZ (- clock h) else showZ (clock h).

(** [{ ...transaction, id }] *)
Definition withId (transaction : Transaction) (id : string) : Transaction :=
  {| tx_id := id;
     tx_type := tx_type transaction;
     categoryId := categoryId transaction;
     amount := amount transaction;
     date := date transaction;
     description := description transaction;
     tags := tags transaction |}.

Definition addTransaction (h : Host) (transaction : Transaction)
  (prev : list Transaction) : list Transaction :=
  withId transaction (nowString h) :: prev.

(** [confirmed] is the answer of [window.confirm]. *)
Definition deleteTransaction (confirmed : bool) (id : string)
  (prev : list Transaction) : list Transaction :=
  if confirmed
  then filter (fun tx => negb (String.eqb (tx_id tx) id)) prev
  else prev.

(** The state that [resetTransactions] touches: the transactions, the
    budgets, and the item [hasSeenWelcome] of [localStorage] ([None] when
    the item is missing).  The items in which [useLocalStorage] keeps the
    JSON text of the transactions and of the budgets follow the state; they
    are not part of the model. *)
Record Store : Type := {
  st_transactions : list Transaction;
  st_budgets : Obj.t number;
  hasSeenWelcome : option string
}.

(** [localStorage.removeItem('hasSeenWelcome')] leaves the item missing. *)
Definition resetTransactions (s : Store) : Store :=
  {| st_transactions := getSeedData;
     st_budgets := Obj.empty;
     hasSeenWelcome := None |}.

(** [!localStorage.getItem('hasSeenWelcome')], the initial state of
    [showWelcome] in [App]: a missing item and the empty string are
    falsy. *)
Definition showWelcome (item : option string) : bool :=
  match item with
  | Some text => String.eqb text ""
  | None => true
  end.

(** The item after [handleWelcomeFinish]:
    [localStorage.setItem('hasSeenWelcome', 'true')]. *)
Definition handleWelcomeFinish (item : option string) : option string :=
  Some "true".

End Provider.

(* ================================================================= *)
(** ** The pages

    The values that the pages compute from the state, and their handlers.
    Rendering, navigation and number formatting are outside the model. *)

Module Pages.

Import JsDate App Provider.

(** *** [DashboardPage] *)

Definition isExceeded (alert : BudgetRow) : bool :=
  gtb (percentage alert) (ofZ 100).

(** The amount shown in the message of an exceeded budget. *)
Definition exceededBy (alert : BudgetRow) : number := abs (remaining alert).



(** *** [ReportsPage] *)

(** The chart is drawn when [expenseData.length > 0]; otherwise the page
    says that there is nothing to show. *)
Definition showsExpenseChart (transactions : list Transaction) : bool :=
  match groupExpensesByCategory transactions with
  | [] => false
  | _ :: _ => true
  end.

(** *** [AddTransactionPage] *)

(** The state of the entry form; [f_amount] and [f_date] are the texts of
    the inputs. *)
Record Form : Type := {
  f_type : TransactionType;
  f_categoryId : string;
  f_amount : string;
  f_date : string;
  f_description : string
}.

(** [list[0].id]; both lists of the catalog have a first element. *)
Definition firstId (cats : list Category) : string :=
  match cats with
  | c :: _ => cat_id c
  | [] => ""
  end.

(** The initial state; [today] is [new Date().toISOString().split('T')[0]]. *)
Definition initialForm (today : string) : Form :=
  {| f_type := EXPENSE;
     f_categoryId := firstId CATEGORIES_EXPENSE;
     f_amount := "";
     f_date := today;
     f_description := "" |}.

Definition handleTypeChange (newType : TransactionType) (f : Form) : Form :=
  {| f_type := newType;
     f_categoryId := if isIncome newType then firstId CATEGORIES_INCOME
                     else firstId CATEGORIES_EXPENSE;
     f_amount := f_amount f;
     f_date := f_date f;
     f_description := f_description f |}.

(** The options of the category select. *)
Definition categories (f : Form) : list Category :=
  if isIncome (f_type f) then CATEGORIES_INCOME else CATEGORIES_EXPENSE.

(** What the user can do on the page: press one of the two type buttons,
    pick an option of the category select, edit one of the inputs. *)
Inductive FormEvent : Type :=
| TypeChange (newType : TransactionType)
| SelectCategory (value : string)
| SetAmount (value : string)
| SetDate (value : string)
| SetDescription (value : string).

Definition formStep (f : Form) (e : FormEvent) : Form :=
  match e with
  | TypeChange newType => handleTypeChange newType f
  | SelectCategory value =>
      {| f_type := f_type f; f_categoryId := value;
         f_amount := f_amount f; f_date := f_date f;
         f_description := f_description f |}
  | SetAmount value =>
      {| f_type := f_type f; f_categoryId := f_categoryId f;
         f_amount := value; f_date := f_date f;
         f_description := f_description f |}
  | SetDate value =>
      {| f_type := f_type f; f_categoryId := f_categoryId f;
         f_amount := f_amount f; f_date := value;
         f_description := f_description f |}
  | SetDescription value =>
      {| f_type := f_type f; f_categoryId := f_categoryId f;
         f_amount := f_amount f; f_date := f_date f;
         f_description := value |}
  end.

(** The select delivers the value of one of its options, which are the
    ids of [categories]; the other events carry any text. *)
Definition offered (f : Form) (e : FormEvent) : bool :=
  match e with
  | SelectCategory value =>
      existsb (fun c => String.eqb (cat_id c) value) (categories f)
  | _ => true
  end.

(** The state of the form after a sequence of events, [None] when one of
    them is not offered. *)
Fixpoint formAfter (f : Form) (events : list FormEvent) : option Form :=
  match events with
  | [] => Some f
  | e :: events' =>
      if offered f e then formAfter (formStep f e) events' else None
  end.

(** [!s] on a string *)
Definition isEmpty (s : string) : bool := String.eqb s "".

Section Parsing.
(** [parseFloat], left to the engine. *)
Variable parseFloat : string -> number.

(** The transaction that [handleSubmit] passes to [addTransaction]; it has
    no [id] yet and no [tags]. *)
Definition submitted (f : Form) : Transaction :=
  {| tx_id := "";
     tx_type := f_type f;
     categoryId := f_categoryId f;
     amount := parseFloat (f_amount f);
     date := f_date f;
     description := f_description f;
     tags := None |}.

Definition handleSubmit (h : Host) (f : Form) (prev : list Transaction)
  : list Transaction :=
  if isEmpty (f_amount f) || isEmpty (f_categoryId f) || isEmpty (f_date f)
  then prev
  else addTransaction h (submitted f) prev.

(** *** [SettingsPage] *)

Definition handleSetBudget (category : Category) (amount : string)
  (prev : Obj.t number) : Obj.t number :=
  setBudget (cat_id category) (orElse (parseFloat amount) zero) prev.

End Parsing.

(** *** [ResetPage] *)

Definition isButtonDisabled (confirmationText : string) : bool :=
  negb (String.eqb confirmationText "حذف").

Definition handleReset (confirmationText : string) (s : Store) : Store :=
  if negb (isButtonDisabled confirmationText) then resetTransactions s
  else s.

End Pages.

(* ================================================================= *)
(** ** Hosts and sample data *)

Module Sample.

Import JsDate App.
Local Open Scope Z_scope.

(** An engine that gives [NaN] for every string outside the ISO format. *)
Definition strictHost (offset clock : Z) : Host :=
  {| utcOffsetMinutes := offset; clock := clock;
     parseOther := fun _ => None |}.

Fixpoint lastWord (cs acc : list ascii) : list ascii :=
  match cs with
  | [] => acc
  | c :: cs' =>
      if Ascii.eqb c " " then lastWord cs' [] else lastWord cs' (acc ++ [c])
  end.

(** An engine whose fallback skips the words it does not know and reads a
    lone trailing number as a year: local midnight of 1 January of that
    year (two-digit years are taken in 1950-2049). *)
Definition lenientParse (offset : Z) (s : string) : option Z :=
  match lastWord (list_ascii_of_string s) [] with
  | [] => None
  | w =>
      match digitsZ w 0 with
      | Some n =>
          let y := if n <? 50 then 2000 + n
                   else if n <? 100 then 1900 + n else n in
          Some (daysFromCivil y 1 1 * msPerDay - offset * msPerMinute)
      | None => None
      end
  end.

Definition lenientHost (offset clock : Z) : Host :=
  {| utcOffsetMinutes := offset; clock := clock;
     parseOther := lenientParse offset |}.

(** 2024-03-15T12:00Z *)
Definition mid_march_2024 : Z := (daysFromCivil 2024 3 15 * 24 + 12) * 3600000.

(** 2024-04-15T12:00Z *)
Definition mid_april_2024 : Z := (daysFromCivil 2024 4 15 * 24 + 12) * 3600000.

(** Cairo, UTC+2 *)
Definition cairo : Z := 120.

(** New York in winter, UTC-5 *)
Definition new_york : Z := -300.

Definition tx (ty : TransactionType) (cat : string) (amt : Z) (d : string)
  : Transaction :=
  {| tx_id := d; tx_type := ty; categoryId := cat; amount := ofZ amt;
     date := d; description := ""; tags := None |}.

(** *** Sample data *)

(** The budget configuration [{ food: 1000 }]. *)
Definition food1000 : Obj.t number := [("food", ofZ 1000)].

(** The status row of a budget of 1000 on food with nothing spent. *)
Definition foodUnspent : BudgetRow :=
  {| bs_categoryId := "food"; categoryName := "طعام";
     budgetAmount := ofZ 1000; spentAmount := zero; percentage := zero;
     remaining := ofZ 1000; bs_color := "#ef4444" |}.

(** An expense of 1500 on food in March 2024. *)
Definition march_food_1500 : list Transaction :=
  [ tx EXPENSE "food" 1500 "2024-03-05" ].

(** The status row of a budget of 1000 on food with 1500 spent. *)
Definition foodExceeded : BudgetRow :=
  {| bs_categoryId := "food"; categoryName := "طعام";
     budgetAmount := ofZ 1000; spentAmount := ofZ 1500;
     percentage := ofZ 150; remaining := ofZ (-500);
     bs_color := "#ef4444" |}.

(** Expenses on food dated on the first of March and on the first of April
    2024. *)
Definition first_of_march_and_april : list Transaction :=
  [ tx EXPENSE "food" 500 "2024-03-01"; tx EXPENSE "food" 800 "2024-04-01" ].

(** An income dated on the first of March 2024 and an expense dated in the
    middle of that month. *)
Definition income_on_first_of_march : list Transaction :=
  [ tx INCOME "salary" 100 "2024-03-01"; tx EXPENSE "food" 40 "2024-03-15" ].

(** Transactions dated in March, January and February 2024, in that
    order. *)
Definition march_jan_feb : list Transaction :=
  [ tx EXPENSE "food" 10 "2024-03-10";
    tx INCOME "salary" 20 "2024-01-10";
    tx EXPENSE "food" 30 "2024-02-10" ].

(** An income of 100 and an expense of 40, both in March 2024. *)
Definition march_income_expense : list Transaction :=
  [ tx INCOME "salary" 100 "2024-03-10"; tx EXPENSE "food" 40 "2024-03-12" ].

(** A budget of 1000 on food, one of 0 on housing, one of 500 on bills. *)
Definition three_budgets : Obj.t number :=
  [("food", ofZ 1000); ("housing", ofZ 0); ("bills", ofZ 500)].

(** Expenses of March 2024: 800 on food and 100 on bills. *)
Definition march_expenses : list Transaction :=
  [ tx EXPENSE "food" 500 "2024-03-05"; tx EXPENSE "bills" 100 "2024-03-07";
    tx EXPENSE "food" 300 "2024-03-20"; tx EXPENSE "food" 50 "2024-02-20" ].

(** An income of 100 and an expense of 150, both in March 2024. *)
Definition march_overspent : list Transaction :=
  [ tx INCOME "salary" 100 "2024-03-10"; tx EXPENSE "food" 150 "2024-03-12" ].

(** Expenses on food and housing and one under an id that is not in the
    catalog. *)
Definition with_unknown_category : list Transaction :=
  [ tx EXPENSE "food" 10 "2024-03-01"; tx EXPENSE "pets" 7 "2024-03-02";
    tx EXPENSE "housing" 30 "2024-03-03"; tx EXPENSE "food" 5 "2024-03-04";
    tx INCOME "salary" 100 "2024-03-05" ].



(** *** Amounts that binary64 does not hold exactly *)

Definition tx64 (ty : TransactionType) (cat : string) (amt : float)
  : Binary64.Transaction :=
  {| Binary64.tx_id := cat; Binary64.tx_type := ty;
     Binary64.categoryId := cat; Binary64.amount := amt;
     Binary64.date := "2024-03-10"; Binary64.description := "";
     Binary64.tags := None |}.


(** Incomes of 0.1, 0.2 and 0.3. *)
Definition tenths : list Binary64.Transaction :=
  [ tx64 INCOME "salary" 0.1; tx64 INCOME "salary" 0.2;
    tx64 INCOME "salary" 0.3 ].

(** *** The entry form *)

(** The user chooses INCOME, picks the category freelance and types the
    amount 20. *)
Definition freelance_events : list Pages.FormEvent :=
  [ Pages.TypeChange INCOME; Pages.SelectCategory "freelance";
    Pages.SetAmount "20" ].

(** The form after these events, opened on 15 March 2024. *)
Definition freelance_form : Pages.Form :=
  {| Pages.f_type := INCOME; Pages.f_categoryId := "freelance";
     Pages.f_amount := "20"; Pages.f_date := "2024-03-15";
     Pages.f_description := "" |}.

(** A [parseFloat] that reads the text [20] and gives [NaN] for any
    other. *)
Definition parseTwenty (s : string) : number :=
  if String.eqb s "20" then ofZ 20 else NaN.

End Sample.

(* ================================================================= *)
(** ** Vocabulary of the statements *)

Module Vocab.

Import JsDate App.

(** *** Totals and amounts *)

(** Amounts of the INCOME transactions, in order. *)
Definition incomeAmounts (l : list Transaction) : list number :=
  map amount (filter (fun tx => isIncome (tx_type tx)) l).

(** Amounts of the EXPENSE transactions, in order. *)
Definition expenseAmounts (l : list Transaction) : list number :=
  map amount (filter (fun tx => isExpense (tx_type tx)) l).

(** The amount of the transaction is a finite number. *)
Definition finiteAmount (tx : Transaction) : Prop :=
  isFinite (amount tx) = true.

(** A transaction as the entry form produces it: a finite amount that is
    not negative. *)
Definition wellFormed (tx : Transaction) : Prop :=
  isFinite (amount tx) = true /\ leb zero (amount tx) = true.

(** Order of a list sorted from the largest key to the smallest. *)
Definition descendingBy {A : Type} (key : A -> number) (a b : A) : Prop :=
  geb (key a) (key b) = true.

(** *** The current month and the budgets *)

(** The value of [currentMonthExpenses] in the budget status: the EXPENSE
    transactions that pass the month filter of the code. *)
Definition currentMonthExpenses (h : Host) (l : list Transaction)
  : list Transaction :=
  filter (fun tx => isExpense (tx_type tx) && inCurrentMonth h tx) l.

(** The date field of the transaction is a calendar date [YYYY-MM-DD]. *)
Definition isoDated (tx : Transaction) : bool :=
  match parseIsoDate (date tx) with
  | Some _ => true
  | None => false
  end.

(** The date field of the transaction is a calendar date of the year [y]
    and the month [m]. *)
Definition datedIn (y m : Z) (tx : Transaction) : bool :=
  match parseIsoDate (date tx) with
  | Some (ty, tm, _) => (ty =? y)%Z && (tm =? m)%Z
  | None => false
  end.

(** The date of the transaction falls in the calendar month and year of
    the current moment, the moment being read on the local calendar of the
    host.  This is the month rule as the specification words it: it looks
    at the date field and at the clock, and at nothing of the code. *)
Definition inCalendarMonth (h : Host) (tx : Transaction) : bool :=
  let '(cy, cm, _) := localFields h (clock h) in datedIn cy cm tx.

(** The transactions of the current calendar month. *)
Definition calendarMonthTransactions (h : Host) (l : list Transaction)
  : list Transaction :=
  filter (inCalendarMonth h) l.

(** The EXPENSE transactions of the current calendar month. *)
Definition calendarMonthExpenses (h : Host) (l : list Transaction)
  : list Transaction :=
  filter (fun tx => isExpense (tx_type tx) && inCalendarMonth h tx) l.

(** The host is at or east of UTC, by less than a day. *)
Definition eastOfUtc (h : Host) : Prop :=
  (0 <= utcOffsetMinutes h < 1440)%Z.

(** Sum of the amounts of the transactions of [l] recorded under the
    category id [k]. *)
Definition spentOn (l : list Transaction) (k : string) : number :=
  sum (map amount (filter (fun tx => String.eqb (categoryId tx) k) l)).

(** EXPENSE total of the category [k] restricted to the current calendar
    month. *)
Definition calendarSpent (h : Host) (l : list Transaction) (k : string)
  : number :=
  spentOn (calendarMonthExpenses h l) k.

(** No category id of the transactions is a name that [{}] inherits. *)
Definition plainIds (l : list Transaction) : Prop :=
  Forall (fun tx => Obj.plain (categoryId tx) = true) l.

(** No key of the object is a name that [{}] inherits. *)
Definition plainKeys {V : Type} (o : Obj.t V) : Prop :=
  Forall (fun k => Obj.plain k = true) (map fst o).

(** The object that the reduction with [spendStep] builds from [l]. *)
Definition spending (l : list Transaction) : Obj.t number :=
  fold_left spendStep l Obj.empty.

(** The budget mapping has an entry for [k] with a limit above zero. *)
Definition limitPositive (budgets : Obj.t number) (k : string) : bool :=
  match Obj.get budgets k with
  | Some limit => ltb zero limit
  | None => false
  end.

(** The row [r] reports the limit of its category, what was spent on it in
    the current calendar month, the percentage used and what remains. *)
Definition rowMatches (h : Host) (l : list Transaction)
  (budgets : Obj.t number) (r : BudgetRow) : Prop :=
  exists limit : number,
    Obj.get budgets (bs_categoryId r) = Some limit /\
    ltb zero limit = true /\
    budgetAmount r = limit /\
    spentAmount r = calendarSpent h l (bs_categoryId r) /\
    percentage r = mul (div (spentAmount r) limit) (ofZ 100) /\
    remaining r = sub limit (spentAmount r).



(** *** The category grouping *)

(** The category id of the transaction is in the catalog. *)
Definition resolvable (tx : Transaction) : bool :=
  match getCategoryById (categoryId tx) with
  | Some _ => true
  | None => false
  end.

(** Amounts of the EXPENSE transactions whose category resolves. *)
Definition resolvedExpenseAmounts (l : list Transaction) : list number :=
  map amount
    (filter (fun tx => resolvable tx)
       (filter (fun tx => isExpense (tx_type tx)) l)).

(** Amounts of the EXPENSE transactions whose category does not resolve. *)
Definition unresolvedExpenseAmounts (l : list Transaction) : list number :=
  map amount
    (filter (fun tx => negb (resolvable tx))
       (filter (fun tx => isExpense (tx_type tx)) l)).

(** The object that [groupExpensesByCategory] builds from the expenses. *)
Definition grouped (expenses : list Transaction) : Obj.t Bucket :=
  fold_left groupStep expenses Obj.empty.

(** Sum of the totals of the buckets of an object. *)
Definition sumTotals (o : Obj.t Bucket) : number :=
  sum (map (fun p => total (snd p)) o).

(** *** The monthly series *)

(** Key of a transaction in the monthly series. *)
Definition monthKey (h : Host) (tx : Transaction) : string :=
  toLocaleMonthYear h (ofString h (date tx)).

(** The object that [groupTransactionsByMonth] builds. *)
Definition monthly (h : Host) (l : list Transaction) : Obj.t MonthRow :=
  fold_left (monthStep h) l Obj.empty.

(** *** What one reduction step does to one property *)

(** The bucket after an expense of amount [a] in category [c]; [ob] is the
    bucket before, if any. *)
Definition bump (c : Category) (a : number) (ob : option Bucket) : Bucket :=
  let b1 := match ob with
            | Some b => b
            | None => {| total := zero; bk_color := cat_color c;
                         count := zero |}
            end in
  {| total := add (total b1) a; bk_color := bk_color b1;
     count := add (count b1) (ofZ 1) |}.

(** Effect of [groupStep] on the property [k]. *)
Definition groupF (tx : Transaction) (k : string) (ob : option Bucket)
  : option Bucket :=
  match getCategoryById (categoryId tx) with
  | Some c =>
      if String.eqb (cat_name c) k then Some (bump c (amount tx) ob) else ob
  | None => ob
  end.

(** Effect of [monthStep] on the property [k]. *)
Definition monthF (h : Host) (tx : Transaction) (k : string)
  (orow : option MonthRow) : option MonthRow :=
  if String.eqb (monthKey h tx) k then
    let r := match orow with
             | Some r => r
             | None => {| mr_name := monthKey h tx; mr_income := zero;
                          mr_expense := zero |}
             end in
    Some (if isIncome (tx_type tx)
          then {| mr_name := mr_name r;
                  mr_income := add (mr_income r) (amount tx);
                  mr_expense := mr_expense r |}
          else {| mr_name := mr_name r; mr_income := mr_income r;
                  mr_expense := add (mr_expense r) (amount tx) |})
  else orow.

(** *** The largest spending category *)

(** The category id [k] occurs among the expenses of [l] and its expense
    total is strictly above that of every other category id. *)
Definition strictLargest (l : list Transaction) (k : string) : Prop :=
  let expenses := filter (fun tx => isExpense (tx_type tx)) l in
  In k (map categoryId expenses) /\
  forall k', In k' (map categoryId expenses) -> k' <> k ->
             ltb (spentOn expenses k') (spentOn expenses k) = true.

(** No tie for the largest spending category: there is no expense, or one
    category id is strictly the largest. *)
Definition noTie (l : list Transaction) : Prop :=
  filter (fun tx => isExpense (tx_type tx)) l = [] \/
  exists k, strictLargest l k.

(** Display name of a category id, as [getDashboardStats] resolves it. *)
Definition displayName (k : string) : string :=
  match getCategoryById k with
  | Some category => cat_name category
  | None => "غير معروف"
  end.

(** *** The calendar conversions *)

(** Day of the era of the day [d] of the month [m] in the year of the era
    [yoe], the year starting in March. *)
Definition dayOfEra (yoe m d : Z) : Z :=
  (let mp := if 2 <? m then m - 3 else m + 9 in
   let doy := (153 * mp + 2) / 5 + d - 1 in
   yoe * 365 + yoe / 4 - yoe / 100 + doy)%Z.

(** *** The catalog and the rows of the groupings *)

(** The catalog that [getCategoryById] searches. *)
Definition allCategories : list Category :=
  (CATEGORIES_INCOME ++ CATEGORIES_EXPENSE)%list.

(** The EXPENSE transactions, in order. *)
Definition expensesOf (l : list Transaction) : list Transaction :=
  filter (fun tx => isExpense (tx_type tx)) l.

(** The slice of the category [c]: its name, the sum of the amounts of the
    expenses recorded under its id, its colour. *)
Definition sliceOf (l : list Transaction) (c : Category) : Slice :=
  {| slice_name := cat_name c;
     value := spentOn (expensesOf l) (cat_id c);
     slice_color := cat_color c |}.

(** The transaction is of the type [ty]. *)
Definition ofType (ty : TransactionType) (tx : Transaction) : bool :=
  match ty with
  | INCOME => isIncome (tx_type tx)
  | EXPENSE => isExpense (tx_type tx)
  end.

(** Sum of the amounts of the transactions of [l] of type [ty] whose month
    key is [k]. *)
Definition monthAmount (h : Host) (l : list Transaction)
  (ty : TransactionType) (k : string) : number :=
  sum (map amount
         (filter (fun tx => ofType ty tx && String.eqb (monthKey h tx) k) l)).

(** The row of the month key [k]. *)
Definition rowOf (h : Host) (l : list Transaction) (k : string) : MonthRow :=
  {| mr_name := k;
     mr_income := monthAmount h l INCOME k;
     mr_expense := monthAmount h l EXPENSE k |}.

(** What a bucket shows: its total and its colour. *)
Definition shown (b : Bucket) : number * string := (total b, bk_color b).

(** The names of the categories of the transactions whose category id is
    in the catalog, in order. *)
Definition resolvedNames (l : list Transaction) : list string :=
  flat_map (fun tx => match getCategoryById (categoryId tx) with
                      | Some c => [cat_name c]
                      | None => []
                      end) l.

(** The distinct elements of a list, each at the place of its first
    occurrence. *)
Definition distinct (l : list string) : list string :=
  fold_left (fun seen k => if existsb (String.eqb k) seen then seen
                           else (seen ++ [k])%list) l [].

(** *** The budgets *)

(** Every stored limit is greater than zero. *)
Definition positiveLimits (budgets : Obj.t number) : Prop :=
  Forall (fun p => ltb zero (snd p) = true) budgets.

End Vocab.

(* ================================================================= *)
(** ** Facts about numbers *)

Module NumFacts.

#[global] Arguments add : simpl never.
#[global] Arguments sub : simpl never.
#[global] Arguments mul : simpl never.
#[global] Arguments div : simpl never.
#[global] Arguments zero : simpl never.
#[global] Arguments ofZ : simpl never.
#[global] Arguments sum : simpl never.
#[global] Arguments mathMax : simpl never.

Lemma add_comm (x y : number) : add x y = add y x.
Proof.
  destruct x, y; unfold add; try reflexivity.
  f_equal. apply Qcplus_comm.
Qed.

Lemma add_assoc (x y z : number) : add x (add y z) = add (add x y) z.
Proof.
  destruct x, y, z; unfold add; try reflexivity.
  f_equal. apply Qcplus_assoc.
Qed.

Lemma add_zero_r (x : number) : add x zero = x.
Proof.
  destruct x; unfold add, zero, ofZ; try reflexivity.
  f_equal. apply Qcplus_0_r.
Qed.

Lemma add_zero_l (x : number) : add zero x = x.
Proof. rewrite add_comm. apply add_zero_r. Qed.

Lemma fold_add_acc (l : list number) (a : number) :
  fold_left add l a = add a (fold_left add l zero).
Proof.
  revert a. induction l as [|x l IH]; intros a; cbn [fold_left].
  - symmetry. apply add_zero_r.
  - rewrite IH. rewrite (IH (add zero x)).
    rewrite add_zero_l. symmetry. apply add_assoc.
Qed.

Lemma sum_nil : sum [] = zero.
Proof. reflexivity. Qed.

Lemma sum_cons (x : number) (l : list number) : sum (x :: l) = add x (sum l).
Proof.
  unfold sum. cbn [fold_left]. rewrite fold_add_acc. now rewrite add_zero_l.
Qed.

Lemma sum_app (l1 l2 : list number) : sum (l1 ++ l2) = add (sum l1) (sum l2).
Proof.
  induction l1 as [|x l1 IH]; simpl.
  - rewrite sum_nil. symmetry. apply add_zero_l.
  - rewrite !sum_cons, IH. apply add_assoc.
Qed.

Lemma sum_snoc (l : list number) (x : number) :
  sum (l ++ [x]) = add (sum l) x.
Proof. rewrite sum_app, sum_cons, sum_nil. now rewrite add_zero_r. Qed.

Lemma sum_perm (l1 l2 : list number) :
  Permutation l1 l2 -> sum l1 = sum l2.
Proof.
  induction 1 as [|x l1 l2 _ IH|x y l|l1 l2 l3 _ IH1 _ IH2].
  - reflexivity.
  - now rewrite !sum_cons, IH.
  - rewrite !sum_cons, !add_assoc. f_equal. apply add_comm.
  - now rewrite IH1.
Qed.

Lemma Fin_canon (a b : Qc) : Qeq a b -> Fin a = Fin b.
Proof. intros H. f_equal. now apply Qc_is_canon. Qed.

(** Equalities between evaluated numbers and lists of numbers. *)
Ltac num_eq :=
  repeat match goal with
         | |- Fin _ = Fin _ => apply Fin_canon; reflexivity
         | |- _ :: _ = _ :: _ => apply f_equal2
         | |- _ = _ => reflexivity
         end.

(** *** Order on the rationals *)

Lemma Qccompare_cases (a b : Qc) :
  CompareSpec (a = b) (a < b)%Qc (b < a)%Qc (a ?= b)%Qc.
Proof.
  destruct (a ?= b)%Qc eqn:E; constructor.
  - now apply Qceq_alt.
  - now apply Qclt_alt.
  - now apply Qcgt_alt.
Qed.

Lemma Qclt_irrefl (a : Qc) : (a < a)%Qc -> False.
Proof. intros H. now apply Qclt_not_eq in H. Qed.

Lemma Qclt_asym (a b : Qc) : (a < b)%Qc -> (b < a)%Qc -> False.
Proof. intros H1 H2. exact (Qclt_irrefl a (Qclt_trans _ _ _ H1 H2)). Qed.

Lemma Qc_eq_bool_false (a b : Qc) : a <> b -> Qc_eq_bool a b = false.
Proof.
  intros Hne. destruct (Qc_eq_bool a b) eqn:E; auto.
  apply Qc_eq_bool_correct in E. contradiction.
Qed.

(** *** Comparisons of finite numbers *)

Lemma finite_inv (x : number) : isFinite x = true -> exists q, x = Fin q.
Proof. destruct x; try discriminate. eauto. Qed.

Lemma ltb_Fin (a b : Qc) : ltb (Fin a) (Fin b) = true <-> (a < b)%Qc.
Proof.
  unfold ltb, cmp. destruct (Qccompare_cases a b) as [->|H|H]; split;
    try discriminate; auto; intros H'; exfalso;
    eauto using Qclt_irrefl, Qclt_asym.
Qed.

Lemma leb_Fin (a b : Qc) : leb (Fin a) (Fin b) = true <-> (a <= b)%Qc.
Proof.
  unfold leb, cmp. destruct (Qccompare_cases a b) as [->|H|H]; split;
    try discriminate; auto using Qcle_refl, Qclt_le_weak.
  intros H'. exfalso. now apply (Qcle_not_lt _ _ H').
Qed.

Lemma ltb_leb (x y : number) : ltb x y = true -> leb x y = true.
Proof. unfold ltb, leb. now destruct (cmp x y) as [[]|]. Qed.

Lemma ltb_false_leb (x y : number) :
  isFinite x = true -> isFinite y = true ->
  ltb x y = false -> leb y x = true.
Proof.
  intros [a ->]%finite_inv [b ->]%finite_inv H.
  apply leb_Fin. apply Qcnot_lt_le. intros Hlt.
  apply ltb_Fin in Hlt. congruence.
Qed.

Lemma leb_trans (x y z : number) :
  isFinite x = true -> isFinite y = true -> isFinite z = true ->
  leb x y = true -> leb y z = true -> leb x z = true.
Proof.
  intros [a ->]%finite_inv [b ->]%finite_inv [c ->]%finite_inv.
  rewrite !leb_Fin. apply Qcle_trans.
Qed.

Lemma gtb_sub_zero (x y : number) :
  isFinite x = true -> isFinite y = true ->
  gtb (sub y x) zero = ltb x y.
Proof.
  intros [a ->]%finite_inv [b ->]%finite_inv.
  unfold gtb, sub, neg, add, zero, ofZ.
  change (Q2Qc (inject_Z 0)) with (Q2Qc 0).
  destruct (ltb (Fin a) (Fin b)) eqn:E.
  - apply ltb_Fin. apply ltb_Fin in E.
    exact (proj1 (Qclt_minus_iff a b) E).
  - destruct (ltb (Fin (Q2Qc 0)) (Fin (b + - a))) eqn:E'; auto.
    apply ltb_Fin in E'. apply (proj2 (Qclt_minus_iff a b)) in E'.
    apply ltb_Fin in E'. congruence.
Qed.

Lemma isFinite_add (x y : number) :
  isFinite x = true -> isFinite y = true -> isFinite (add x y) = true.
Proof. now intros [a ->]%finite_inv [b ->]%finite_inv. Qed.

Lemma isFinite_sum (l : list number) :
  Forall (fun x => isFinite x = true) l -> isFinite (sum l) = true.
Proof.
  induction 1 as [|x l Hx _ IH].
  - reflexivity.
  - rewrite sum_cons. now apply isFinite_add.
Qed.

Lemma orElse_finite (x : number) :
  isFinite x = true -> orElse x zero = x.
Proof.
  intros [a ->]%finite_inv. unfold orElse, truthy.
  destruct (Qc_eq_bool a (Q2Qc 0)) eqn:E; auto.
  apply Qc_eq_bool_correct in E. now subst a.
Qed.

End NumFacts.

(* ================================================================= *)
(** ** Facts about lists *)

Module ListFacts.

Lemma filter_perm {A : Type} (keep : A -> bool) (xs ys : list A) :
  Permutation xs ys -> Permutation (filter keep xs) (filter keep ys).
Proof.
  intros Hperm.
  induction Hperm as [|x xs ys _ IH|x y xs|xs ys zs _ IH1 _ IH2]; simpl.
  - constructor.
  - destruct (keep x); auto.
  - destruct (keep x), (keep y); auto. apply perm_swap.
  - now transitivity (filter keep ys).
Qed.

End ListFacts.

(* ================================================================= *)
(** ** Facts about objects *)

Module ObjFacts.

Section Dict.
Context {V : Type}.
Implicit Types (o : Obj.t V) (k : string) (v : V).

Lemma get_set_same o k v : Obj.get (Obj.set o k v) k = Some v.
Proof.
  induction o as [|[k' v'] o IH]; simpl.
  - now rewrite String.eqb_refl.
  - destruct (String.eqb k k') eqn:E; simpl; rewrite E; auto.
Qed.

Lemma get_set_other o k k' v :
  k' <> k -> Obj.get (Obj.set o k v) k' = Obj.get o k'.
Proof.
  intros Hne. induction o as [|[k0 v0] o IH]; simpl.
  - apply String.eqb_neq in Hne. now rewrite Hne.
  - destruct (String.eqb k k0) eqn:E; simpl.
    + apply String.eqb_eq in E. subst k0.
      apply String.eqb_neq in Hne. now rewrite Hne.
    + now rewrite IH.
Qed.

Lemma get_delete_same o k : Obj.get (Obj.delete o k) k = None.
Proof.
  induction o as [|[k' v'] o IH]; simpl; auto.
  destruct (String.eqb k k') eqn:E; simpl; rewrite ?E; auto.
Qed.

Lemma get_delete_other o k k' :
  k' <> k -> Obj.get (Obj.delete o k) k' = Obj.get o k'.
Proof.
  intros Hne. induction o as [|[k0 v0] o IH]; simpl; auto.
  destruct (String.eqb k k0) eqn:E; simpl.
  - apply String.eqb_eq in E. subst k0.
    apply String.eqb_neq in Hne. now rewrite Hne.
  - now rewrite IH.
Qed.

Lemma get_In o k v : Obj.get o k = Some v -> In (k, v) o.
Proof.
  induction o as [|[k' v'] o IH]; simpl; [discriminate|].
  destruct (String.eqb k k') eqn:E.
  - apply String.eqb_eq in E. intros [= ->]. subst. now left.
  - intros H. right. auto.
Qed.

Lemma get_None o k : Obj.get o k = None <-> ~ In k (map fst o).
Proof.
  induction o as [|[k' v'] o IH]; simpl.
  - tauto.
  - destruct (String.eqb k k') eqn:E.
    + apply String.eqb_eq in E. subst. split; [discriminate|tauto].
    + apply String.eqb_neq in E. rewrite IH. split.
      * intros H [H1|H1]; [now apply E|contradiction].
      * tauto.
Qed.

Lemma get_Some_key o k v : Obj.get o k = Some v -> In k (map fst o).
Proof. intros H. apply get_In in H. now apply (in_map fst) in H. Qed.

Lemma In_get o k v : Obj.wf o -> In (k, v) o -> Obj.get o k = Some v.
Proof.
  unfold Obj.wf. induction o as [|[k' v'] o IH]; simpl; [tauto|].
  intros Hnd [Heq|Hin]; inversion Hnd as [|? ? Hnotin Hnd']; subst.
  - injection Heq as -> ->. now rewrite String.eqb_refl.
  - destruct (String.eqb k k') eqn:E.
    + apply String.eqb_eq in E. subst k'. exfalso. apply Hnotin.
      now apply (in_map fst) in Hin.
    + auto.
Qed.

Lemma set_absent o k v :
  Obj.get o k = None -> Obj.set o k v = (o ++ [(k, v)])%list.
Proof.
  induction o as [|[k' v'] o IH]; simpl; auto.
  destruct (String.eqb k k'); [discriminate|].
  intros H. now rewrite IH.
Qed.

Lemma keys_set_present o k v v' :
  Obj.get o k = Some v' -> map fst (Obj.set o k v) = map fst o.
Proof.
  induction o as [|[k0 v0] o IH]; simpl; [discriminate|].
  destruct (String.eqb k k0) eqn:E; simpl; auto.
  intros H. now rewrite IH.
Qed.

Lemma wf_nil : Obj.wf (@Obj.empty V).
Proof. constructor. Qed.

Lemma wf_set o k v : Obj.wf o -> Obj.wf (Obj.set o k v).
Proof.
  unfold Obj.wf. intros Hwf. destruct (Obj.get o k) as [v'|] eqn:G.
  - now rewrite (keys_set_present _ _ _ _ G).
  - rewrite (set_absent _ _ _ G), map_app. simpl.
    apply NoDup_app; auto.
    + repeat constructor. simpl. tauto.
    + intros x Hx [<-|[]]. apply get_None in G. contradiction.
Qed.

Lemma wf_modify o k f : Obj.wf o -> Obj.wf (Obj.modify o k f).
Proof.
  intros Hwf. unfold Obj.modify. destruct (Obj.get o k); auto using wf_set.
Qed.

Lemma get_modify_same o k f :
  Obj.get (Obj.modify o k f) k = option_map f (Obj.get o k).
Proof.
  unfold Obj.modify. destruct (Obj.get o k) as [v|] eqn:G; simpl.
  - apply get_set_same.
  - exact G.
Qed.

Lemma get_modify_other o k k' f :
  k' <> k -> Obj.get (Obj.modify o k f) k' = Obj.get o k'.
Proof.
  intros Hne. unfold Obj.modify. destruct (Obj.get o k); auto.
  now apply get_set_other.
Qed.

(** Reading back the properties of [o] along a list of its own pairs. *)
Lemma lookup_pairs o (l : list (string * V)) :
  (forall k v, In (k, v) l -> Obj.get o k = Some v) ->
  flat_map (fun k => match Obj.get o k with
                     | Some v => [(k, v)]
                     | None => []
                     end) (map fst l) = l.
Proof.
  induction l as [|[k v] l IH]; simpl; auto.
  intros H. rewrite (H k v) by now left. simpl. f_equal. apply IH.
  intros k' v' Hin. apply H. now right.
Qed.

End Dict.

(** *** Enumeration *)

Lemma insertIndex_perm (n : N) (k : string) (l : list (N * string)) :
  Permutation (Obj.insertIndex n k l) ((n, k) :: l).
Proof.
  induction l as [|[m k'] l IH]; simpl; auto.
  destruct (n <=? m)%N; auto.
  rewrite IH. apply perm_swap.
Qed.

Lemma indexKeys_split (ks : list string) :
  Permutation
    (map snd (Obj.indexKeys ks) ++
       filter (fun k => negb (Obj.isIndex k)) ks)%list ks.
Proof.
  induction ks as [|k ks IH]; simpl; auto.
  unfold Obj.isIndex at 1. destruct (Obj.arrayIndex k) as [n|]; simpl.
  - rewrite (Permutation_map snd (insertIndex_perm n k _)). simpl.
    now constructor.
  - rewrite <- Permutation_middle. now constructor.
Qed.

Lemma ownKeys_perm {V} (o : Obj.t V) :
  Permutation (Obj.ownKeys o) (map fst o).
Proof. apply indexKeys_split. Qed.

Lemma entries_perm {V} (o : Obj.t V) :
  Obj.wf o -> Permutation (Obj.entries o) o.
Proof.
  intros Hwf. unfold Obj.entries.
  rewrite (Permutation_flat_map _ (ownKeys_perm o)).
  rewrite lookup_pairs; auto.
  intros k v. now apply In_get.
Qed.


(** Array-index keys come first, in numeric order; the other keys keep
    their insertion order. *)
Example ownKeys_order :
  Obj.ownKeys [("b", 1); ("10", 2); ("a", 3); ("2", 4); ("01", 5)]%nat =
  ["2"; "10"; "b"; "a"; "01"].
Proof. reflexivity. Qed.

End ObjFacts.

(* ================================================================= *)
(** ** Facts about the sort *)

Module ArrFacts.

Import Vocab NumFacts.

Section Sort.
Context {A : Type} (comparator : A -> A -> number).

Lemma insert_perm (x : A) (l : list A) :
  Permutation (Arr.insert comparator x l) (x :: l).
Proof.
  induction l as [|y l IH]; simpl; auto.
  destruct (gtb (comparator x y) zero); auto.
  rewrite IH. apply perm_swap.
Qed.

Lemma sort_perm (l : list A) : Permutation (Arr.sort comparator l) l.
Proof.
  induction l as [|x l IH]; simpl; auto.
  rewrite insert_perm. now constructor.
Qed.

Lemma In_sort (l : list A) (x : A) :
  In x (Arr.sort comparator l) <-> In x l.
Proof.
  split; apply Permutation_in; [|symmetry]; apply sort_perm.
Qed.

(** A comparator that never returns a positive number leaves the array as
    it is. *)
Lemma sort_no_positive (l : list A) :
  (forall x y, In x l -> In y l -> gtb (comparator x y) zero = false) ->
  Arr.sort comparator l = l.
Proof.
  induction l as [|x l IH]; simpl; auto.
  intros H. rewrite IH by (intros; apply H; auto).
  destruct l as [|y l]; simpl; auto.
  rewrite H; auto. right. now left.
Qed.

End Sort.

Section ByKey.
Context {A : Type} (key : A -> number).

Let byKey (a b : A) : number := sub (key b) (key a).

Lemma insert_descending (x : A) (l : list A) :
  isFinite (key x) = true ->
  Forall (fun a => isFinite (key a) = true) l ->
  StronglySorted (descendingBy key) l ->
  StronglySorted (descendingBy key) (Arr.insert byKey x l).
Proof.
  intros Hx Hfin Hs. induction Hs as [|y l Hs IH Hy]; simpl.
  - repeat constructor.
  - inversion Hfin as [|? ? Hfy Hfl]; subst.
    unfold byKey at 1. rewrite gtb_sub_zero by assumption.
    destruct (ltb (key x) (key y)) eqn:E.
    + constructor; auto.
      apply Forall_forall. intros z Hz.
      apply (Permutation_in _ (insert_perm byKey x l)) in Hz.
      destruct Hz as [<-|Hz].
      * unfold descendingBy, geb. now apply ltb_leb.
      * rewrite Forall_forall in Hy. auto.
    + assert (Hxy : descendingBy key x y).
      { unfold descendingBy, geb. now apply ltb_false_leb. }
      constructor; [now constructor|].
      constructor; auto.
      rewrite Forall_forall in Hy, Hfl |- *. intros z Hz.
      unfold descendingBy, geb in *.
      apply (leb_trans _ (key y)); auto.
Qed.

Lemma sort_descending (l : list A) :
  Forall (fun a => isFinite (key a) = true) l ->
  StronglySorted (descendingBy key) (Arr.sort byKey l).
Proof.
  induction 1 as [|x l Hx Hl IH]; simpl.
  - constructor.
  - apply insert_descending; auto.
    rewrite Forall_forall in Hl |- *. intros z Hz. apply Hl.
    now apply In_sort in Hz.
Qed.

End ByKey.

End ArrFacts.

(* ================================================================= *)
(** ** Facts about dates *)

Module DateFacts.

Import JsDate App Sample Vocab.
Local Open Scope Z_scope.

(** *** The calendar conversions *)

Lemma daysInMonth_cases (y m d : Z) :
  1 <= m <= 12 -> 1 <= d <= daysInMonth y m ->
  d <= 28 \/
  (d = 29 /\
   (m <> 2 \/ (y mod 4 = 0 /\ y mod 100 <> 0) \/ y mod 400 = 0)) \/
  (d = 30 /\ m <> 2) \/
  (d = 31 /\ m <> 2 /\ m <> 4 /\ m <> 6 /\ m <> 9 /\ m <> 11).
Proof.
  unfold daysInMonth, isLeap. intros Hm.
  destruct (Z.eqb_spec m 2); destruct (Z.eqb_spec m 4);
    destruct (Z.eqb_spec m 6); destruct (Z.eqb_spec m 9);
    destruct (Z.eqb_spec m 11); destruct (Z.eqb_spec (y mod 4) 0);
    destruct (Z.eqb_spec (y mod 100) 0);
    destruct (Z.eqb_spec (y mod 400) 0); simpl; lia.
Qed.

(** The year of the era is recovered from the day of the era. *)
Lemma year_of_era (yoe doy : Z) :
  0 <= yoe < 400 -> 0 <= doy ->
  doy <= 364 \/
  (doy = 365 /\
   (((yoe + 1) mod 4 = 0 /\ (yoe + 1) mod 100 <> 0) \/
    (yoe + 1) mod 400 = 0)) ->
  let doe := yoe * 365 + yoe / 4 - yoe / 100 + doy in
  0 <= doe < 146097 /\
  (doe - doe / 1460 + doe / 36524 - doe / 146096) / 365 = yoe.
Proof.
  intros Hy Hd Hleap doe. subst doe.
  Z.div_mod_to_equations. lia.
Qed.

(** The month and the day are recovered from the day of the year. *)
Lemma month_of_year (m d : Z) :
  1 <= m <= 12 -> 1 <= d <= 31 ->
  (m = 2 -> d <= 29) ->
  (m = 4 \/ m = 6 \/ m = 9 \/ m = 11 -> d <= 30) ->
  let mp := if 2 <? m then m - 3 else m + 9 in
  let doy := (153 * mp + 2) / 5 + d - 1 in
  0 <= doy <= 365 /\ (doy = 365 -> m = 2 /\ d = 29) /\
  (5 * doy + 2) / 153 = mp /\
  doy - (153 * mp + 2) / 5 + 1 = d /\
  (if mp <? 10 then mp + 3 else mp - 9) = m.
Proof.
  intros Hm Hd H2 H30.
  assert (Cm : m = 1 \/ m = 2 \/ m = 3 \/ m = 4 \/ m = 5 \/ m = 6 \/
               m = 7 \/ m = 8 \/ m = 9 \/ m = 10 \/ m = 11 \/ m = 12) by lia.
  repeat (destruct Cm as [->|Cm]); try subst m; cbn -[Z.div Z.mul Z.add];
    repeat split; try (Z.div_mod_to_equations; lia).
Qed.

Lemma roundTrip_era (yoe m d : Z) :
  0 <= yoe < 400 -> 1 <= m <= 12 ->
  1 <= d <= daysInMonth (yoe + (if m <=? 2 then 1 else 0)) m ->
  0 <= dayOfEra yoe m d < 146097 /\
  civilFromDays (dayOfEra yoe m d - 719468) =
    (yoe + (if m <=? 2 then 1 else 0), m, d).
Proof.
  intros Hy Hm Hd.
  pose proof (daysInMonth_cases _ m d Hm Hd) as Hc.
  destruct (month_of_year m d) as (Hdoy & H365 & Hmp & Hd' & Hm');
    try lia.
  unfold dayOfEra, civilFromDays. cbv zeta.
  set (mp := if 2 <? m then m - 3 else m + 9) in *.
  set (doy := (153 * mp + 2) / 5 + d - 1) in *.
  destruct (year_of_era yoe doy) as [Hdoe Hyoe]; try lia.
  { destruct (Z.leb_spec m 2); lia. }
  set (doe := yoe * 365 + yoe / 4 - yoe / 100 + doy) in *.
  split; [exact Hdoe|].
  replace (doe - 719468 + 719468) with doe by lia.
  rewrite (Z.div_small doe 146097) by lia.
  replace (doe - 0 * 146097) with doe by lia.
  rewrite Hyoe.
  replace (doe - (365 * yoe + yoe / 4 - yoe / 100)) with doy
    by (unfold doe; lia).
  rewrite Hmp, Hd', Hm'.
  f_equal. f_equal. destruct (m <=? 2); lia.
Qed.

Lemma isLeap_era (era r : Z) : isLeap (era * 400 + r) = isLeap r.
Proof.
  unfold isLeap.
  replace ((era * 400 + r) mod 4) with (r mod 4)
    by (rewrite <- (Z.mod_add r (era * 100) 4); [f_equal|]; lia).
  replace ((era * 400 + r) mod 100) with (r mod 100)
    by (rewrite <- (Z.mod_add r (era * 4) 100); [f_equal|]; lia).
  replace ((era * 400 + r) mod 400) with (r mod 400)
    by (rewrite <- (Z.mod_add r era 400); [f_equal|]; lia).
  reflexivity.
Qed.

Lemma civilFromDays_era (era doe : Z) :
  0 <= doe < 146097 ->
  civilFromDays (era * 146097 + doe - 719468) =
  let '(y, m, d) := civilFromDays (doe - 719468) in (y + era * 400, m, d).
Proof.
  intros Hdoe. unfold civilFromDays.
  replace (era * 146097 + doe - 719468 + 719468) with (era * 146097 + doe)
    by lia.
  replace (doe - 719468 + 719468) with doe by lia.
  rewrite Z.div_add_l by lia.
  rewrite (Z.div_small doe 146097) by lia.
  replace (era * 146097 + doe - (era + 0) * 146097) with doe by lia.
  replace (doe - 0 * 146097) with doe by lia.
  cbv zeta.
  match goal with |- context [if ?b then _ else _] => destruct b end;
    f_equal; f_equal; lia.
Qed.

Lemma daysFromCivil_era (y m d : Z) :
  let y' := if m <=? 2 then y - 1 else y in
  daysFromCivil y m d =
  (y' / 400) * 146097 + dayOfEra (y' mod 400) m d - 719468.
Proof.
  cbv zeta. unfold daysFromCivil, dayOfEra. cbv zeta.
  rewrite Z.mod_eq by lia.
  replace (400 * ((if m <=? 2 then y - 1 else y) / 400)) with
    ((if m <=? 2 then y - 1 else y) / 400 * 400) by lia.
  reflexivity.
Qed.

(** [civilFromDays] undoes [daysFromCivil] on every date that exists. *)
Lemma civil_round_trip (y m d : Z) :
  1 <= m <= 12 -> 1 <= d <= daysInMonth y m ->
  civilFromDays (daysFromCivil y m d) = (y, m, d).
Proof.
  intros Hm Hd.
  pose proof (daysFromCivil_era y m d) as Hdays. cbv zeta in Hdays.
  set (c := if m <=? 2 then 1 else 0).
  set (y' := if m <=? 2 then y - 1 else y) in *.
  assert (Hy : y = (y' / 400) * 400 + (y' mod 400 + c)).
  { pose proof (Z.div_mod y' 400 ltac:(lia)).
    unfold y', c in *. destruct (m <=? 2); lia. }
  assert (Hdim : daysInMonth y m = daysInMonth (y' mod 400 + c) m).
  { unfold daysInMonth. rewrite Hy at 1. now rewrite isLeap_era. }
  destruct (roundTrip_era (y' mod 400) m d) as [Hdoe Hciv].
  - apply Z.mod_pos_bound. lia.
  - exact Hm.
  - fold c. now rewrite <- Hdim.
  - rewrite Hdays, civilFromDays_era by exact Hdoe.
    rewrite Hciv. fold c. f_equal. f_equal. lia.
Qed.

(** *** Dates of the entry form in local time *)

Lemma parseIsoDate_valid (s : string) (y m d : Z) :
  parseIsoDate s = Some (y, m, d) ->
  1 <= m <= 12 /\ 1 <= d <= daysInMonth y m.
Proof.
  unfold parseIsoDate.
  destruct (list_ascii_of_string s)
    as [|y1 [|y2 [|y3 [|y4 [|s1 [|m1 [|m2 [|s2 [|d1 [|d2 [|? ?]]]]]]]]]]];
    try discriminate.
  destruct (Ascii.eqb s1 "-" && Ascii.eqb s2 "-")%bool; [|discriminate].
  destruct (digitsZ [y1; y2; y3; y4] 0) as [y0|]; [|discriminate].
  destruct (digitsZ [m1; m2] 0) as [m0|]; [|discriminate].
  destruct (digitsZ [d1; d2] 0) as [d0|]; [|discriminate].
  destruct ((1 <=? m0) && (m0 <=? 12) && (1 <=? d0) &&
            (d0 <=? daysInMonth y0 m0))%bool eqn:E; [|discriminate].
  intros [= <- <- <-]. rewrite !andb_true_iff in E. lia.
Qed.

(** At or east of UTC, and less than a day ahead, midnight UTC of a date is
    the same local date. *)
Lemma localFields_date (h : Host) (y m d : Z) :
  0 <= utcOffsetMinutes h < 1440 ->
  1 <= m <= 12 -> 1 <= d <= daysInMonth y m ->
  localFields h (daysFromCivil y m d * msPerDay) = (y, m, d).
Proof.
  intros Hoff Hm Hd. unfold localFields, msPerDay, msPerMinute.
  rewrite Z.div_add_l by lia.
  rewrite (Z.div_small (utcOffsetMinutes h * 60000)) by lia.
  rewrite Z.add_0_r. now apply civil_round_trip.
Qed.

(** *** The labels of the months *)

Lemma showZ_inj (a b : Z) : 0 <= a -> 0 <= b -> showZ a = showZ b -> a = b.
Proof.
  unfold showZ. intros Ha Hb H.
  apply (f_equal NilEmpty.uint_of_string) in H.
  rewrite !NilEmpty.usu in H. injection H as H.
  apply DecimalN.Unsigned.to_uint_inj in H. lia.
Qed.

Lemma label_inj (m1 m2 : Z) (s1 s2 : string) :
  1 <= m1 <= 12 -> 1 <= m2 <= 12 ->
  monthShort m1 ++ " " ++ s1 = monthShort m2 ++ " " ++ s2 ->
  m1 = m2 /\ s1 = s2.
Proof.
  intros H1 H2.
  assert (C1 : m1 = 1 \/ m1 = 2 \/ m1 = 3 \/ m1 = 4 \/ m1 = 5 \/ m1 = 6 \/
               m1 = 7 \/ m1 = 8 \/ m1 = 9 \/ m1 = 10 \/ m1 = 11 \/ m1 = 12)
    by lia.
  assert (C2 : m2 = 1 \/ m2 = 2 \/ m2 = 3 \/ m2 = 4 \/ m2 = 5 \/ m2 = 6 \/
               m2 = 7 \/ m2 = 8 \/ m2 = 9 \/ m2 = 10 \/ m2 = 11 \/ m2 = 12)
    by lia.
  repeat (destruct C1 as [->|C1]); try subst m1;
    repeat (destruct C2 as [->|C2]); try subst m2;
    simpl; intros E; first [discriminate E | split; [reflexivity|]];
    now repeat injection E as E.
Qed.

Lemma monthKey_date (h : Host) (tx : Transaction) (y m d : Z) :
  0 <= utcOffsetMinutes h < 1440 ->
  parseIsoDate (date tx) = Some (y, m, d) -> 0 < y ->
  monthKey h tx = monthShort m ++ " " ++ showZ y.
Proof.
  intros Hoff Hparse Hy.
  destruct (parseIsoDate_valid _ _ _ _ Hparse) as [Hm Hd].
  unfold monthKey, ofString, toLocaleMonthYear. rewrite Hparse.
  rewrite localFields_date by assumption.
  destruct (y <=? 0) eqn:E; [lia|reflexivity].
Qed.

(** X23. At or east of UTC the key of the monthly series is the year and
    the month of the date field: two transactions dated in years of the
    common era share a bucket exactly when their dates have the same year
    and the same month. *)
Lemma month_key_east_of_utc (h : Host) (t1 t2 : Transaction)
  (y1 m1 d1 y2 m2 d2 : Z) :
  0 <= utcOffsetMinutes h < 1440 ->
  parseIsoDate (date t1) = Some (y1, m1, d1) -> 0 < y1 ->
  parseIsoDate (date t2) = Some (y2, m2, d2) -> 0 < y2 ->
  monthKey h t1 = monthKey h t2 <-> y1 = y2 /\ m1 = m2.
Proof.
  intros Hoff P1 Hy1 P2 Hy2.
  rewrite (monthKey_date h t1 y1 m1 d1), (monthKey_date h t2 y2 m2 d2)
    by assumption.
  destruct (parseIsoDate_valid _ _ _ _ P1) as [Hm1 _].
  destruct (parseIsoDate_valid _ _ _ _ P2) as [Hm2 _].
  split.
  - intros E. apply label_inj in E; try assumption.
    destruct E as [-> E]. apply showZ_inj in E; lia.
  - now intros [-> ->].
Qed.

Lemma month_key_east_of_utc_witness :
  monthKey (strictHost cairo mid_march_2024)
    (tx EXPENSE "food" 10 "2024-03-01") =
  monthKey (strictHost cairo mid_march_2024)
    (tx EXPENSE "food" 20 "2024-03-15") <->
  2024 = 2024 /\ 3 = 3.
Proof.
  apply (month_key_east_of_utc (strictHost cairo mid_march_2024)
           (tx EXPENSE "food" 10 "2024-03-01")
           (tx EXPENSE "food" 20 "2024-03-15") 2024 3 1 2024 3 15).
  - simpl. unfold cairo. lia.
  - reflexivity.
  - lia.
  - reflexivity.
  - lia.
Defined.

(** *** Labels are not ISO dates *)

Lemma monthShort_head (m : Z) :
  exists c s, monthShort m = String c s /\ digitZ c = None.
Proof.
  unfold monthShort.
  destruct m as [|p|p]; try (do 2 eexists; split; reflexivity).
  do 4 (try destruct p as [p|p|]);
    do 2 eexists; split; reflexivity.
Qed.

Lemma parseIsoDate_head (c : ascii) (s : string) :
  digitZ c = None -> parseIsoDate (String c s) = None.
Proof.
  intros Hc. unfold parseIsoDate. simpl list_ascii_of_string.
  destruct (list_ascii_of_string s)
    as [|y2 [|y3 [|y4 [|s1 [|m1 [|m2 [|s2 [|d1 [|d2 [|? ?]]]]]]]]]];
    try reflexivity.
  destruct (Ascii.eqb s1 "-" && Ascii.eqb s2 "-")%bool; [|reflexivity].
  simpl digitsZ. now rewrite Hc.
Qed.

Lemma label_not_iso (h : Host) (d : Date) :
  parseIsoDate (toLocaleMonthYear h d) = None.
Proof.
  destruct d as [t|]; [|reflexivity].
  unfold toLocaleMonthYear. destruct (localFields h t) as [[y m] dd].
  destruct (monthShort_head m) as (c & s & -> & Hc).
  simpl. now apply parseIsoDate_head.
Qed.

(** *** The model on known dates *)

Example epoch_day : civilFromDays 0 = (1970, 1, 1).
Proof. reflexivity. Qed.

Example leap_day_2024 :
  civilFromDays (daysFromCivil 2024 2 28 + 1) = (2024, 2, 29) /\
  civilFromDays (daysFromCivil 2023 2 28 + 1) = (2023, 3, 1) /\
  civilFromDays (daysFromCivil 1900 2 28 + 1) = (1900, 3, 1) /\
  civilFromDays (daysFromCivil 2000 2 28 + 1) = (2000, 2, 29).
Proof. repeat split. Qed.

(** 2024-03-01T00:00Z is 1709251200 seconds after the epoch. *)
Example first_of_march_2024 :
  ofString (strictHost cairo 0) "2024-03-01" = Some 1709251200000.
Proof. reflexivity. Qed.

Example not_a_date :
  parseIsoDate "2024-02-30" = None /\ parseIsoDate "2024-3-01" = None /\
  parseIsoDate "مارس 2024" = None.
Proof. repeat split. Qed.

(** In Cairo the first of March is in March; in New York midnight UTC of
    the first of March is still the 29th of February. *)
Example local_first_of_march :
  localFields (strictHost cairo 0) 1709251200000 = (2024, 3, 1) /\
  localFields (strictHost new_york 0) 1709251200000 = (2024, 2, 29).
Proof. split; reflexivity. Qed.

(** The lenient engine reads the label of March 2024 as the local midnight
    of 1 January 2024. *)
Example lenient_label :
  lenientParse cairo "مارس 2024" =
    Some (daysFromCivil 2024 1 1 * msPerDay - cairo * msPerMinute) /\
  lenientParse cairo "Invalid Date" = None.
Proof. split; reflexivity. Qed.

End DateFacts.

(* ================================================================= *)
(** ** [calculateTotals] *)

Module TotalsFacts.

Import App Vocab NumFacts.

Lemma totals_snoc (l : list Transaction) (tx : Transaction) :
  calculateTotals (l ++ [tx]) = totalsStep (calculateTotals l) tx.
Proof. unfold calculateTotals. now rewrite fold_left_app. Qed.

Lemma incomeAmounts_snoc l tx :
  incomeAmounts (l ++ [tx]) =
  (incomeAmounts l ++ if isIncome (tx_type tx) then [amount tx] else [])%list.
Proof.
  unfold incomeAmounts. rewrite filter_app, map_app. simpl.
  now destruct (isIncome (tx_type tx)).
Qed.

Lemma expenseAmounts_snoc l tx :
  expenseAmounts (l ++ [tx]) =
  (expenseAmounts l ++ if isExpense (tx_type tx) then [amount tx] else [])%list.
Proof.
  unfold expenseAmounts. rewrite filter_app, map_app. simpl.
  now destruct (isExpense (tx_type tx)).
Qed.

Lemma totals_sums (l : list Transaction) :
  income (calculateTotals l) = sum (incomeAmounts l) /\
  expense (calculateTotals l) = sum (expenseAmounts l) /\
  balance (calculateTotals l) =
    sub (income (calculateTotals l)) (expense (calculateTotals l)).
Proof.
  induction l as [|tx l IH] using rev_ind.
  - repeat split.
  - destruct IH as (Hi & He & _).
    rewrite totals_snoc, incomeAmounts_snoc, expenseAmounts_snoc.
    unfold totalsStep.
    destruct (tx_type tx); cbn [isIncome isExpense income expense balance];
      rewrite ?app_nil_r, ?sum_snoc, Hi, He; repeat split.
Qed.

(** C1. [calculateTotals] returns the sum of the amounts of the INCOME
    transactions as [income], the sum of the amounts of the EXPENSE
    transactions as [expense], and [income - expense] as [balance]; on the
    empty collection the three are [0]. *)
Theorem calculateTotals_spec :
  (forall transactions : list Transaction,
      income (calculateTotals transactions) =
        sum (incomeAmounts transactions) /\
      expense (calculateTotals transactions) =
        sum (expenseAmounts transactions) /\
      balance (calculateTotals transactions) =
        sub (income (calculateTotals transactions))
            (expense (calculateTotals transactions))) /\
  calculateTotals [] = {| income := zero; expense := zero; balance := zero |}.
Proof.
  split.
  - apply totals_sums.
  - reflexivity.
Qed.

End TotalsFacts.

(* ================================================================= *)
(** ** Spending per category *)

Module SpendFacts.

Import JsDate App Sample Vocab NumFacts ObjFacts.

Lemma spending_snoc (l : list Transaction) (tx : Transaction) :
  spending (l ++ [tx]) = spendStep (spending l) tx.
Proof. unfold spending. now rewrite fold_left_app. Qed.

Lemma spentOn_snoc (l : list Transaction) (tx : Transaction) (k : string) :
  spentOn (l ++ [tx]) k =
  if String.eqb (categoryId tx) k then add (spentOn l k) (amount tx)
  else spentOn l k.
Proof.
  unfold spentOn. rewrite filter_app. simpl.
  destruct (String.eqb (categoryId tx) k).
  - rewrite map_app. simpl. now rewrite sum_snoc.
  - now rewrite app_nil_r.
Qed.

Lemma spentOn_absent (l : list Transaction) (k : string) :
  existsb (fun tx => String.eqb (categoryId tx) k) l = false ->
  spentOn l k = zero.
Proof.
  unfold spentOn. induction l as [|tx l IH]; simpl; auto.
  destruct (String.eqb (categoryId tx) k); simpl; [discriminate|auto].
Qed.

Lemma spentOn_finite (l : list Transaction) (k : string) :
  Forall finiteAmount l -> isFinite (spentOn l k) = true.
Proof.
  intros H. apply isFinite_sum. apply Forall_map.
  apply Forall_forall. intros tx [Hin _]%filter_In.
  rewrite Forall_forall in H. now apply H.
Qed.

(** The object built by the reduction holds, under each category id that
    occurs, the sum of the amounts recorded under it. *)
Lemma get_spending (l : list Transaction) :
  Forall finiteAmount l ->
  forall k,
    Obj.get (spending l) k =
    if existsb (fun tx => String.eqb (categoryId tx) k) l
    then Some (spentOn l k) else None.
Proof.
  induction l as [|tx l IH] using rev_ind; intros Hfin k.
  - reflexivity.
  - apply Forall_app in Hfin. destruct Hfin as [Hl Htx].
    specialize (IH Hl).
    rewrite spending_snoc, spentOn_snoc, existsb_app. simpl.
    rewrite orb_false_r. unfold spendStep.
    destruct (String.eqb (categoryId tx) k) eqn:E.
    + apply String.eqb_eq in E. subst k.
      rewrite get_set_same, orb_true_r. f_equal. f_equal.
      unfold getOr0. rewrite IH.
      destruct (existsb _ l) eqn:Ex.
      * apply orElse_finite. now apply spentOn_finite.
      * symmetry. now apply spentOn_absent.
    + rewrite get_set_other, orb_false_r; [apply IH|].
      intros ->. now rewrite String.eqb_refl in E.
Qed.

Lemma getOr0_spending (l : list Transaction) (k : string) :
  Forall finiteAmount l -> getOr0 (spending l) k = spentOn l k.
Proof.
  intros Hfin. unfold getOr0. rewrite get_spending by assumption.
  destruct (existsb _ l) eqn:Ex.
  - apply orElse_finite. now apply spentOn_finite.
  - symmetry. now apply spentOn_absent.
Qed.

Lemma wf_spending (l : list Transaction) : Obj.wf (spending l).
Proof.
  induction l as [|tx l IH] using rev_ind.
  - apply wf_nil.
  - rewrite spending_snoc. now apply wf_set.
Qed.

End SpendFacts.

(* ================================================================= *)
(** ** The budget store *)

Module BudgetStoreFacts.

Import JsDate App Sample Vocab NumFacts ObjFacts.

(** A row is produced only for a limit that is greater than zero. *)
Lemma budgetRow_guard (limit : number) :
  negb (truthy limit) || leb limit zero = negb (ltb zero limit).
Proof.
  destruct limit as [q| | |]; try reflexivity.
  unfold truthy, leb, ltb, cmp, zero, ofZ.
  change (Q2Qc (inject_Z 0)) with (Q2Qc 0).
  destruct (Qccompare_cases q (Q2Qc 0)) as [Heq|Hlt|Hgt];
    destruct (Qccompare_cases (Q2Qc 0) q) as [Heq'|Hlt'|Hgt'];
    subst; try reflexivity;
    try (exfalso; eauto using Qclt_asym, Qclt_irrefl; fail);
    try (now rewrite orb_true_r).
  rewrite Qc_eq_bool_false; auto.
  intros ->. eapply Qclt_irrefl; eassumption.
Qed.

(** C10, as the code has it. [setBudget] with the amount [0] removes the
    entry of the category; with a negative amount it returns at once and
    the stored configuration is unchanged, so an entry that was present
    stays; the budget status has no row for an entry whose value is not
    greater than zero. *)
Theorem setBudget_zero_removes_negative_ignored :
  (forall (categoryId : string) (prev : Obj.t number),
      Obj.get (setBudget categoryId zero prev) categoryId = None) /\
  (forall (categoryId : string) (amount : number) (prev : Obj.t number),
      ltb amount zero = true -> setBudget categoryId amount prev = prev) /\
  (forall (budgets spent : Obj.t number) (categoryId : string)
          (limit : number),
      Obj.get budgets categoryId = Some limit ->
      leb limit zero = true ->
      budgetRow budgets spent categoryId = None).
Proof.
  repeat split.
  - intros categoryId prev. unfold setBudget.
    change (ltb zero zero) with false. change (strictEq zero zero) with true.
    cbn iota. apply get_delete_same.
  - intros categoryId amount prev Hneg. unfold setBudget. now rewrite Hneg.
  - intros budgets spent categoryId limit Hget Hle. unfold budgetRow.
    rewrite Hget, Hle. now rewrite orb_true_r.
Qed.

Lemma setBudget_zero_removes_negative_ignored_witness :
  Obj.get (setBudget "food" zero food1000) "food" = None /\
  setBudget "food" (ofZ (-5)) food1000 = food1000 /\
  budgetRow [("food", ofZ (-5))] [] "food" = None.
Proof.
  destruct setBudget_zero_removes_negative_ignored as (H0 & Hneg & Hrow).
  split; [apply H0|].
  split; [apply Hneg; reflexivity|].
  apply (Hrow _ _ _ (ofZ (-5))); reflexivity.
Defined.

(** The claim C10 as stated fails: after [setBudget "food" (-5)] the entry
    of food is still there. *)
Lemma setBudget_negative_keeps_entry :
  leb (ofZ (-5)) zero = true /\
  Obj.get (setBudget "food" (ofZ (-5)) food1000) "food" = Some (ofZ 1000).
Proof. split; reflexivity. Qed.

End BudgetStoreFacts.

(* ================================================================= *)
(** ** The budget status *)

Module BudgetFacts.

Import JsDate App Sample Vocab NumFacts ListFacts ObjFacts ArrFacts.
Import SpendFacts.
Import BudgetStoreFacts.

Section Rows.
Variables (budgets spent : Obj.t number).

Lemma budgetRow_Some (k : string) (r : BudgetRow) :
  budgetRow budgets spent k = Some r ->
  exists limit,
    Obj.get budgets k = Some limit /\ ltb zero limit = true /\
    bs_categoryId r = k /\ budgetAmount r = limit /\
    spentAmount r = getOr0 spent k /\
    percentage r = mul (div (getOr0 spent k) limit) (ofZ 100) /\
    remaining r = sub limit (getOr0 spent k).
Proof.
  unfold budgetRow. destruct (Obj.get budgets k) as [limit|]; [|discriminate].
  rewrite budgetRow_guard. destruct (ltb zero limit) eqn:E; [|discriminate].
  simpl. intros [= <-]. exists limit. simpl. repeat split. exact E.
Qed.

Lemma budgetRow_is_Some (k : string) :
  limitPositive budgets k = true ->
  exists r, budgetRow budgets spent k = Some r.
Proof.
  unfold limitPositive, budgetRow.
  destruct (Obj.get budgets k) as [limit|]; [|discriminate].
  rewrite budgetRow_guard. intros ->. simpl. eauto.
Qed.

Lemma budgetRow_None (k : string) :
  limitPositive budgets k = false -> budgetRow budgets spent k = None.
Proof.
  unfold limitPositive, budgetRow.
  destruct (Obj.get budgets k) as [limit|]; auto.
  rewrite budgetRow_guard. now intros ->.
Qed.

Lemma rows_ids (ks : list string) :
  map bs_categoryId (nonNull (map (budgetRow budgets spent) ks)) =
  filter (limitPositive budgets) ks.
Proof.
  unfold nonNull. induction ks as [|k ks IH]; simpl; auto.
  destruct (limitPositive budgets k) eqn:E.
  - destruct (budgetRow_is_Some k E) as [r Hr]. rewrite Hr. simpl.
    apply budgetRow_Some in Hr.
    destruct Hr as (limit & _ & _ & -> & _). now rewrite IH.
  - now rewrite (budgetRow_None k E).
Qed.

Lemma In_rows (ks : list string) (r : BudgetRow) :
  In r (nonNull (map (budgetRow budgets spent) ks)) ->
  budgetRow budgets spent (bs_categoryId r) = Some r.
Proof.
  unfold nonNull. rewrite in_flat_map. intros (item & Hitem & Hr).
  apply in_map_iff in Hitem. destruct Hitem as (k & <- & _).
  destruct (budgetRow budgets spent k) as [r'|] eqn:E; simpl in Hr;
    [|contradiction].
  destruct Hr as [<-|[]].
  pose proof (budgetRow_Some k r' E) as (limit & _ & _ & Hid & _).
  now rewrite Hid.
Qed.

End Rows.

Lemma percentage_finite (s limit : number) :
  isFinite s = true -> ltb zero limit = true ->
  isFinite (mul (div s limit) (ofZ 100)) = true.
Proof.
  intros [a ->]%finite_inv Hpos.
  destruct limit as [q| | |]; try discriminate; try reflexivity.
  unfold div. destruct (Qc_eq_bool q (Q2Qc 0)) eqn:E; [|reflexivity].
  apply Qc_eq_bool_correct in E. subst q. discriminate.
Qed.

Lemma eighty_percent :
  mul (div (ofZ 800) (ofZ 1000)) (ofZ 100) = ofZ 80 /\
  sub (ofZ 1000) (ofZ 800) = ofZ 200.
Proof. split; apply Fin_canon; reflexivity. Qed.

Section Status.
Variables (h : Host) (transactions : list Transaction)
          (budgets : Obj.t number).
Hypothesis finite : Forall finiteAmount transactions.

Let rows := budgetStatus h transactions budgets.
Let spent := spending (currentMonthExpenses h transactions).
Let unsorted :=
  nonNull (map (budgetRow budgets spent) (Obj.ownKeys budgets)).

Lemma rows_perm : Permutation rows unsorted.
Proof. apply sort_perm. Qed.

Lemma finite_current :
  Forall finiteAmount (currentMonthExpenses h transactions).
Proof.
  apply Forall_forall. intros tx [Hin _]%filter_In.
  rewrite Forall_forall in finite. auto.
Qed.

(** A row carries the limit of its category, the sum of the amounts of
    the expenses that passed the month filter of the code, the percentage
    and what remains. *)
Lemma row_matches (r : BudgetRow) :
  In r rows ->
  exists limit : number,
    Obj.get budgets (bs_categoryId r) = Some limit /\
    ltb zero limit = true /\
    budgetAmount r = limit /\
    spentAmount r =
      spentOn (currentMonthExpenses h transactions) (bs_categoryId r) /\
    percentage r = mul (div (spentAmount r) limit) (ofZ 100) /\
    remaining r = sub limit (spentAmount r).
Proof.
  intros Hin. apply (Permutation_in _ rows_perm) in Hin.
  apply In_rows in Hin. apply budgetRow_Some in Hin.
  destruct Hin as (limit & Hget & Hpos & _ & Hb & Hs & Hp & Hr).
  unfold spent in Hs, Hp, Hr.
  rewrite getOr0_spending in Hs, Hp, Hr by apply finite_current.
  exists limit. rewrite Hs. auto 10.
Qed.

Lemma row_percentage_finite (r : BudgetRow) :
  In r rows -> isFinite (percentage r) = true.
Proof.
  intros Hin.
  destruct (row_matches r Hin) as (limit & _ & Hpos & _ & Hs & -> & _).
  apply percentage_finite; auto. rewrite Hs.
  apply spentOn_finite, finite_current.
Qed.

Lemma rows_sorted : StronglySorted (descendingBy percentage) rows.
Proof.
  apply (sort_descending percentage).
  apply Forall_forall. intros r Hin. apply row_percentage_finite.
  now apply (Permutation_in _ (Permutation_sym rows_perm)).
Qed.

Lemma rows_ids_perm :
  Permutation (map bs_categoryId rows)
    (filter (limitPositive budgets) (map fst budgets)).
Proof.
  rewrite (Permutation_map bs_categoryId rows_perm).
  unfold unsorted. rewrite rows_ids.
  apply filter_perm, ownKeys_perm.
Qed.

End Status.

(** C5 at the failing input. On a host five hours west of UTC whose clock
    reads 15 March 2024, whatever its fallback parser, with a budget of
    1000 on food and expenses on food of 500 dated 2024-03-01 and of 800
    dated 2024-04-01: the expense of the current calendar month is the one
    of 500, but the row of food reports 800 spent, 80 percent used and 200
    remaining, the expense dated in April being counted and the one dated
    in March left out. *)
Theorem budgetStatus_west_of_utc :
  forall parse : string -> option Z,
    let h := {| utcOffsetMinutes := new_york; clock := mid_march_2024;
                parseOther := parse |} in
    localFields h (clock h) = (2024, 3, 15)%Z /\
    map date (calendarMonthExpenses h first_of_march_and_april) =
      ["2024-03-01"] /\
    calendarSpent h first_of_march_and_april "food" = ofZ 500 /\
    map date (currentMonthExpenses h first_of_march_and_april) =
      ["2024-04-01"] /\
    map spentAmount (budgetStatus h first_of_march_and_april food1000) =
      [ofZ 800] /\
    map percentage (budgetStatus h first_of_march_and_april food1000) =
      [ofZ 80] /\
    map remaining (budgetStatus h first_of_march_and_april food1000) =
      [ofZ 200].
Proof.
  intros parse. repeat split; vm_compute; num_eq.
Qed.

(** On the sample data the rows are food (80 percent) then bills (20
    percent), and food is the only alert. *)
Example budgetStatus_sample :
  let rows :=
    budgetStatus (strictHost cairo mid_march_2024) march_expenses
      three_budgets in
  map bs_categoryId rows = ["food"; "bills"] /\
  map percentage rows = [ofZ 80; ofZ 20] /\
  map remaining rows = [ofZ 200; ofZ 400] /\
  map bs_categoryId (budgetAlerts rows) = ["food"].
Proof.
  repeat split; vm_compute; num_eq.
Qed.

(** C8, as the code has it. For every host, the budget status of the empty
    collection under [{ food: 1000 }] is the single row of food with
    nothing spent: percentage [0] and [1000] remaining. *)
Theorem budgetStatus_empty_collection :
  forall h : Host, budgetStatus h [] food1000 = [foodUnspent].
Proof.
  intros h. unfold budgetStatus, food1000, foodUnspent.
  cbn -[ofZ zero add sub mul div].
  f_equal. f_equal; try reflexivity; apply Fin_canon; reflexivity.
Qed.

(** The claim C8 as stated fails: the status list is not empty. *)
Lemma budgetStatus_empty_collection_not_nil :
  budgetStatus (strictHost cairo mid_march_2024) [] food1000 <> [].
Proof. vm_compute. discriminate. Qed.

End BudgetFacts.

(* ================================================================= *)
(** ** The savings percentage *)

Module SavingsFacts.

Import JsDate App Sample Vocab NumFacts ListFacts TotalsFacts.

Lemma leb_zero_add (x y : number) :
  isFinite x = true -> isFinite y = true ->
  leb zero x = true -> leb zero y = true -> leb zero (add x y) = true.
Proof.
  intros [a ->]%finite_inv [b ->]%finite_inv.
  unfold zero, ofZ, add. change (Q2Qc (inject_Z 0)) with (Q2Qc 0).
  rewrite !leb_Fin. intros Ha Hb.
  replace (Q2Qc 0) with (Q2Qc 0 + Q2Qc 0)%Qc by now apply Qc_is_canon.
  now apply Qcplus_le_compat.
Qed.

Lemma sum_not_negative (l : list number) :
  Forall (fun x => isFinite x = true /\ leb zero x = true) l ->
  isFinite (sum l) = true /\ leb zero (sum l) = true.
Proof.
  induction 1 as [|x l [Hx Hx'] _ [IH IH']].
  - split; reflexivity.
  - rewrite sum_cons. split.
    + now apply isFinite_add.
    + now apply leb_zero_add.
Qed.

Lemma negative_share (i e : Qc) :
  (Q2Qc 0 < i)%Qc -> (i < e)%Qc ->
  ((i + - e) / i * Q2Qc (inject_Z 100) < Q2Qc 0)%Qc.
Proof.
  unfold Qclt, Qcdiv, Qcmult, Qcplus, Qcopp, Qcinv.
  cbn [this Q2Qc]. rewrite !Qred_correct. intros Hi Hie.
  assert (Hinv : (0 < / i)%Q) by now apply Qinv_lt_0_compat.
  change (inject_Z 100) with (100 # 1)%Q.
  generalize dependent (/ this i)%Q. intros x Hx.
  generalize dependent (this i). generalize dependent (this e).
  intros b a Ha Hab.
  assert (H1 : ((a + - b) * x < 0)%Q) by nra.
  nra.
Qed.

(** The percentage computed from totals, as [getDashboardStats] does. *)
Lemma savings_unfold (h : Host) (l : list Transaction) :
  monthlySavingsPercentage (getDashboardStats h l) =
  let t := calculateTotals (filter (inCurrentMonth h) l) in
  if gtb (income t) zero
  then mul (div (sub (income t) (expense t)) (income t)) (ofZ 100)
  else zero.
Proof. reflexivity. Qed.

Lemma wellFormed_totals (l : list Transaction) :
  Forall wellFormed l ->
  exists i e : Qc,
    income (calculateTotals l) = Fin i /\
    expense (calculateTotals l) = Fin e /\ (Q2Qc 0 <= i)%Qc.
Proof.
  intros Hwf. destruct (totals_sums l) as (Hi & He & _).
  assert (Hinc : isFinite (sum (incomeAmounts l)) = true /\
                 leb zero (sum (incomeAmounts l)) = true).
  { apply sum_not_negative. apply Forall_map.
    apply Forall_forall. intros tx [Hin _]%filter_In.
    rewrite Forall_forall in Hwf. now apply Hwf. }
  assert (Hexp : isFinite (sum (expenseAmounts l)) = true).
  { apply isFinite_sum. apply Forall_map.
    apply Forall_forall. intros tx [Hin _]%filter_In.
    rewrite Forall_forall in Hwf. now apply Hwf. }
  destruct Hinc as [Hfi Hnn].
  apply finite_inv in Hfi. destruct Hfi as [i Hfi].
  apply finite_inv in Hexp. destruct Hexp as [e Hfe].
  exists i, e. rewrite Hi, He, Hfi, Hfe. repeat split.
  rewrite Hfi in Hnn. now apply leb_Fin in Hnn.
Qed.

Lemma incomeAmounts_expenses (l : list Transaction) :
  Forall (fun tx => isExpense (tx_type tx) = true) l -> incomeAmounts l = [].
Proof.
  unfold incomeAmounts. induction 1 as [|tx l Htx _ IH]; simpl; auto.
  destruct (tx_type tx); [discriminate|auto].
Qed.

(** C7 at the failing input. On a host five hours west of UTC whose clock
    reads 15 March 2024, whatever its fallback parser, with an income of
    100 dated 2024-03-01 and an expense of 40 dated 2024-03-15: both
    transactions are of the current calendar month, whose income is 100
    and whose savings percentage is 60; but the month filter of the code
    leaves the income out, the income of the month is taken to be zero and
    the savings percentage is 0. *)
Theorem savings_west_of_utc :
  forall parse : string -> option Z,
    let h := {| utcOffsetMinutes := new_york; clock := mid_march_2024;
                parseOther := parse |} in
    let t := calculateTotals
               (calendarMonthTransactions h income_on_first_of_march) in
    localFields h (clock h) = (2024, 3, 15)%Z /\
    calendarMonthTransactions h income_on_first_of_march =
      income_on_first_of_march /\
    income t = ofZ 100 /\
    mul (div (sub (income t) (expense t)) (income t)) (ofZ 100) = ofZ 60 /\
    map date (filter (inCurrentMonth h) income_on_first_of_march) =
      ["2024-03-15"] /\
    monthlySavingsPercentage (getDashboardStats h income_on_first_of_march) =
      zero.
Proof.
  intros parse. repeat split; vm_compute; num_eq.
Qed.

(** On the sample data: income 100 and expenses 150 give minus 50 percent;
    a month with only expenses gives 0. *)
Example monthlySavingsPercentage_sample :
  monthlySavingsPercentage
    (getDashboardStats (strictHost cairo mid_march_2024) march_overspent)
  = ofZ (-50) /\
  monthlySavingsPercentage
    (getDashboardStats (strictHost cairo mid_march_2024) march_expenses)
  = zero.
Proof. split; vm_compute; num_eq. Qed.

End SavingsFacts.

(* ================================================================= *)
(** ** [groupExpensesByCategory] *)

Module GroupFacts.

Import JsDate App Sample Vocab NumFacts ListFacts ObjFacts TotalsFacts.

Lemma sumTotals_set_absent (o : Obj.t Bucket) (k : string) (b : Bucket) :
  Obj.get o k = None ->
  sumTotals (Obj.set o k b) = add (sumTotals o) (total b).
Proof.
  intros G. rewrite (set_absent _ _ _ G). unfold sumTotals.
  rewrite map_app. simpl. apply sum_snoc.
Qed.

Lemma sumTotals_set_present (o : Obj.t Bucket) (k : string)
  (b0 b : Bucket) (x : number) :
  Obj.get o k = Some b0 -> total b = add (total b0) x ->
  sumTotals (Obj.set o k b) = add (sumTotals o) x.
Proof.
  unfold sumTotals. intros G Hb.
  induction o as [|[k' b'] o IH]; simpl in *; [discriminate|].
  destruct (String.eqb k k') eqn:E; simpl.
  - injection G as ->. rewrite !sum_cons, Hb.
    rewrite <- !add_assoc. f_equal. apply add_comm.
  - rewrite !sum_cons, IH by assumption. apply add_assoc.
Qed.

Lemma grouped_snoc (l : list Transaction) (tx : Transaction) :
  grouped (l ++ [tx]) = groupStep (grouped l) tx.
Proof. unfold grouped. now rewrite fold_left_app. Qed.

Lemma wf_groupStep (acc : Obj.t Bucket) (tx : Transaction) :
  Obj.wf acc -> Obj.wf (groupStep acc tx).
Proof.
  intros Hwf. unfold groupStep.
  destruct (getCategoryById (categoryId tx)) as [c|]; auto.
  apply wf_modify, wf_modify.
  destruct (Obj.get acc (cat_name c)); auto using wf_set.
Qed.

Lemma wf_grouped (l : list Transaction) : Obj.wf (grouped l).
Proof.
  induction l as [|tx l IH] using rev_ind.
  - apply wf_nil.
  - rewrite grouped_snoc. now apply wf_groupStep.
Qed.

(** One step adds the amount of a resolvable expense to the buckets and
    leaves them alone otherwise. *)
Lemma sumTotals_groupStep (acc : Obj.t Bucket) (tx : Transaction) :
  sumTotals (groupStep acc tx) =
  if resolvable tx then add (sumTotals acc) (amount tx) else sumTotals acc.
Proof.
  unfold groupStep, resolvable.
  destruct (getCategoryById (categoryId tx)) as [c|]; auto.
  set (k := cat_name c).
  set (acc1 := match Obj.get acc k with
               | Some _ => acc
               | None => Obj.set acc k _
               end).
  assert (H1 : sumTotals acc1 = sumTotals acc /\
               exists b1, Obj.get acc1 k = Some b1).
  { unfold acc1. destruct (Obj.get acc k) as [b|] eqn:G.
    - eauto.
    - rewrite (sumTotals_set_absent _ _ _ G). simpl.
      rewrite add_zero_r, get_set_same. eauto. }
  destruct H1 as [Hsum (b1 & Hb1)].
  unfold Obj.modify at 2. rewrite Hb1.
  set (b2 := {| total := add (total b1) (amount tx) |}).
  assert (H2 : Obj.get (Obj.set acc1 k b2) k = Some b2)
    by apply get_set_same.
  unfold Obj.modify. rewrite H2.
  rewrite (sumTotals_set_present _ _ b2 _ zero H2)
    by (simpl; now rewrite add_zero_r).
  rewrite add_zero_r.
  rewrite (sumTotals_set_present _ _ b1 _ (amount tx) Hb1) by reflexivity.
  now rewrite Hsum.
Qed.

Lemma sumTotals_grouped (l : list Transaction) :
  sumTotals (grouped l) =
  sum (map amount (filter (fun tx => resolvable tx) l)).
Proof.
  induction l as [|tx l IH] using rev_ind.
  - reflexivity.
  - rewrite grouped_snoc, sumTotals_groupStep, IH, filter_app. simpl.
    destruct (resolvable tx).
    + rewrite map_app. simpl. now rewrite sum_snoc.
    + now rewrite app_nil_r.
Qed.

Lemma sum_values (l : list Transaction) :
  sum (map value (groupExpensesByCategory l)) =
  sum (resolvedExpenseAmounts l).
Proof.
  unfold groupExpensesByCategory, resolvedExpenseAmounts.
  fold (grouped (filter (fun t => isExpense (tx_type t)) l)).
  rewrite <- sumTotals_grouped. unfold sumTotals.
  rewrite map_map. apply sum_perm.
  rewrite (Permutation_map _ (entries_perm _ (wf_grouped _))).
  apply Permutation_refl'. apply map_ext. now intros [name data].
Qed.

Lemma sum_split (f : Transaction -> bool) (l : list Transaction) :
  sum (map amount l) =
  add (sum (map amount (filter f l)))
      (sum (map amount (filter (fun tx => negb (f tx)) l))).
Proof.
  induction l as [|tx l IH]; simpl.
  - symmetry. apply add_zero_r.
  - rewrite sum_cons, IH. destruct (f tx); simpl; rewrite sum_cons.
    + apply add_assoc.
    + rewrite !add_assoc. f_equal. apply add_comm.
Qed.

Lemma sub_add_finite (x u : number) :
  isFinite x = true -> isFinite u = true -> sub (add x u) u = x.
Proof.
  intros [a ->]%finite_inv [b ->]%finite_inv.
  unfold sub, neg, add. f_equal. ring.
Qed.

(** In exact arithmetic the values of the slices add up to the amounts of
    the EXPENSE transactions whose category id is in the catalog, that is,
    with finite amounts, to the expense total minus the amounts recorded
    under an unknown id.  The sums of the engine are taken in binary64, in
    another order on each side, and agree only up to rounding
    ([RoundingFacts.slices_do_not_add_up]). *)
Lemma values_add_up_in_exact_arithmetic :
  forall transactions : list Transaction,
    Forall finiteAmount transactions ->
    sum (map value (groupExpensesByCategory transactions)) =
      sum (resolvedExpenseAmounts transactions) /\
    expense (calculateTotals transactions) =
      add (sum (resolvedExpenseAmounts transactions))
          (sum (unresolvedExpenseAmounts transactions)) /\
    sum (map value (groupExpensesByCategory transactions)) =
      sub (expense (calculateTotals transactions))
          (sum (unresolvedExpenseAmounts transactions)).
Proof.
  intros transactions Hfin.
  assert (Hexp : expense (calculateTotals transactions) =
                 add (sum (resolvedExpenseAmounts transactions))
                     (sum (unresolvedExpenseAmounts transactions))).
  { destruct (totals_sums transactions) as (_ & -> & _).
    apply sum_split. }
  assert (Hf : forall f,
             isFinite (sum (map amount
               (filter f (filter (fun tx => isExpense (tx_type tx))
                            transactions)))) = true).
  { intros f. apply isFinite_sum, Forall_map, Forall_forall.
    intros tx [[Hin _]%filter_In _]%filter_In.
    rewrite Forall_forall in Hfin. now apply Hfin. }
  repeat split; auto using sum_values.
  rewrite Hexp, sum_values. symmetry. apply sub_add_finite; apply Hf.
Qed.

(** On the sample data the expense total is 52, of which 7 is recorded
    under an unknown id; the slices are food 15 and housing 30. *)
Example groupExpensesByCategory_sample :
  map value (groupExpensesByCategory with_unknown_category) =
    [ofZ 15; ofZ 30] /\
  expense (calculateTotals with_unknown_category) = ofZ 52 /\
  sum (unresolvedExpenseAmounts with_unknown_category) = ofZ 7.
Proof. repeat split; vm_compute; num_eq. Qed.

End GroupFacts.

(* ================================================================= *)
(** ** Order of the input *)

Module OrderFacts.

Import JsDate App Sample Vocab NumFacts ListFacts ObjFacts ArrFacts.
Import TotalsFacts SpendFacts BudgetFacts GroupFacts.

(** *** Reductions whose step acts on one property at a time *)

Section LocalFold.
Context {A V : Type}.
Variable step : Obj.t V -> A -> Obj.t V.
Variable F : A -> string -> option V -> option V.
Hypothesis step_get :
  forall s a k, Obj.get (step s a) k = F a k (Obj.get s k).
Hypothesis F_comm :
  forall a b k ov, F b k (F a k ov) = F a k (F b k ov).
Hypothesis step_wf : forall s a, Obj.wf s -> Obj.wf (step s a).





End LocalFold.

(** *** The catalog *)

Lemma getCategoryById_In (id : string) (c : Category) :
  getCategoryById id = Some c ->
  In c (CATEGORIES_INCOME ++ CATEGORIES_EXPENSE)%list.
Proof. intros H. now apply find_some in H. Qed.

(** No two categories of the catalog share a name. *)
Lemma catalog_names (c c' : Category) :
  In c (CATEGORIES_INCOME ++ CATEGORIES_EXPENSE)%list ->
  In c' (CATEGORIES_INCOME ++ CATEGORIES_EXPENSE)%list ->
  cat_name c = cat_name c' -> c = c'.
Proof.
  intros Hc Hc' Hname. simpl in Hc, Hc'.
  repeat (destruct Hc as [<-|Hc]; [
    repeat (destruct Hc' as [<-|Hc'];
            [first [reflexivity | discriminate Hname]|]);
    contradiction |]).
  contradiction.
Qed.

(** *** [groupStep] and [monthStep] act on one property *)

Lemma get_groupStep (acc : Obj.t Bucket) (tx : Transaction) (k : string) :
  Obj.get (groupStep acc tx) k = groupF tx k (Obj.get acc k).
Proof.
  unfold groupStep, groupF.
  destruct (getCategoryById (categoryId tx)) as [c|]; auto.
  destruct (String.eqb (cat_name c) k) eqn:E.
  - apply String.eqb_eq in E. subst k.
    rewrite !get_modify_same.
    destruct (Obj.get acc (cat_name c)) as [b|] eqn:G.
    + rewrite G. reflexivity.
    + rewrite get_set_same. reflexivity.
  - assert (Hne : k <> cat_name c).
    { intros ->. now rewrite String.eqb_refl in E. }
    rewrite !get_modify_other by assumption.
    destruct (Obj.get acc (cat_name c)); auto.
    now apply get_set_other.
Qed.


Lemma get_monthStep (h : Host) (acc : Obj.t MonthRow) (tx : Transaction)
  (k : string) :
  Obj.get (monthStep h acc tx) k = monthF h tx k (Obj.get acc k).
Proof.
  unfold monthStep, monthF, monthKey.
  set (month := toLocaleMonthYear h (ofString h (date tx))).
  destruct (String.eqb month k) eqn:E.
  - apply String.eqb_eq in E. subst k.
    destruct (isIncome (tx_type tx)); rewrite get_modify_same;
      destruct (Obj.get acc month) as [r|] eqn:G;
      rewrite ?G, ?get_set_same; reflexivity.
  - assert (Hne : k <> month).
    { intros ->. now rewrite String.eqb_refl in E. }
    destruct (isIncome (tx_type tx)); rewrite get_modify_other by assumption;
      destruct (Obj.get acc month); auto using get_set_other.
Qed.


Lemma wf_monthStep (h : Host) (acc : Obj.t MonthRow) (tx : Transaction) :
  Obj.wf acc -> Obj.wf (monthStep h acc tx).
Proof.
  intros Hwf. unfold monthStep.
  destruct (isIncome (tx_type tx)); apply wf_modify;
    destruct (Obj.get acc _); auto using wf_set.
Qed.

(** *** The two groupings, up to the order of their rows *)



(** *** Totals, highest income, savings

    The sums are accumulated in the order of the collection.  The lemmas
    below that equate sums taken in two orders ([calculateTotals_perm],
    [savings_perm], [budgetStatus_perm], [largest_perm]) are facts of exact
    arithmetic: the binary64 sums of the engine agree only up to rounding
    ([RoundingFacts.totals_depend_on_order]).  The highest income and the
    count do not depend on rounding. *)

Lemma Totals_eq (t t' : Totals) :
  income t = income t' -> expense t = expense t' ->
  balance t = balance t' -> t = t'.
Proof. destruct t, t'; simpl; congruence. Qed.

Lemma calculateTotals_perm (l l' : list Transaction) :
  Permutation l l' -> calculateTotals l = calculateTotals l'.
Proof.
  intros Hperm.
  destruct (totals_sums l) as (Hi & He & Hb).
  destruct (totals_sums l') as (Hi' & He' & Hb').
  assert (Hinc : income (calculateTotals l) = income (calculateTotals l')).
  { rewrite Hi, Hi'. apply sum_perm, Permutation_map.
    now apply filter_perm. }
  assert (Hexp : expense (calculateTotals l) = expense (calculateTotals l')).
  { rewrite He, He'. apply sum_perm, Permutation_map.
    now apply filter_perm. }
  apply Totals_eq; auto. now rewrite Hb, Hb', Hinc, Hexp.
Qed.


Lemma cmp_sym (x y : number) :
  cmp y x = match cmp x y with
            | Some c => Some (CompOpp c)
            | None => None
            end.
Proof.
  destruct x as [a| | |], y as [b| | |]; simpl; try reflexivity.
  f_equal. unfold Qccompare. now rewrite <- Qcompare_antisym.
Qed.






Lemma savings_perm (h : Host) (l l' : list Transaction) :
  Permutation l l' ->
  monthlySavingsPercentage (getDashboardStats h l) =
  monthlySavingsPercentage (getDashboardStats h l').
Proof.
  intros Hperm. unfold getDashboardStats. cbn [monthlySavingsPercentage].
  now rewrite (calculateTotals_perm _ _
                 (filter_perm (inCurrentMonth h) _ _ Hperm)).
Qed.


(** *** The budget status *)

Lemma spentOn_perm (l l' : list Transaction) (k : string) :
  Permutation l l' -> spentOn l k = spentOn l' k.
Proof.
  intros Hperm. unfold spentOn.
  apply sum_perm, Permutation_map. now apply filter_perm.
Qed.

Lemma budgetRow_ext (budgets spent spent' : Obj.t number) (k : string) :
  getOr0 spent k = getOr0 spent' k ->
  budgetRow budgets spent k = budgetRow budgets spent' k.
Proof. intros H. unfold budgetRow. now rewrite H. Qed.

Lemma Forall_perm {A : Type} (P : A -> Prop) (l l' : list A) :
  Permutation l l' -> Forall P l -> Forall P l'.
Proof.
  intros Hperm H. rewrite Forall_forall in H |- *. intros x Hx.
  apply H. now apply (Permutation_in _ (Permutation_sym Hperm)).
Qed.

Lemma budgetStatus_perm (h : Host) (l l' : list Transaction)
  (budgets : Obj.t number) :
  Forall finiteAmount l -> Permutation l l' ->
  budgetStatus h l budgets = budgetStatus h l' budgets.
Proof.
  intros Hfin Hperm. unfold budgetStatus.
  fold (currentMonthExpenses h l) (currentMonthExpenses h l').
  fold (spending (currentMonthExpenses h l))
       (spending (currentMonthExpenses h l')).
  f_equal. f_equal. apply map_ext. intros k. apply budgetRow_ext.
  assert (Hcur : Permutation (currentMonthExpenses h l)
                             (currentMonthExpenses h l'))
    by now apply filter_perm.
  assert (Hf : Forall finiteAmount (currentMonthExpenses h l))
    by now apply finite_current.
  rewrite !getOr0_spending; eauto using Forall_perm.
  now apply spentOn_perm.
Qed.

(** *** The largest spending category *)

Lemma occurs_iff (l : list Transaction) (k : string) :
  existsb (fun tx => String.eqb (categoryId tx) k) l = true <->
  In k (map categoryId l).
Proof.
  rewrite existsb_exists, in_map_iff.
  split; intros (tx & H1 & H2).
  - apply String.eqb_eq in H2. eauto.
  - exists tx. split; auto. now apply String.eqb_eq.
Qed.

Lemma spending_entry (l : list Transaction) (k : string) (v : number) :
  Forall finiteAmount l ->
  In (k, v) (Obj.entries (spending l)) <->
  In k (map categoryId l) /\ v = spentOn l k.
Proof.
  intros Hfin.
  assert (Hget : Obj.get (spending l) k = Some v <->
                 In k (map categoryId l) /\ v = spentOn l k).
  { rewrite (get_spending l Hfin k), <- occurs_iff.
    destruct (existsb _ l); split.
    - intros [= <-]. auto.
    - intros [_ ->]. reflexivity.
    - discriminate.
    - intros [H _]. discriminate. }
  rewrite <- Hget. split; intros H.
  - apply In_get; [apply wf_spending|].
    now apply (Permutation_in _ (entries_perm _ (wf_spending l))).
  - apply (Permutation_in _ (Permutation_sym
                               (entries_perm _ (wf_spending l)))).
    now apply get_In.
Qed.

Lemma ltb_leb_absurd (x y : number) :
  ltb x y = true -> leb y x = true -> False.
Proof.
  unfold ltb, leb. rewrite (cmp_sym x y).
  destruct (cmp x y) as [[]|]; simpl; discriminate.
Qed.

Lemma largest_unfold (h : Host) (l : list Transaction) :
  largestSpendingCategory (getDashboardStats h l) =
  match filter (fun tx => isExpense (tx_type tx)) l with
  | [] => "لا يوجد"
  | _ :: _ =>
      match Arr.sort (fun x y => sub (snd y) (snd x))
              (Obj.entries
                 (spending (filter (fun tx => isExpense (tx_type tx)) l)))
      with
      | e :: _ => displayName (fst e)
      | [] => "لا يوجد"
      end
  end.
Proof. reflexivity. Qed.

Lemma largest_strict (h : Host) (l : list Transaction) (k : string) :
  Forall finiteAmount l -> strictLargest l k ->
  largestSpendingCategory (getDashboardStats h l) = displayName k.
Proof.
  intros Hfin [Hk Hmax]. rewrite largest_unfold.
  set (expenses := filter (fun tx => isExpense (tx_type tx)) l) in *.
  assert (Hfe : Forall finiteAmount expenses).
  { apply Forall_forall. intros tx [Hin _]%filter_In.
    rewrite Forall_forall in Hfin. auto. }
  destruct expenses as [|tx0 rest] eqn:Eexp; [contradiction|].
  rewrite <- Eexp in *. clear Eexp tx0 rest.
  set (E := Obj.entries (spending expenses)).
  pose proof (sort_descending (@snd string number) E) as Hsorted.
  pose proof (sort_perm (fun x y : string * number => sub (snd y) (snd x)) E)
    as Hperm.
  assert (HfinE : Forall (fun a => isFinite (snd a) = true) E).
  { apply Forall_forall. intros [k' v'] Hin.
    apply spending_entry in Hin; auto. destruct Hin as [_ ->].
    now apply spentOn_finite. }
  specialize (Hsorted HfinE).
  assert (HkE : In (k, spentOn expenses k) E)
    by (apply spending_entry; auto).
  apply (Permutation_in _ (Permutation_sym Hperm)) in HkE.
  destruct (Arr.sort _ E) as [|[k0 v0] S'] eqn:ES; [contradiction|].
  simpl. f_equal.
  assert (H0 : In (k0, v0) E).
  { apply (Permutation_in _ Hperm). now left. }
  apply spending_entry in H0; auto. destruct H0 as [Hk0 ->].
  destruct (string_dec k0 k) as [|Hne]; auto.
  exfalso. destruct HkE as [Heq|Hin]; [congruence|].
  inversion Hsorted as [|? ? _ Hall]; subst.
  rewrite Forall_forall in Hall. specialize (Hall _ Hin).
  unfold descendingBy, geb in Hall. simpl in Hall.
  exact (ltb_leb_absurd _ _ (Hmax k0 Hk0 Hne) Hall).
Qed.

Lemma strictLargest_perm (l l' : list Transaction) (k : string) :
  Permutation l l' -> strictLargest l k -> strictLargest l' k.
Proof.
  intros Hperm [Hk Hmax].
  assert (He : Permutation (filter (fun tx => isExpense (tx_type tx)) l)
                           (filter (fun tx => isExpense (tx_type tx)) l'))
    by now apply filter_perm.
  pose proof (Permutation_map categoryId He) as Hids.
  split.
  - now apply (Permutation_in _ Hids).
  - intros k' Hk' Hne.
    rewrite <- !(spentOn_perm _ _ _ He). apply Hmax; auto.
    now apply (Permutation_in _ (Permutation_sym Hids)).
Qed.

Lemma largest_perm (h : Host) (l l' : list Transaction) :
  Forall finiteAmount l -> Permutation l l' -> noTie l ->
  largestSpendingCategory (getDashboardStats h l) =
  largestSpendingCategory (getDashboardStats h l').
Proof.
  intros Hfin Hperm [Hnil|[k Hk]].
  - rewrite !largest_unfold.
    pose proof (filter_perm (fun tx => isExpense (tx_type tx)) _ _ Hperm)
      as He.
    rewrite Hnil in *. apply Permutation_nil in He. now rewrite He.
  - rewrite (largest_strict h l k), (largest_strict h l' k);
      eauto using Forall_perm, strictLargest_perm.
Qed.






End OrderFacts.

(* ================================================================= *)
(** ** The monthly series *)

Module MonthlyFacts.

Import JsDate App Sample Vocab NumFacts ListFacts ObjFacts DateFacts.
Import ArrFacts OrderFacts.

Lemma monthly_snoc (h : Host) (l : list Transaction) (tx : Transaction) :
  monthly h (l ++ [tx]) = monthStep h (monthly h l) tx.
Proof. unfold monthly. now rewrite fold_left_app. Qed.

Lemma wf_monthly (h : Host) (l : list Transaction) : Obj.wf (monthly h l).
Proof.
  induction l as [|tx l IH] using rev_ind.
  - apply wf_nil.
  - rewrite monthly_snoc. now apply wf_monthStep.
Qed.

(** The name of a row is the key of one of the transactions. *)
Lemma monthly_names (h : Host) (l : list Transaction) (k : string)
  (r : MonthRow) :
  Obj.get (monthly h l) k = Some r -> exists tx, mr_name r = monthKey h tx.
Proof.
  revert k r. induction l as [|tx l IH] using rev_ind; intros k r.
  - discriminate.
  - rewrite monthly_snoc, get_monthStep. unfold monthF.
    destruct (String.eqb (monthKey h tx) k); [|apply IH].
    destruct (Obj.get (monthly h l) k) as [r0|] eqn:G.
    + destruct (IH _ _ G) as [tx0 Htx0].
      destruct (isIncome (tx_type tx)); intros [= <-]; simpl; eauto.
    + destruct (isIncome (tx_type tx)); intros [= <-]; simpl; eauto.
Qed.

Lemma values_names (h : Host) (l : list Transaction) (r : MonthRow) :
  In r (Obj.values (monthly h l)) -> exists tx, mr_name r = monthKey h tx.
Proof.
  unfold Obj.values. rewrite in_map_iff. intros ([k r'] & <- & Hin).
  apply (Permutation_in _ (entries_perm _ (wf_monthly h l))) in Hin.
  apply (In_get _ _ _ (wf_monthly h l)) in Hin.
  now apply monthly_names in Hin.
Qed.

(** On an engine that gives [NaN] for every string outside the ISO format
    the comparator of the final sort always returns [NaN]. *)
Lemma byLabelTime_NaN (h : Host) (a b : MonthRow) :
  (forall s, parseOther h s = None) ->
  (exists tx, mr_name b = monthKey h tx) ->
  byLabelTime h a b = NaN.
Proof.
  intros Hstrict [tx Hb]. unfold byLabelTime, ofString at 1.
  rewrite Hb. unfold monthKey. rewrite label_not_iso, Hstrict.
  reflexivity.
Qed.

(** So on such an engine the sort changes nothing: for every collection
    the series is in the order in which the months first occur. *)
Lemma monthly_series_not_sorted (h : Host) (l : list Transaction) :
  (forall s, parseOther h s = None) ->
  groupTransactionsByMonth h l = Obj.values (monthly h l).
Proof.
  intros Hstrict. unfold groupTransactionsByMonth.
  fold (monthly h l). apply sort_no_positive.
  intros a b _ Hb. rewrite byLabelTime_NaN; auto.
  now apply values_names in Hb.
Qed.

Lemma sub_self_not_positive (x : number) : gtb (sub x x) zero = false.
Proof.
  destruct x as [a| | |]; try reflexivity.
  unfold gtb, sub, neg, add, zero, ofZ.
  change (Q2Qc (inject_Z 0)) with (Q2Qc 0).
  destruct (ltb (Fin (Q2Qc 0)) (Fin (a + - a))) eqn:E; auto.
  apply ltb_Fin in E. rewrite Qcplus_opp_r in E.
  now apply Qclt_irrefl in E.
Qed.

(** C2 at the failing input. On every engine that does not tell the labels
    of March, January and February 2024 apart (none reads an Arabic month
    name), transactions of March, January and February 2024 give a series
    in the order March, January, February. *)
Theorem monthly_series_in_insertion_order :
  forall (clock : Z) (parse : string -> option Z),
    parse "يناير 2024" = parse "مارس 2024" ->
    parse "فبراير 2024" = parse "مارس 2024" ->
    map mr_name
      (groupTransactionsByMonth
         {| utcOffsetMinutes := cairo; clock := clock; parseOther := parse |}
         march_jan_feb)
    = ["مارس 2024"; "يناير 2024"; "فبراير 2024"].
Proof.
  intros clock parse Hjan Hfeb.
  set (h := {| utcOffsetMinutes := cairo; clock := clock;
               parseOther := parse |}).
  assert (Hrows : map mr_name (Obj.values (monthly h march_jan_feb)) =
                  ["مارس 2024"; "يناير 2024"; "فبراير 2024"])
    by (vm_compute; reflexivity).
  assert (Hlabel : forall r, In r (Obj.values (monthly h march_jan_feb)) ->
                   ofString h (mr_name r) = parse "مارس 2024").
  { intros r Hr. apply (in_map mr_name) in Hr. rewrite Hrows in Hr.
    simpl in Hr. destruct Hr as [<-|[<-|[<-|[]]]]; unfold ofString.
    all: rewrite parseIsoDate_head by reflexivity.
    all: unfold h.
    all: change (parseOther {| utcOffsetMinutes := cairo; clock := clock;
                               parseOther := parse |}) with parse.
    all: try assumption. reflexivity. }
  assert (Hsort : groupTransactionsByMonth h march_jan_feb =
                  Obj.values (monthly h march_jan_feb)).
  { unfold groupTransactionsByMonth. fold (monthly h march_jan_feb).
    apply sort_no_positive. intros a b Ha Hb.
    unfold byLabelTime. rewrite (Hlabel a Ha), (Hlabel b Hb).
    apply sub_self_not_positive. }
  now rewrite Hsort.
Qed.

Lemma monthly_series_in_insertion_order_witness :
  map mr_name
    (groupTransactionsByMonth
       {| utcOffsetMinutes := cairo; clock := mid_march_2024;
          parseOther := lenientParse cairo |}
       march_jan_feb)
  = ["مارس 2024"; "يناير 2024"; "فبراير 2024"].
Proof.
  apply (monthly_series_in_insertion_order mid_march_2024
           (lenientParse cairo)); reflexivity.
Defined.

(** *** The key and the time zone *)

(** C3 at the failing input. On a host five hours west of UTC, whatever
    its clock and its fallback parser, the date [2024-03-01] gets the key of
    February: two transactions whose dates are both in March 2024 have
    different keys and land in two buckets. *)
Theorem month_key_west_of_utc :
  forall (clock : Z) (parse : string -> option Z),
    let h := {| utcOffsetMinutes := new_york; clock := clock;
                parseOther := parse |} in
    let t1 := tx EXPENSE "food" 10 "2024-03-01" in
    let t2 := tx EXPENSE "food" 20 "2024-03-15" in
    parseIsoDate (date t1) = Some (2024, 3, 1)%Z /\
    parseIsoDate (date t2) = Some (2024, 3, 15)%Z /\
    monthKey h t1 = "فبراير 2024" /\
    monthKey h t2 = "مارس 2024" /\
    map fst (monthly h [t1; t2]) = ["فبراير 2024"; "مارس 2024"].
Proof. intros clock parse. repeat split; vm_compute; reflexivity. Qed.

End MonthlyFacts.

(* ================================================================= *)
(** ** The clock *)

Module ClockFacts.

Import JsDate App Sample Vocab NumFacts DateFacts.

Section TwoHosts.
Variables h1 h2 : Host.
Hypothesis same_zone : utcOffsetMinutes h1 = utcOffsetMinutes h2.
Hypothesis same_parser : forall s, parseOther h1 s = parseOther h2 s.
Hypothesis same_month : getMonth h1 (now h1) = getMonth h2 (now h2).
Hypothesis same_year : getFullYear h1 (now h1) = getFullYear h2 (now h2).

Lemma ofString_hosts (s : string) : ofString h1 s = ofString h2 s.
Proof.
  unfold ofString. destruct (parseIsoDate s) as [[[y m] d]|]; auto.
Qed.

Lemma localFields_hosts (t : Z) : localFields h1 t = localFields h2 t.
Proof. unfold localFields. now rewrite same_zone. Qed.

Lemma getMonth_hosts (d : Date) : getMonth h1 d = getMonth h2 d.
Proof.
  destruct d as [t|]; unfold getMonth; [now rewrite localFields_hosts|auto].
Qed.

Lemma getFullYear_hosts (d : Date) : getFullYear h1 d = getFullYear h2 d.
Proof.
  destruct d as [t|]; unfold getFullYear;
    [now rewrite localFields_hosts|auto].
Qed.

Lemma inCurrentMonth_hosts (tx : Transaction) :
  inCurrentMonth h1 tx = inCurrentMonth h2 tx.
Proof.
  unfold inCurrentMonth.
  now rewrite same_month, same_year, ofString_hosts, getMonth_hosts,
    getFullYear_hosts.
Qed.

Lemma getDashboardStats_hosts (l : list Transaction) :
  getDashboardStats h1 l = getDashboardStats h2 l.
Proof.
  unfold getDashboardStats.
  now rewrite (filter_ext _ _ inCurrentMonth_hosts l).
Qed.

Lemma budgetStatus_hosts (l : list Transaction) (budgets : Obj.t number) :
  budgetStatus h1 l budgets = budgetStatus h2 l budgets.
Proof.
  unfold budgetStatus.
  rewrite (filter_ext
             (fun tx => isExpense (tx_type tx) && inCurrentMonth h1 tx)
             (fun tx => isExpense (tx_type tx) && inCurrentMonth h2 tx)); auto.
  intros tx. now rewrite inCurrentMonth_hosts.
Qed.

End TwoHosts.

(** *** The current month and the date field *)

Lemma strictEq_ofZ (a b : Z) : strictEq (ofZ a) (ofZ b) = true <-> a = b.
Proof.
  unfold strictEq, cmp, ofZ. split.
  - destruct (Qccompare_cases (Q2Qc (inject_Z a)) (Q2Qc (inject_Z b)))
      as [H|H|H]; try discriminate.
    intros _. apply (proj1 (Q2Qc_eq_iff _ _)) in H.
    exact (proj1 (inject_Z_injective a b) H).
  - intros ->.
    destruct (Qccompare_cases (Q2Qc (inject_Z b)) (Q2Qc (inject_Z b)))
      as [H|H|H]; auto; exfalso; now apply Qclt_irrefl in H.
Qed.

(** X24. At or east of UTC a transaction dated [y-m-d] passes the filter
    of the current month exactly when [y] and [m] are the local year and
    month of the host clock. West of UTC the local date of a date-only
    string is the day before, as for the key of the monthly series. *)
Lemma inCurrentMonth_date (h : Host) (tx : Transaction) (y m d : Z) :
  (0 <= utcOffsetMinutes h < 1440)%Z ->
  parseIsoDate (date tx) = Some (y, m, d) ->
  inCurrentMonth h tx = true <->
  (let '(cy, cm, _) := localFields h (clock h) in y = cy /\ m = cm).
Proof.
  intros Hoff Hparse.
  destruct (parseIsoDate_valid _ _ _ _ Hparse) as [Hm Hd].
  unfold inCurrentMonth, getMonth, getFullYear, now, ofString.
  rewrite Hparse. rewrite localFields_date by assumption.
  destruct (localFields h (clock h)) as [[cy cm] cd].
  rewrite andb_true_iff, !strictEq_ofZ. lia.
Qed.

Lemma inCurrentMonth_date_witness :
  inCurrentMonth (strictHost cairo mid_march_2024)
    (tx EXPENSE "food" 10 "2024-03-10") = true <->
  (let '(cy, cm, _) :=
     localFields (strictHost cairo mid_march_2024)
       (clock (strictHost cairo mid_march_2024)) in
   2024%Z = cy /\ 3%Z = cm).
Proof.
  apply (inCurrentMonth_date (strictHost cairo mid_march_2024)
           (tx EXPENSE "food" 10 "2024-03-10") 2024 3 10).
  - simpl. unfold cairo. lia.
  - reflexivity.
Defined.

(** C4, as the code has it. [getDashboardStats] and the budget status take
    no current-moment argument: they read the host clock with [new Date()].
    On the same transactions and budgets, two hosts with the same time zone
    and date parser give the same results when their clocks read the same
    local month and year. *)
Theorem results_depend_on_clock_month :
  forall (h1 h2 : Host) (transactions : list Transaction)
         (budgets : Obj.t number),
    utcOffsetMinutes h1 = utcOffsetMinutes h2 ->
    (forall s, parseOther h1 s = parseOther h2 s) ->
    getMonth h1 (now h1) = getMonth h2 (now h2) ->
    getFullYear h1 (now h1) = getFullYear h2 (now h2) ->
    getDashboardStats h1 transactions = getDashboardStats h2 transactions /\
    budgetStatus h1 transactions budgets =
      budgetStatus h2 transactions budgets.
Proof.
  intros h1 h2 transactions budgets Hz Hp Hm Hy. split.
  - now apply getDashboardStats_hosts.
  - now apply budgetStatus_hosts.
Qed.

Lemma results_depend_on_clock_month_witness :
  getDashboardStats (strictHost cairo mid_march_2024) march_income_expense =
    getDashboardStats (strictHost cairo (mid_march_2024 + 86400000))
      march_income_expense /\
  budgetStatus (strictHost cairo mid_march_2024) march_income_expense
    food1000 =
    budgetStatus (strictHost cairo (mid_march_2024 + 86400000))
      march_income_expense food1000.
Proof.
  apply (results_depend_on_clock_month
           (strictHost cairo mid_march_2024)
           (strictHost cairo (mid_march_2024 + 86400000))
           march_income_expense food1000).
  - reflexivity.
  - intros s. reflexivity.
  - vm_compute. reflexivity.
  - vm_compute. reflexivity.
Defined.

(** The claim C4 as stated fails: the same transactions and budgets give
    different statistics and a different budget status when only the host
    clock moves from March to April 2024. *)
Lemma results_change_with_host_clock :
  getDashboardStats (strictHost cairo mid_march_2024) march_income_expense <>
    getDashboardStats (strictHost cairo mid_april_2024) march_income_expense /\
  budgetStatus (strictHost cairo mid_march_2024) march_income_expense
    food1000 <>
    budgetStatus (strictHost cairo mid_april_2024) march_income_expense
      food1000.
Proof.
  split.
  - intros H. apply (f_equal monthlySavingsPercentage) in H.
    vm_compute in H. discriminate H.
  - intros H. apply (f_equal (map spentAmount)) in H.
    vm_compute in H. discriminate H.
Qed.

End ClockFacts.

(* ================================================================= *)
(** ** The catalog *)

Module CatalogFacts.

Import App Vocab OrderFacts.

(** No two categories of the catalog share an id. *)
Lemma catalog_ids (c c' : Category) :
  In c allCategories -> In c' allCategories ->
  cat_id c = cat_id c' -> c = c'.
Proof.
  intros Hc Hc' Hid. unfold allCategories in Hc, Hc'. simpl in Hc, Hc'.
  repeat (destruct Hc as [<-|Hc]; [
    repeat (destruct Hc' as [<-|Hc'];
            [first [reflexivity | discriminate Hid]|]);
    contradiction |]).
  contradiction.
Qed.

Lemma getCategoryById_id (id : string) (c : Category) :
  getCategoryById id = Some c -> cat_id c = id.
Proof.
  intros H. apply find_some in H. destruct H as [_ H].
  now apply String.eqb_eq in H.
Qed.

Lemma getCategoryById_catalog (c : Category) :
  In c allCategories -> getCategoryById (cat_id c) = Some c.
Proof.
  intros Hc. unfold allCategories in Hc. simpl in Hc.
  repeat (destruct Hc as [<-|Hc]; [reflexivity|]).
  contradiction.
Qed.

(** X1. [getCategoryById] returns a category exactly when the id is the id
    of a category of the catalog, and then it returns that category: the
    ids of the income and the expense categories are all distinct. *)
Theorem getCategoryById_spec :
  forall (id : string) (c : Category),
    (getCategoryById id = Some c <->
     In c allCategories /\ cat_id c = id) /\
    (getCategoryById id = None <-> ~ In id (map cat_id allCategories)).
Proof.
  intros id c. split; split.
  - intros H. split.
    + now apply (getCategoryById_In id).
    + now apply getCategoryById_id.
  - intros [Hc <-]. now apply getCategoryById_catalog.
  - intros H Hin. apply in_map_iff in Hin. destruct Hin as (c' & <- & Hc').
    rewrite getCategoryById_catalog in H by assumption. discriminate.
  - intros H. destruct (getCategoryById id) as [c'|] eqn:E; auto.
    exfalso. apply H. apply in_map_iff. exists c'. split.
    + now apply getCategoryById_id.
    + now apply (getCategoryById_In id).
Qed.

End CatalogFacts.

(* ================================================================= *)
(** ** The slices of the category grouping *)

Module SliceFacts.

Import JsDate App Provider Pages Sample Vocab.
Import NumFacts ListFacts ObjFacts SpendFacts GroupFacts OrderFacts.
Import CatalogFacts.

(** The bucket of a category of the catalog holds the sum of the amounts
    recorded under its id, in order, and the colour of the category; there
    is none when no transaction carries the id. *)
Lemma get_grouped (e : list Transaction) (c : Category) :
  In c allCategories ->
  option_map shown (Obj.get (grouped e) (cat_name c)) =
  if existsb (fun tx => String.eqb (categoryId tx) (cat_id c)) e
  then Some (spentOn e (cat_id c), cat_color c) else None.
Proof.
  intros Hc. induction e as [|tx e IH] using rev_ind.
  - reflexivity.
  - rewrite grouped_snoc, get_groupStep, spentOn_snoc, existsb_app.
    simpl. rewrite orb_false_r. unfold groupF.
    destruct (getCategoryById (categoryId tx)) as [c'|] eqn:G.
    + pose proof (getCategoryById_id _ _ G) as Hid.
      pose proof (getCategoryById_In _ _ G) as Hc'.
      destruct (String.eqb (cat_name c') (cat_name c)) eqn:E.
      * apply String.eqb_eq in E.
        assert (c' = c) by now apply catalog_names.
        subst c'. rewrite <- Hid, String.eqb_refl, orb_true_r.
        unfold shown in *.
        destruct (Obj.get (grouped e) (cat_name c)) as [b|];
          destruct (existsb _ e) eqn:Ex; simpl in IH; try discriminate.
        -- injection IH as Ht Hcol. unfold bump. simpl.
           now rewrite Ht, Hcol.
        -- unfold bump. simpl.
           now rewrite (spentOn_absent _ _ Ex), add_zero_l.
      * assert (Hne : String.eqb (categoryId tx) (cat_id c) = false).
        { apply String.eqb_neq. intros Heq.
          assert (c' = c) by (apply catalog_ids; auto; congruence).
          subst c'. now rewrite String.eqb_refl in E. }
        rewrite Hne, orb_false_r. exact IH.
    + assert (Hne : String.eqb (categoryId tx) (cat_id c) = false).
      { apply String.eqb_neq. intros Heq. rewrite Heq in G.
        rewrite getCategoryById_catalog in G by assumption. discriminate. }
      rewrite Hne, orb_false_r. exact IH.
Qed.

(** The name of a bucket is the name of a category of the catalog. *)
Lemma grouped_keys (e : list Transaction) (k : string) (b : Bucket) :
  Obj.get (grouped e) k = Some b ->
  exists c, In c allCategories /\ cat_name c = k.
Proof.
  revert b. induction e as [|tx e IH] using rev_ind; intros b.
  - discriminate.
  - rewrite grouped_snoc, get_groupStep. unfold groupF.
    destruct (getCategoryById (categoryId tx)) as [c'|] eqn:G; [|apply IH].
    destruct (String.eqb (cat_name c') k) eqn:E; [|apply IH].
    apply String.eqb_eq in E. intros _. exists c'. split; auto.
    now apply (getCategoryById_In (categoryId tx)).
Qed.

Lemma In_entries {V : Type} (o : Obj.t V) (k : string) (v : V) :
  Obj.wf o -> In (k, v) (Obj.entries o) <-> Obj.get o k = Some v.
Proof.
  intros Hwf. split; intros H.
  - apply In_get; auto.
    now apply (Permutation_in _ (entries_perm o Hwf)).
  - apply (Permutation_in _ (Permutation_sym (entries_perm o Hwf))).
    now apply get_In.
Qed.

Lemma In_slices (l : list Transaction) (s : Slice) :
  In s (groupExpensesByCategory l) <->
  exists c, In c allCategories /\
            In (cat_id c) (map categoryId (expensesOf l)) /\
            s = sliceOf l c.
Proof.
  unfold groupExpensesByCategory. fold (expensesOf l).
  fold (grouped (expensesOf l)). set (e := expensesOf l).
  rewrite in_map_iff. split.
  - intros ([k b] & <- & Hin).
    apply In_entries in Hin; [|apply wf_grouped].
    destruct (grouped_keys _ _ _ Hin) as (c & Hc & <-).
    pose proof (get_grouped e c Hc) as Hget. rewrite Hin in Hget.
    exists c. split; auto.
    unfold shown in Hget.
    destruct (existsb _ e) eqn:Ex; simpl in Hget; [|discriminate].
    injection Hget as Ht Hcol. split.
    + now apply occurs_iff.
    + unfold sliceOf. fold e. now rewrite Ht, Hcol.
  - intros (c & Hc & Hocc & ->).
    pose proof (get_grouped e c Hc) as Hget.
    apply occurs_iff in Hocc. rewrite Hocc in Hget.
    unfold shown in Hget.
    destruct (Obj.get (grouped e) (cat_name c)) as [b|] eqn:G;
      simpl in Hget; [|discriminate].
    injection Hget as Ht Hcol.
    exists (cat_name c, b). split.
    + unfold sliceOf. fold e. now rewrite Ht, Hcol.
    + apply In_entries; auto. apply wf_grouped.
Qed.

Lemma slice_names (l : list Transaction) :
  NoDup (map slice_name (groupExpensesByCategory l)).
Proof.
  unfold groupExpensesByCategory. fold (expensesOf l).
  fold (grouped (expensesOf l)). rewrite map_map.
  rewrite (map_ext _ fst) by now intros [name data].
  apply (Permutation_NoDup
           (Permutation_sym
              (Permutation_map fst (entries_perm _ (wf_grouped _))))).
  apply wf_grouped.
Qed.

(** X2. The result of [groupExpensesByCategory] has exactly one slice for
    each category of the catalog under whose id an EXPENSE transaction is
    recorded, and no other: the slice carries the name of the category, the
    sum of the amounts of the expenses recorded under its id, and its
    colour; no two slices share a name. *)
Theorem groupExpensesByCategory_slices :
  forall l : list Transaction,
    NoDup (map slice_name (groupExpensesByCategory l)) /\
    forall s : Slice,
      In s (groupExpensesByCategory l) <->
      exists c : Category,
        In c allCategories /\
        In (cat_id c) (map categoryId (expensesOf l)) /\
        s = sliceOf l c.
Proof.
  intros l. split.
  - apply slice_names.
  - intros s. apply In_slices.
Qed.

(** X3. [ReportsPage] draws the expense chart exactly when some EXPENSE
    transaction has a category id of the catalog; income transactions and
    expenses under an unknown id do not make it appear. *)
Theorem showsExpenseChart_spec :
  forall l : list Transaction,
    showsExpenseChart l = existsb resolvable (expensesOf l).
Proof.
  intros l. unfold showsExpenseChart.
  destruct (existsb resolvable (expensesOf l)) eqn:Ex.
  - apply existsb_exists in Ex. destruct Ex as (tx & Hin & Hres).
    unfold resolvable in Hres.
    destruct (getCategoryById (categoryId tx)) as [c|] eqn:G;
      [|discriminate].
    assert (Hs : In (sliceOf l c) (groupExpensesByCategory l)).
    { apply In_slices. exists c. split; [|split]; auto.
      - now apply (getCategoryById_In (categoryId tx)).
      - rewrite (getCategoryById_id _ _ G). now apply in_map. }
    destruct (groupExpensesByCategory l); [contradiction|reflexivity].
  - destruct (groupExpensesByCategory l) as [|s rest] eqn:E; auto.
    assert (Hs : In s (groupExpensesByCategory l))
      by (rewrite E; now left).
    apply In_slices in Hs. destruct Hs as (c & Hc & Hocc & _).
    apply in_map_iff in Hocc. destruct Hocc as (tx & Hid & Hin).
    assert (Hres : existsb resolvable (expensesOf l) = true).
    { apply existsb_exists. exists tx. split; auto.
      unfold resolvable. rewrite Hid.
      now rewrite getCategoryById_catalog. }
    congruence.
Qed.

End SliceFacts.

(* ================================================================= *)
(** ** The rows of the monthly series *)

Module SeriesFacts.

Import JsDate App Sample Vocab.
Import NumFacts ListFacts ObjFacts ArrFacts TotalsFacts OrderFacts.
Import MonthlyFacts SliceFacts.

Lemma monthAmount_snoc (h : Host) (l : list Transaction) (tx : Transaction)
  (ty : TransactionType) (k : string) :
  monthAmount h (l ++ [tx]) ty k =
  if ofType ty tx && String.eqb (monthKey h tx) k
  then add (monthAmount h l ty k) (amount tx)
  else monthAmount h l ty k.
Proof.
  unfold monthAmount. rewrite filter_app. simpl.
  destruct (ofType ty tx && String.eqb (monthKey h tx) k).
  - rewrite map_app. simpl. now rewrite sum_snoc.
  - now rewrite app_nil_r.
Qed.

Lemma monthAmount_absent (h : Host) (l : list Transaction)
  (ty : TransactionType) (k : string) :
  existsb (fun tx => String.eqb (monthKey h tx) k) l = false ->
  monthAmount h l ty k = zero.
Proof.
  unfold monthAmount. induction l as [|tx l IH]; simpl; auto.
  destruct (String.eqb (monthKey h tx) k); simpl; [discriminate|].
  rewrite andb_false_r. auto.
Qed.

Lemma MonthRow_eq (r r' : MonthRow) :
  mr_name r = mr_name r' -> mr_income r = mr_income r' ->
  mr_expense r = mr_expense r' -> r = r'.
Proof. destruct r, r'; simpl; congruence. Qed.

(** The object built by the reduction holds, under each month key that
    occurs, the row of that key. *)
Lemma get_monthly (h : Host) (l : list Transaction) (k : string) :
  Obj.get (monthly h l) k =
  if existsb (fun tx => String.eqb (monthKey h tx) k) l
  then Some (rowOf h l k) else None.
Proof.
  induction l as [|tx l IH] using rev_ind.
  - reflexivity.
  - rewrite monthly_snoc, get_monthStep, IH, existsb_app. simpl.
    rewrite orb_false_r. unfold monthF.
    destruct (String.eqb (monthKey h tx) k) eqn:E.
    + rewrite orb_true_r. f_equal. apply String.eqb_eq in E. subst k.
      destruct (existsb _ l) eqn:Ex.
      * destruct (tx_type tx) eqn:Ety; apply MonthRow_eq; simpl;
          rewrite ?monthAmount_snoc; unfold ofType; rewrite ?Ety;
          simpl; rewrite ?String.eqb_refl; reflexivity.
      * destruct (tx_type tx) eqn:Ety; apply MonthRow_eq; simpl;
          rewrite ?monthAmount_snoc; unfold ofType; rewrite ?Ety;
          simpl; rewrite ?String.eqb_refl;
          rewrite ?(monthAmount_absent _ _ _ _ Ex); auto.
    + rewrite orb_false_r. destruct (existsb _ l); auto.
      f_equal. apply MonthRow_eq; simpl; auto;
        rewrite monthAmount_snoc, E, andb_false_r; reflexivity.
Qed.

Lemma key_occurs (h : Host) (l : list Transaction) (k : string) :
  existsb (fun tx => String.eqb (monthKey h tx) k) l = true <->
  In k (map (monthKey h) l).
Proof.
  rewrite existsb_exists, in_map_iff.
  split; intros (tx & H1 & H2).
  - apply String.eqb_eq in H2. eauto.
  - exists tx. split; auto. now apply String.eqb_eq.
Qed.

Lemma In_rows_iff (h : Host) (l : list Transaction) (r : MonthRow) :
  In r (groupTransactionsByMonth h l) <->
  exists k, In k (map (monthKey h) l) /\ r = rowOf h l k.
Proof.
  unfold groupTransactionsByMonth. fold (monthly h l).
  rewrite In_sort. unfold Obj.values. rewrite in_map_iff. split.
  - intros ([k r'] & <- & Hin).
    apply In_entries in Hin; [|apply wf_monthly].
    rewrite get_monthly in Hin.
    destruct (existsb _ l) eqn:Ex; [|discriminate].
    injection Hin as <-. exists k. split; auto. now apply key_occurs.
  - intros (k & Hk & ->). exists (k, rowOf h l k). split; auto.
    apply In_entries; [apply wf_monthly|].
    rewrite get_monthly. apply key_occurs in Hk. now rewrite Hk.
Qed.

Lemma row_names (h : Host) (l : list Transaction) :
  NoDup (map mr_name (groupTransactionsByMonth h l)).
Proof.
  unfold groupTransactionsByMonth. fold (monthly h l).
  apply (Permutation_NoDup
           (Permutation_sym (Permutation_map mr_name (sort_perm _ _)))).
  unfold Obj.values. rewrite map_map.
  assert (Hext : map (fun p => mr_name (snd p)) (Obj.entries (monthly h l)) =
                 map fst (Obj.entries (monthly h l))).
  { apply map_ext_in. intros [k r] Hin.
    apply In_entries in Hin; [|apply wf_monthly].
    rewrite get_monthly in Hin.
    destruct (existsb _ l); [|discriminate]. now injection Hin as <-. }
  rewrite Hext.
  apply (Permutation_NoDup
           (Permutation_sym
              (Permutation_map fst (entries_perm _ (wf_monthly h l))))).
  apply wf_monthly.
Qed.

(** X4. On every host the monthly series has exactly one row for each
    month key that occurs among the transactions, and no other: the row
    carries the key as its name, the sum of the amounts of the INCOME
    transactions of that key and the sum of the amounts of the EXPENSE
    transactions of that key; no two rows share a name. *)
Theorem groupTransactionsByMonth_rows :
  forall (h : Host) (l : list Transaction),
    NoDup (map mr_name (groupTransactionsByMonth h l)) /\
    forall r : MonthRow,
      In r (groupTransactionsByMonth h l) <->
      exists k : string, In k (map (monthKey h) l) /\ r = rowOf h l k.
Proof.
  intros h l. split.
  - apply row_names.
  - intros r. apply In_rows_iff.
Qed.

End SeriesFacts.

(* ================================================================= *)
(** ** The dashboard statistics *)

Module StatsFacts.

Import JsDate App Sample Vocab.
Import NumFacts ListFacts ObjFacts ArrFacts TotalsFacts SpendFacts.
Import SavingsFacts OrderFacts CatalogFacts SliceFacts.

(** *** The highest income *)

Lemma leb_refl_finite (x : number) : isFinite x = true -> leb x x = true.
Proof. intros [a ->]%finite_inv. apply leb_Fin. apply Qcle_refl. Qed.

Lemma max2_finite (x y : number) :
  isFinite x = true -> isFinite y = true ->
  max2 x y = if ltb x y then y else x.
Proof.
  intros [a ->]%finite_inv [b ->]%finite_inv. unfold max2, ltb, cmp.
  now destruct (a ?= b)%Qc.
Qed.

Lemma fold_max2 (l : list number) (a : number) :
  Forall (fun x => isFinite x = true) l -> isFinite a = true ->
  let m := fold_left max2 l a in
  isFinite m = true /\ (m = a \/ In m l) /\ leb a m = true /\
  Forall (fun x => leb x m = true) l.
Proof.
  intros Hl. revert a. induction Hl as [|x l Hx Hl IH]; intros a Ha; simpl.
  - repeat split; auto using leb_refl_finite.
  - assert (Hstep : isFinite (max2 a x) = true /\
                    (max2 a x = a \/ max2 a x = x) /\
                    leb a (max2 a x) = true /\ leb x (max2 a x) = true).
    { rewrite max2_finite by assumption.
      destruct (ltb a x) eqn:E; repeat split;
        auto using leb_refl_finite, ltb_leb, ltb_false_leb. }
    destruct Hstep as (Hf & Hor & Hle_a & Hle_x).
    destruct (IH _ Hf) as (Hfm & Hin & Hle & Hall).
    assert (Hfin_all : forall y, In y l -> isFinite y = true)
      by now apply Forall_forall.
    repeat split; auto.
    + destruct Hin as [Hin|Hin]; auto.
      destruct Hor as [Hor|Hor]; rewrite Hin, Hor; auto.
    + now apply (leb_trans _ (max2 a x)).
    + constructor; auto. now apply (leb_trans _ (max2 a x)).
Qed.

Lemma mathMax_cons (x : number) (l : list number) :
  isFinite x = true -> mathMax (x :: l) = fold_left max2 l x.
Proof. intros [a ->]%finite_inv. reflexivity. Qed.

(** X6. With finite amounts, the highest income of the dashboard is [0]
    when there is no INCOME transaction; otherwise it is the amount of one
    of the INCOME transactions and no INCOME amount is above it. *)
Theorem highestIncome_spec :
  forall (h : Host) (l : list Transaction),
    Forall finiteAmount l ->
    let top := highestIncome (getDashboardStats h l) in
    (incomeAmounts l = [] -> top = zero) /\
    (incomeAmounts l <> [] ->
     In top (incomeAmounts l) /\
     Forall (fun a => leb a top = true) (incomeAmounts l)).
Proof.
  intros h l Hfin top.
  assert (Htop : top = match filter (fun tx => isIncome (tx_type tx)) l with
                       | [] => zero
                       | _ :: _ => mathMax (incomeAmounts l)
                       end) by reflexivity.
  assert (Hinc : Forall (fun x => isFinite x = true) (incomeAmounts l)).
  { apply Forall_map. apply Forall_forall. intros tx [Hin _]%filter_In.
    rewrite Forall_forall in Hfin. now apply Hfin. }
  unfold incomeAmounts in *.
  destruct (filter (fun tx => isIncome (tx_type tx)) l) as [|tx0 rest].
  - split; [auto|]. intros H. now contradiction H.
  - split; [discriminate|]. intros _. rewrite Htop. clear Htop.
    simpl map in *.
    inversion Hinc as [|? ? Hx Hrest]; subst.
    rewrite mathMax_cons by assumption.
    destruct (fold_max2 _ _ Hrest Hx) as (_ & Hin & Hle & Hall).
    split.
    + destruct Hin as [->|Hin]; [now left|now right].
    + now constructor.
Qed.

Lemma highestIncome_spec_witness :
  (incomeAmounts with_unknown_category = [] ->
   highestIncome
     (getDashboardStats (strictHost cairo mid_march_2024)
        with_unknown_category) = zero) /\
  (incomeAmounts with_unknown_category <> [] ->
   In (highestIncome
         (getDashboardStats (strictHost cairo mid_march_2024)
            with_unknown_category))
      (incomeAmounts with_unknown_category) /\
   Forall (fun a =>
             leb a (highestIncome
                      (getDashboardStats (strictHost cairo mid_march_2024)
                         with_unknown_category)) = true)
     (incomeAmounts with_unknown_category)).
Proof.
  apply (highestIncome_spec (strictHost cairo mid_march_2024)
           with_unknown_category).
  repeat constructor.
Defined.

(** *** The largest spending category *)

Lemma displayName_not_sentinel (k : string) : displayName k <> "لا يوجد".
Proof.
  unfold displayName.
  destruct (getCategoryById k) as [c|] eqn:G; [|discriminate].
  apply getCategoryById_In in G. simpl in G.
  repeat (destruct G as [<-|G]; [discriminate|]).
  contradiction.
Qed.

Lemma entries_not_nil {V : Type} (o : Obj.t V) (k : string) (v : V) :
  Obj.wf o -> Obj.get o k = Some v -> Obj.entries o <> [].
Proof.
  intros Hwf G E. apply (In_entries o k v Hwf) in G.
  rewrite E in G. contradiction.
Qed.

Lemma spending_not_nil (e : list Transaction) :
  e <> [] -> Obj.entries (spending e) <> [].
Proof.
  destruct e as [|tx e] using rev_ind; [congruence|]. intros _.
  rewrite spending_snoc. unfold spendStep.
  eapply entries_not_nil.
  - apply wf_set, wf_spending.
  - apply get_set_same.
Qed.

(** X7. When no category id of the expenses is a name that the
    accumulator inherits, the largest spending category of the dashboard is
    the text that stands for none exactly when the collection has no
    EXPENSE transaction: as soon as there is one, it is the name of a
    category or the text that stands for an unknown id. *)
Theorem largestSpendingCategory_none :
  forall (h : Host) (l : list Transaction),
    plainIds (expensesOf l) ->
    largestSpendingCategory (getDashboardStats h l) = "لا يوجد" <->
    expensesOf l = [].
Proof.
  intros h l _. rewrite largest_unfold. fold (expensesOf l).
  destruct (expensesOf l) as [|tx0 rest] eqn:E.
  - split; reflexivity.
  - rewrite <- E.
    assert (Hne : expensesOf l <> []) by (rewrite E; discriminate).
    pose proof (spending_not_nil _ Hne) as Hent.
    pose proof (sort_perm (fun x y : string * number => sub (snd y) (snd x))
                  (Obj.entries (spending (expensesOf l)))) as Hperm.
    destruct (Arr.sort _ (Obj.entries (spending (expensesOf l))))
      as [|e S'].
    + apply Permutation_nil in Hperm. contradiction.
    + split; [|congruence]. intros H.
      now apply displayName_not_sentinel in H.
Qed.

Lemma largestSpendingCategory_none_witness :
  largestSpendingCategory
    (getDashboardStats (strictHost cairo mid_march_2024)
       with_unknown_category) = "لا يوجد" <->
  expensesOf with_unknown_category = [].
Proof.
  apply (largestSpendingCategory_none (strictHost cairo mid_march_2024)
           with_unknown_category).
  unfold plainIds. simpl. repeat constructor.
Defined.

(** X8. With finite amounts, at least one EXPENSE transaction and no
    category id of the expenses that is a name the accumulator inherits,
    the largest spending category of the dashboard is the display name of a
    category id that occurs among the expenses and whose expense total is
    not below that of any other category id. *)
Theorem largestSpendingCategory_max :
  forall (h : Host) (l : list Transaction),
    Forall finiteAmount l ->
    plainIds (expensesOf l) ->
    expensesOf l <> [] ->
    exists k : string,
      In k (map categoryId (expensesOf l)) /\
      largestSpendingCategory (getDashboardStats h l) = displayName k /\
      forall k' : string,
        In k' (map categoryId (expensesOf l)) ->
        leb (spentOn (expensesOf l) k') (spentOn (expensesOf l) k) = true.
Proof.
  intros h l Hfin _ Hne. rewrite largest_unfold. fold (expensesOf l).
  set (expenses := expensesOf l) in *.
  assert (Hfe : Forall finiteAmount expenses).
  { apply Forall_forall. intros tx [Hin _]%filter_In.
    rewrite Forall_forall in Hfin. auto. }
  destruct expenses as [|tx0 rest] eqn:Eexp; [congruence|].
  rewrite <- Eexp in *. clear Eexp tx0 rest.
  set (E := Obj.entries (spending expenses)).
  pose proof (sort_descending (@snd string number) E) as Hsorted.
  pose proof (sort_perm (fun x y : string * number => sub (snd y) (snd x)) E)
    as Hperm.
  assert (HfinE : Forall (fun a => isFinite (snd a) = true) E).
  { apply Forall_forall. intros [k' v'] Hin.
    apply spending_entry in Hin; auto. destruct Hin as [_ ->].
    now apply spentOn_finite. }
  specialize (Hsorted HfinE).
  destruct (Arr.sort _ E) as [|[k0 v0] S'] eqn:ES.
  - apply Permutation_nil in Hperm.
    now apply (spending_not_nil expenses) in Hne.
  - assert (H0 : In (k0, v0) E).
    { apply (Permutation_in _ Hperm). now left. }
    apply spending_entry in H0; auto. destruct H0 as [Hk0 ->].
    exists k0. split; [assumption|]. split; [reflexivity|].
    intros k' Hk'.
    assert (Hin : In (k', spentOn expenses k') E)
      by (apply spending_entry; auto).
    apply (Permutation_in _ (Permutation_sym Hperm)) in Hin.
    destruct Hin as [Heq|Hin].
    + injection Heq as <- _. apply leb_refl_finite.
      now apply spentOn_finite.
    + inversion Hsorted as [|? ? _ Hall]; subst.
      rewrite Forall_forall in Hall. exact (Hall _ Hin).
Qed.

Lemma largestSpendingCategory_max_witness :
  exists k : string,
    In k (map categoryId (expensesOf with_unknown_category)) /\
    largestSpendingCategory
      (getDashboardStats (strictHost cairo mid_march_2024)
         with_unknown_category) = displayName k /\
    forall k' : string,
      In k' (map categoryId (expensesOf with_unknown_category)) ->
      leb (spentOn (expensesOf with_unknown_category) k')
          (spentOn (expensesOf with_unknown_category) k) = true.
Proof.
  apply (largestSpendingCategory_max (strictHost cairo mid_march_2024)
           with_unknown_category).
  - repeat constructor.
  - unfold plainIds. simpl. repeat constructor.
  - discriminate.
Defined.

End StatsFacts.

(* ================================================================= *)
(** ** The budget alerts and the progress bars *)

Module AlertFacts.

Import JsDate App Provider Pages Sample Vocab.
Import NumFacts ListFacts ObjFacts ArrFacts SpendFacts BudgetFacts.
Import SavingsFacts OrderFacts StatsFacts.

Section Sorted.
Context {A : Type} (key : A -> number).





End Sorted.



(** *** What a row shows *)

Lemma over_limit (b s : Qc) :
  (Q2Qc 0 < b)%Qc ->
  (Q2Qc (inject_Z 100) < s / b * Q2Qc (inject_Z 100))%Qc <-> (b < s)%Qc.
Proof.
  unfold Qclt, Qcdiv, Qcmult, Qcplus, Qcopp, Qcinv.
  cbn [this Q2Qc]. rewrite !Qred_correct. intros Hb.
  assert (Hinv : (0 < / b)%Q) by now apply Qinv_lt_0_compat.
  assert (Hone : (this b * / this b == 1)%Q).
  { apply Qmult_inv_r. intros H. rewrite H in Hb. now apply Qlt_irrefl in Hb. }
  change (inject_Z 100) with (100 # 1)%Q.
  generalize dependent (/ this b)%Q. intros x Hx Hone.
  generalize dependent (this b). generalize dependent (this s).
  intros c a Ha Hone. split; intros H.
  - assert (H1 : (1 < c * x)%Q) by nra. nra.
  - assert (H1 : (1 < c * x)%Q) by nra. nra.
Qed.

Lemma below_zero (b s : Qc) : (b + - s < Q2Qc 0)%Qc <-> (b < s)%Qc.
Proof.
  unfold Qclt, Qcplus, Qcopp. cbn [this Q2Qc]. rewrite !Qred_correct.
  generalize (this b) (this s). intros x y. split; intros H; lra.
Qed.


(** The shape of a row of the budget status: a limit that is positive, a
    finite amount spent. *)
Lemma row_shape (h : Host) (transactions : list Transaction)
  (budgets : Obj.t number) (r : BudgetRow) :
  Forall finiteAmount transactions ->
  In r (budgetStatus h transactions budgets) ->
  exists s : Qc,
    spentAmount r = Fin s /\
    spentAmount r =
      spentOn (currentMonthExpenses h transactions) (bs_categoryId r) /\
    ((exists b : Qc,
         (Q2Qc 0 < b)%Qc /\ budgetAmount r = Fin b /\
         percentage r = Fin (s / b * Q2Qc (inject_Z 100)) /\
         remaining r = Fin (b + - s)) \/
     (budgetAmount r = PInf /\ percentage r = Fin (Q2Qc 0 * Q2Qc (inject_Z 100))
      /\ remaining r = PInf)).
Proof.
  intros Hfin Hin.
  destruct (row_matches h transactions budgets Hfin r Hin)
    as (limit & _ & Hpos & Hb & Hs & Hp & Hr).
  assert (Hfs : isFinite (spentAmount r) = true).
  { rewrite Hs. apply spentOn_finite. now apply finite_current. }
  apply finite_inv in Hfs. destruct Hfs as [s Hfs].
  exists s. split; [assumption|]. split; [exact Hs|].
  rewrite Hfs in Hp, Hr.
  destruct limit as [b| | |]; try discriminate.
  - left. exists b. apply ltb_Fin in Hpos.
    split; [exact Hpos|]. split; [assumption|].
    rewrite Hp, Hr. unfold div, mul, sub, neg, add, ofZ.
    rewrite Qc_eq_bool_false
      by (intros ->; now apply Qclt_irrefl in Hpos).
    split; reflexivity.
  - right. rewrite Hb, Hp, Hr. repeat split.
Qed.

(** X11. With finite amounts, a row of the budget status is shown as
    exceeded exactly when more was spent than the limit, which is exactly
    when its [remaining] is below zero; the amount of the message is then
    what was spent beyond the limit. *)
Theorem isExceeded_spec :
  forall (h : Host) (transactions : list Transaction)
         (budgets : Obj.t number) (r : BudgetRow),
    Forall finiteAmount transactions ->
    In r (budgetStatus h transactions budgets) ->
    isExceeded r = gtb (spentAmount r) (budgetAmount r) /\
    isExceeded r = ltb (remaining r) zero /\
    (isExceeded r = true ->
     exceededBy r = sub (spentAmount r) (budgetAmount r)).
Proof.
  intros h transactions budgets r Hfin Hin.
  destruct (row_shape h transactions budgets r Hfin Hin)
    as (s & Hs & _ & [(b & Hpos & Hb & Hp & Hr)|(Hb & Hp & Hr)]);
    unfold isExceeded, exceededBy; rewrite Hs, Hb, Hp, Hr.
  - assert (H1 : gtb (Fin (s / b * Q2Qc (inject_Z 100))) (ofZ 100) =
                 gtb (Fin s) (Fin b)).
    { apply eq_iff_eq_true. unfold gtb, ofZ. rewrite !ltb_Fin.
      now apply over_limit. }
    assert (H2 : gtb (Fin s) (Fin b) = ltb (Fin (b + - s)) zero).
    { apply eq_iff_eq_true. unfold gtb, zero, ofZ.
      change (Q2Qc (inject_Z 0)) with (Q2Qc 0). rewrite !ltb_Fin.
      symmetry. apply below_zero. }
    split; [exact H1|]. split; [now rewrite H1|].
    rewrite H1, H2. intros Hneg. unfold abs. rewrite Hneg.
    unfold sub, neg, add. f_equal. ring.
  - repeat split. discriminate.
Qed.

Lemma isExceeded_spec_witness :
  isExceeded foodExceeded = gtb (spentAmount foodExceeded)
                              (budgetAmount foodExceeded) /\
  isExceeded foodExceeded = ltb (remaining foodExceeded) zero /\
  (isExceeded foodExceeded = true ->
   exceededBy foodExceeded =
     sub (spentAmount foodExceeded) (budgetAmount foodExceeded)).
Proof.
  apply (isExceeded_spec (strictHost cairo mid_march_2024) march_food_1500
           food1000).
  - repeat constructor.
  - vm_compute. left. f_equal; apply Fin_canon; reflexivity.
Defined.




End AlertFacts.

(* ================================================================= *)
(** ** The budgets that the settings page stores *)

Module SettingsFacts.

Import JsDate App Provider Pages Sample Vocab.
Import NumFacts ListFacts ObjFacts ArrFacts SpendFacts BudgetFacts.
Import OrderFacts SliceFacts.

Section Dict.
Context {V : Type}.
Implicit Types (o : Obj.t V) (k : string).

Lemma wf_spread o : Obj.wf o -> Obj.wf (Obj.spread o).
Proof.
  intros Hwf. unfold Obj.wf, Obj.spread.
  apply (Permutation_NoDup
           (Permutation_sym (Permutation_map fst (entries_perm o Hwf)))).
  exact Hwf.
Qed.

(** The copy has the properties of the original. *)
Lemma get_spread o k : Obj.wf o -> Obj.get (Obj.spread o) k = Obj.get o k.
Proof.
  intros Hwf. destruct (Obj.get o k) as [v|] eqn:G.
  - apply In_get; [now apply wf_spread|].
    unfold Obj.spread. now apply In_entries.
  - apply get_None. intros Hin. apply get_None in G. apply G.
    apply (Permutation_in _ (Permutation_map fst (entries_perm o Hwf))).
    exact Hin.
Qed.

Lemma keys_delete o k :
  map fst (Obj.delete o k) =
  filter (fun k' => negb (String.eqb k k')) (map fst o).
Proof.
  induction o as [|[k' v'] o IH]; simpl; auto.
  destruct (String.eqb k k'); simpl; now rewrite IH.
Qed.

Lemma wf_delete o k : Obj.wf o -> Obj.wf (Obj.delete o k).
Proof.
  unfold Obj.wf. rewrite keys_delete. apply NoDup_filter.
Qed.

End Dict.

Lemma wf_setBudget (k : string) (amount : number) (prev : Obj.t number) :
  Obj.wf prev -> Obj.wf (setBudget k amount prev).
Proof.
  intros Hwf. unfold setBudget.
  destruct (ltb amount zero); auto.
  destruct (strictEq amount zero);
    auto using wf_delete, wf_set, wf_spread.
Qed.

Lemma get_setBudget_other (k k' : string) (amount : number)
  (prev : Obj.t number) :
  Obj.wf prev -> k' <> k ->
  Obj.get (setBudget k amount prev) k' = Obj.get prev k'.
Proof.
  intros Hwf Hne. unfold setBudget.
  destruct (ltb amount zero); auto.
  destruct (strictEq amount zero).
  - rewrite get_delete_other by assumption. now apply get_spread.
  - rewrite get_set_other by assumption. now apply get_spread.
Qed.

Lemma positive_not_zero (amount : number) :
  ltb zero amount = true ->
  ltb amount zero = false /\ strictEq amount zero = false.
Proof.
  unfold ltb, strictEq. rewrite (cmp_sym zero amount).
  destruct (cmp zero amount) as [[]|]; try discriminate. auto.
Qed.



(** *** What [handleSetBudget] stores *)

(** The amount that [handleSetBudget] passes on is never [NaN]: it is
    below zero, zero, or above zero. *)
Lemma orElse_cases (x : number) :
  ltb (orElse x zero) zero = true \/
  strictEq (orElse x zero) zero = true \/
  ltb zero (orElse x zero) = true.
Proof.
  unfold orElse. destruct x as [a| | |]; simpl; auto.
  destruct (Qc_eq_bool a (Q2Qc 0)); simpl; auto.
  unfold ltb, strictEq, zero, ofZ, cmp.
  change (Q2Qc (inject_Z 0)) with (Q2Qc 0).
  destruct (Qccompare_cases a (Q2Qc 0)) as [Heq|Hlt|Hgt]; auto.
  right. right.
  destruct (Qccompare_cases (Q2Qc 0) a) as [Heq'|Hlt'|Hgt']; auto.
  - subst a. now apply Qclt_irrefl in Hgt.
  - exfalso. exact (Qclt_asym _ _ Hgt Hgt').
Qed.

Lemma positiveLimits_get (budgets : Obj.t number) :
  Obj.wf budgets ->
  positiveLimits budgets <->
  (forall k v, Obj.get budgets k = Some v -> ltb zero v = true).
Proof.
  intros Hwf. unfold positiveLimits. rewrite Forall_forall. split.
  - intros H k v G. apply get_In in G. exact (H _ G).
  - intros H [k v] Hin. apply (H k). now apply In_get.
Qed.

Section Parsing.
Variable parseFloat : string -> number.

(** X14. Through the settings page only limits above zero are stored:
    whatever text is typed and whatever [parseFloat] makes of it, if the
    configuration has distinct keys and limits above zero before
    [handleSetBudget], it has them after; the category keeps its limit (a
    negative amount), loses it (zero or a text that is not a number), or
    gets the amount typed. *)
Theorem handleSetBudget_keeps_limits_positive :
  forall (category : Category) (amount : string) (prev : Obj.t number),
    Obj.wf prev -> positiveLimits prev ->
    let next := handleSetBudget parseFloat category amount prev in
    Obj.wf next /\ positiveLimits next /\
    (Obj.get next (cat_id category) = Obj.get prev (cat_id category) \/
     Obj.get next (cat_id category) = None \/
     Obj.get next (cat_id category) = Some (parseFloat amount)).
Proof.
  intros category amount prev Hwf Hpos next.
  assert (Hwf' : Obj.wf next) by now apply wf_setBudget.
  split; [exact Hwf'|]. split.
  - apply positiveLimits_get; [exact Hwf'|]. intros k v G.
    destruct (string_dec k (cat_id category)) as [->|Hne].
    + unfold next, handleSetBudget, setBudget in G.
      destruct (orElse_cases (parseFloat amount)) as [Hlt|[Heq|Hgt]].
      * rewrite Hlt in G.
        exact (proj1 (positiveLimits_get prev Hwf) Hpos _ _ G).
      * destruct (ltb (orElse (parseFloat amount) zero) zero).
        -- exact (proj1 (positiveLimits_get prev Hwf) Hpos _ _ G).
        -- rewrite Heq, get_delete_same in G. discriminate.
      * destruct (positive_not_zero _ Hgt) as [H1 H2].
        rewrite H1, H2, get_set_same in G. now injection G as <-.
    + unfold next, handleSetBudget in G.
      rewrite get_setBudget_other in G by assumption.
      exact (proj1 (positiveLimits_get prev Hwf) Hpos _ _ G).
  - unfold next, handleSetBudget, setBudget.
    destruct (orElse_cases (parseFloat amount)) as [Hlt|[Heq|Hgt]].
    + rewrite Hlt. now left.
    + destruct (ltb (orElse (parseFloat amount) zero) zero); [now left|].
      rewrite Heq, get_delete_same. right. now left.
    + destruct (positive_not_zero _ Hgt) as [H1 H2].
      rewrite H1, H2, get_set_same. right. right. f_equal.
      unfold orElse in *. destruct (truthy (parseFloat amount)); auto.
      discriminate.
Qed.

End Parsing.

Lemma handleSetBudget_keeps_limits_positive_witness :
  Obj.wf (handleSetBudget (fun _ => NaN)
            {| cat_id := "food"; cat_name := "طعام";
               cat_color := "#ef4444" |} "abc" food1000) /\
  positiveLimits
    (handleSetBudget (fun _ => NaN)
       {| cat_id := "food"; cat_name := "طعام"; cat_color := "#ef4444" |}
       "abc" food1000) /\
  (Obj.get (handleSetBudget (fun _ => NaN)
              {| cat_id := "food"; cat_name := "طعام";
                 cat_color := "#ef4444" |} "abc" food1000) "food" =
     Obj.get food1000 "food" \/
   Obj.get (handleSetBudget (fun _ => NaN)
              {| cat_id := "food"; cat_name := "طعام";
                 cat_color := "#ef4444" |} "abc" food1000) "food" = None \/
   Obj.get (handleSetBudget (fun _ => NaN)
              {| cat_id := "food"; cat_name := "طعام";
                 cat_color := "#ef4444" |} "abc" food1000) "food" =
     Some NaN).
Proof.
  apply (handleSetBudget_keeps_limits_positive (fun _ => NaN)
           {| cat_id := "food"; cat_name := "طعام"; cat_color := "#ef4444" |}
           "abc" food1000).
  - unfold Obj.wf. simpl. repeat constructor. simpl. tauto.
  - repeat constructor.
Defined.

Lemma filter_all {A : Type} (keep : A -> bool) (l : list A) :
  (forall x, In x l -> keep x = true) -> filter keep l = l.
Proof.
  induction l as [|x l IH]; simpl; auto. intros H.
  rewrite (H x) by now left. f_equal. apply IH. intros y Hy. apply H.
  now right.
Qed.

(** X15. When the configuration has distinct keys and limits above zero,
    as the settings page leaves it, the budget status has one row for each
    stored category and no other, whatever the transactions and the
    host. *)
Theorem budgetStatus_one_row_per_budget :
  forall (h : Host) (transactions : list Transaction)
         (budgets : Obj.t number),
    Obj.wf budgets -> positiveLimits budgets ->
    Permutation (map bs_categoryId (budgetStatus h transactions budgets))
                (map fst budgets).
Proof.
  intros h transactions budgets Hwf Hpos.
  rewrite (rows_ids_perm h transactions budgets).
  apply Permutation_refl'. apply filter_all.
  intros k Hk. unfold limitPositive.
  destruct (Obj.get budgets k) as [v|] eqn:G.
  - exact (proj1 (positiveLimits_get budgets Hwf) Hpos _ _ G).
  - apply get_None in G. contradiction.
Qed.

Lemma budgetStatus_one_row_per_budget_witness :
  Permutation
    (map bs_categoryId
       (budgetStatus (strictHost cairo mid_march_2024) march_expenses
          food1000))
    (map fst food1000).
Proof.
  apply (budgetStatus_one_row_per_budget (strictHost cairo mid_march_2024)
           march_expenses food1000).
  - unfold Obj.wf. simpl. repeat constructor. simpl. tauto.
  - repeat constructor.
Defined.

End SettingsFacts.

(* ================================================================= *)
(** ** Adding and deleting transactions *)

Module StoreFacts.

Import JsDate App Provider Pages Sample Vocab.
Import NumFacts ListFacts ObjFacts DateFacts TotalsFacts CatalogFacts.

(** *** The ids *)

Lemma showZ_no_sign (a b : Z) : "-" ++ showZ a <> showZ b.
Proof.
  unfold showZ. destruct (N.to_uint (Z.to_N b)); simpl; discriminate.
Qed.

Lemma nowString_inj (h h' : Host) :
  nowString h = nowString h' -> clock h = clock h'.
Proof.
  unfold nowString.
  destruct (clock h <? 0)%Z eqn:E; destruct (clock h' <? 0)%Z eqn:E';
    intros H.
  - injection H as H. apply showZ_inj in H; lia.
  - now apply showZ_no_sign in H.
  - symmetry in H. now apply showZ_no_sign in H.
  - apply showZ_inj in H; lia.
Qed.

Lemma delete_absent (id : string) (l : list Transaction) :
  ~ In id (map tx_id l) -> deleteTransaction true id l = l.
Proof.
  unfold deleteTransaction. induction l as [|tx l IH]; simpl; auto.
  intros H. destruct (String.eqb (tx_id tx) id) eqn:E.
  - apply String.eqb_eq in E. exfalso. apply H. now left.
  - simpl. f_equal. apply IH. intros Hin. apply H. now right.
Qed.

(** X16. Deleting a transaction that was just added gives back the
    collection as it was, provided no older transaction carries the id
    that the clock gave to the new one; a deletion that the user does not
    confirm changes nothing. *)
Theorem deleteTransaction_after_addTransaction :
  forall (h : Host) (transaction : Transaction) (prev : list Transaction),
    ~ In (nowString h) (map tx_id prev) ->
    deleteTransaction true (nowString h)
      (addTransaction h transaction prev) = prev /\
    deleteTransaction false (nowString h)
      (addTransaction h transaction prev) =
      addTransaction h transaction prev.
Proof.
  intros h transaction prev Hfresh. split; [|reflexivity].
  unfold addTransaction.
  change (deleteTransaction true (nowString h)
            (withId transaction (nowString h) :: prev))
    with (if negb (String.eqb (nowString h) (nowString h))
          then withId transaction (nowString h) ::
               deleteTransaction true (nowString h) prev
          else deleteTransaction true (nowString h) prev).
  rewrite String.eqb_refl. simpl. now apply delete_absent.
Qed.

Lemma deleteTransaction_after_addTransaction_witness :
  deleteTransaction true (nowString (strictHost cairo mid_march_2024))
    (addTransaction (strictHost cairo mid_march_2024)
       (tx EXPENSE "food" 10 "2024-03-10") march_income_expense) =
    march_income_expense /\
  deleteTransaction false (nowString (strictHost cairo mid_march_2024))
    (addTransaction (strictHost cairo mid_march_2024)
       (tx EXPENSE "food" 10 "2024-03-10") march_income_expense) =
    addTransaction (strictHost cairo mid_march_2024)
      (tx EXPENSE "food" 10 "2024-03-10") march_income_expense.
Proof.
  apply (deleteTransaction_after_addTransaction
           (strictHost cairo mid_march_2024)
           (tx EXPENSE "food" 10 "2024-03-10") march_income_expense).
  vm_compute. intros [H|[H|[]]]; discriminate H.
Defined.

(** X17. The id of a new transaction is the reading of the clock: two
    additions get the same id exactly when the clock reads the same
    millisecond, and then deleting by that id removes both. *)
Theorem addTransaction_ids :
  forall (h h' : Host) (t t' : Transaction) (prev : list Transaction),
    (map tx_id (addTransaction h' t' (addTransaction h t prev)) =
       nowString h' :: nowString h :: map tx_id prev) /\
    (nowString h = nowString h' <-> clock h = clock h') /\
    deleteTransaction true (nowString h)
      (addTransaction h t' (addTransaction h t prev)) =
      deleteTransaction true (nowString h) prev.
Proof.
  intros h h' t t' prev. split; [reflexivity|]. split.
  - split.
    + apply nowString_inj.
    + unfold nowString. now intros ->.
  - unfold addTransaction, deleteTransaction. simpl.
    now rewrite String.eqb_refl.
Qed.

(** *** Starting over *)

(** X19. [handleReset] does nothing unless the confirmation text is the
    word asked for; with that word the transactions and the budgets are
    emptied and the mark of the welcome screen is removed, so that the next
    start shows the welcome screen again, as it does until
    [handleWelcomeFinish] has stored the mark. *)
Theorem handleReset_spec :
  forall (confirmationText : string) (s : Store),
    (confirmationText <> "حذف" -> handleReset confirmationText s = s) /\
    st_transactions (handleReset "حذف" s) = [] /\
    st_budgets (handleReset "حذف" s) = [] /\
    showWelcome (hasSeenWelcome (handleReset "حذف" s)) = true /\
    showWelcome (handleWelcomeFinish (hasSeenWelcome s)) = false.
Proof.
  intros confirmationText s.
  split; [|split; [|split; [|split]]]; try reflexivity.
  intros Hne. unfold handleReset, isButtonDisabled.
  apply String.eqb_neq in Hne. now rewrite Hne.
Qed.

(** *** The entry form *)

Lemma firstId_In (f : Form) (newType : TransactionType) :
  In (f_categoryId (handleTypeChange newType f))
     (map cat_id (categories (handleTypeChange newType f))).
Proof. destruct newType; simpl; auto. Qed.

(** The category selected in the form is one of the options shown. *)
Lemma formAfter_category (f f' : Form) (events : list FormEvent) :
  In (f_categoryId f) (map cat_id (categories f)) ->
  formAfter f events = Some f' ->
  In (f_categoryId f') (map cat_id (categories f')).
Proof.
  revert f. induction events as [|e events IH]; intros f Hf; simpl.
  - now intros [= <-].
  - destruct (offered f e) eqn:Eoff; [|discriminate].
    apply IH. destruct e as [newType|value|value|value|value]; simpl;
      try exact Hf.
    + apply firstId_In.
    + simpl in Eoff. apply existsb_exists in Eoff.
      destruct Eoff as (c & Hc & Heq). apply String.eqb_eq in Heq.
      subst value. now apply in_map.
Qed.

Lemma catalog_id_not_empty (c : Category) :
  In c allCategories -> isEmpty (cat_id c) = false.
Proof.
  unfold allCategories. simpl. intros H.
  repeat (destruct H as [<-|H]; [reflexivity|]). contradiction.
Qed.

Section Parsing.
Variable parseFloat : string -> number.

(** X20. Whatever the user does on the entry form (change the type, pick
    a category among the options, edit the inputs), a submission with an
    empty amount or an empty date adds nothing; otherwise it adds one
    transaction at the head of the collection, with the clock reading as
    id, and the category of that transaction is in the catalog list of its
    type: an EXPENSE never carries an income category or an unknown id. *)
Theorem handleSubmit_category :
  forall (today : string) (events : list FormEvent) (f : Form)
         (h : Host) (prev : list Transaction),
    formAfter (initialForm today) events = Some f ->
    (f_amount f = "" \/ f_date f = "" ->
     handleSubmit parseFloat h f prev = prev) /\
    (f_amount f <> "" -> f_date f <> "" ->
     exists (t : Transaction) (c : Category),
       handleSubmit parseFloat h f prev = t :: prev /\
       tx_id t = nowString h /\
       tx_type t = f_type f /\
       amount t = parseFloat (f_amount f) /\
       date t = f_date f /\
       getCategoryById (categoryId t) = Some c /\
       In c (if isIncome (tx_type t) then CATEGORIES_INCOME
             else CATEGORIES_EXPENSE)).
Proof.
  intros today events f h prev Hf. unfold handleSubmit, isEmpty. split.
  - intros [-> | ->]; simpl; auto. now rewrite !orb_true_r.
  - intros Ha Hd.
    assert (Hin : In (f_categoryId f) (map cat_id (categories f))).
    { apply (formAfter_category (initialForm today) f events); auto.
      simpl. auto. }
    apply in_map_iff in Hin. destruct Hin as (c & Hid & Hc).
    assert (Hall : In c allCategories).
    { unfold allCategories, categories in *. apply in_or_app.
      destruct (isIncome (f_type f)); auto. }
    apply String.eqb_neq in Ha, Hd. rewrite Ha, Hd.
    pose proof (catalog_id_not_empty c Hall) as Hne.
    unfold isEmpty in Hne. rewrite Hid in Hne. rewrite Hne. simpl.
    exists (withId (submitted parseFloat f) (nowString h)), c.
    repeat (split; [reflexivity|]). simpl. rewrite <- Hid. split.
    + now apply getCategoryById_catalog.
    + exact Hc.
Qed.

End Parsing.

Lemma handleSubmit_category_witness :
  (f_amount freelance_form = "" \/ f_date freelance_form = "" ->
   handleSubmit parseTwenty (strictHost cairo mid_march_2024)
     freelance_form [] = []) /\
  (f_amount freelance_form <> "" -> f_date freelance_form <> "" ->
   exists (t : Transaction) (c : Category),
     handleSubmit parseTwenty (strictHost cairo mid_march_2024)
       freelance_form [] = [t] /\
     tx_id t = nowString (strictHost cairo mid_march_2024) /\
     tx_type t = f_type freelance_form /\
     amount t = parseTwenty (f_amount freelance_form) /\
     date t = f_date freelance_form /\
     getCategoryById (categoryId t) = Some c /\
     In c (if isIncome (tx_type t) then CATEGORIES_INCOME
           else CATEGORIES_EXPENSE)).
Proof.
  apply (handleSubmit_category parseTwenty "2024-03-15" freelance_events
           freelance_form (strictHost cairo mid_march_2024) []).
  reflexivity.
Defined.

End StoreFacts.

(* ================================================================= *)
(** ** The order of the slices *)

Module SliceOrderFacts.

Import JsDate App Provider Pages Sample Vocab.
Import NumFacts ListFacts ObjFacts SpendFacts GroupFacts OrderFacts.
Import CatalogFacts SliceFacts SettingsFacts.

Lemma indexKeys_none (ks : list string) :
  (forall k, In k ks -> Obj.isIndex k = false) -> Obj.indexKeys ks = [].
Proof.
  induction ks as [|k ks IH]; simpl; auto. intros H.
  assert (Hk : Obj.isIndex k = false) by (apply H; now left).
  unfold Obj.isIndex in Hk.
  destruct (Obj.arrayIndex k); [discriminate|].
  apply IH. intros k' Hk'. apply H. now right.
Qed.

(** An object without array-index keys is enumerated in insertion
    order. *)
Lemma ownKeys_no_index {V : Type} (o : Obj.t V) :
  (forall k, In k (map fst o) -> Obj.isIndex k = false) ->
  Obj.ownKeys o = map fst o.
Proof.
  intros H. unfold Obj.ownKeys. rewrite indexKeys_none by assumption.
  simpl. apply filter_all. intros k Hk. now rewrite H.
Qed.

Lemma entries_no_index {V : Type} (o : Obj.t V) :
  Obj.wf o ->
  (forall k, In k (map fst o) -> Obj.isIndex k = false) ->
  Obj.entries o = o.
Proof.
  intros Hwf H. unfold Obj.entries. rewrite ownKeys_no_index by assumption.
  apply lookup_pairs. intros k v. now apply In_get.
Qed.

Lemma catalog_name_no_index (c : Category) :
  In c allCategories -> Obj.isIndex (cat_name c) = false.
Proof.
  unfold allCategories. simpl. intros H.
  repeat (destruct H as [<-|H]; [reflexivity|]). contradiction.
Qed.

Lemma seen_get {V : Type} (o : Obj.t V) (k : string) :
  existsb (String.eqb k) (map fst o) =
  match Obj.get o k with Some _ => true | None => false end.
Proof.
  induction o as [|[k' v'] o IH]; simpl; auto.
  destruct (String.eqb k k'); auto.
Qed.

Lemma keys_modify {V : Type} (o : Obj.t V) (k : string) (f : V -> V) :
  map fst (Obj.modify o k f) = map fst o.
Proof.
  unfold Obj.modify. destruct (Obj.get o k) as [v|] eqn:G; auto.
  now apply (keys_set_present o k (f v) v).
Qed.

Lemma keys_groupStep (acc : Obj.t Bucket) (tx : Transaction) :
  map fst (groupStep acc tx) =
  match getCategoryById (categoryId tx) with
  | Some c =>
      if existsb (String.eqb (cat_name c)) (map fst acc) then map fst acc
      else (map fst acc ++ [cat_name c])%list
  | None => map fst acc
  end.
Proof.
  unfold groupStep.
  destruct (getCategoryById (categoryId tx)) as [c|]; auto.
  rewrite !keys_modify, seen_get.
  destruct (Obj.get acc (cat_name c)) as [b|] eqn:G; auto.
  rewrite (set_absent _ _ _ G), map_app. reflexivity.
Qed.

Lemma keys_grouped (e : list Transaction) :
  map fst (grouped e) = distinct (resolvedNames e).
Proof.
  induction e as [|tx e IH] using rev_ind.
  - reflexivity.
  - rewrite grouped_snoc, keys_groupStep, IH.
    unfold distinct, resolvedNames. rewrite flat_map_app, fold_left_app.
    simpl. destruct (getCategoryById (categoryId tx)); simpl; auto.
Qed.

(** X21. The slices of [groupExpensesByCategory] come in the order in
    which their categories first occur among the EXPENSE transactions (no
    name of the catalog is an array index, so the enumeration of the
    grouping object follows insertion). *)
Theorem groupExpensesByCategory_order :
  forall l : list Transaction,
    map slice_name (groupExpensesByCategory l) =
    distinct (resolvedNames (expensesOf l)).
Proof.
  intros l. unfold groupExpensesByCategory. fold (expensesOf l).
  fold (grouped (expensesOf l)).
  rewrite entries_no_index.
  - rewrite map_map. rewrite (map_ext _ fst) by now intros [name data].
    apply keys_grouped.
  - apply wf_grouped.
  - intros k Hk. apply in_map_iff in Hk. destruct Hk as ([k' b] & <- & Hin).
    apply (In_get _ _ _ (wf_grouped _)) in Hin.
    destruct (grouped_keys _ _ _ Hin) as (c & Hc & <-).
    now apply catalog_name_no_index.
Qed.

End SliceOrderFacts.

(* ================================================================= *)
(** ** The order of the monthly series *)

Module SeriesOrderFacts.

Import JsDate App Provider Pages Sample Vocab.
Import NumFacts ListFacts ObjFacts ArrFacts DateFacts OrderFacts MonthlyFacts.
Import SliceFacts SeriesFacts SliceOrderFacts.

Lemma arrayIndex_head (c : ascii) (s : string) :
  digitZ c = None -> Obj.arrayIndex (String c s) = None.
Proof.
  unfold digitZ. intros Hc. unfold Obj.arrayIndex.
  destruct (Ascii.eqb c "0" && negb (String.eqb s EmptyString))%bool; auto.
  simpl. now destruct (Obj.digitVal c).
Qed.

(** A month label is not an array index. *)
Lemma label_no_index (h : Host) (d : Date) :
  Obj.isIndex (toLocaleMonthYear h d) = false.
Proof.
  destruct d as [t|]; [|reflexivity].
  unfold toLocaleMonthYear. destruct (localFields h t) as [[y m] dd].
  destruct (monthShort_head m) as (c & s & -> & Hc).
  unfold Obj.isIndex. cbn [append]. now rewrite arrayIndex_head.
Qed.

Lemma keys_monthStep (h : Host) (acc : Obj.t MonthRow) (tx : Transaction) :
  map fst (monthStep h acc tx) =
  if existsb (String.eqb (monthKey h tx)) (map fst acc) then map fst acc
  else (map fst acc ++ [monthKey h tx])%list.
Proof.
  unfold monthStep, monthKey.
  set (month := toLocaleMonthYear h (ofString h (date tx))).
  rewrite seen_get.
  destruct (isIncome (tx_type tx)); rewrite keys_modify;
    destruct (Obj.get acc month) as [r|] eqn:G; auto;
    rewrite (set_absent _ _ _ G), map_app; reflexivity.
Qed.

Lemma keys_monthly (h : Host) (l : list Transaction) :
  map fst (monthly h l) = distinct (map (monthKey h) l).
Proof.
  induction l as [|tx l IH] using rev_ind.
  - reflexivity.
  - rewrite monthly_snoc, keys_monthStep, IH.
    unfold distinct. rewrite map_app, fold_left_app. reflexivity.
Qed.

Lemma monthly_no_index (h : Host) (l : list Transaction) (k : string) :
  In k (map fst (monthly h l)) -> Obj.isIndex k = false.
Proof.
  intros Hk. apply in_map_iff in Hk. destruct Hk as ([k' r] & <- & Hin).
  apply (In_get _ _ _ (wf_monthly h l)) in Hin. simpl.
  rewrite get_monthly in Hin.
  destruct (existsb _ l) eqn:Ex; [|discriminate].
  apply key_occurs in Ex. apply in_map_iff in Ex.
  destruct Ex as (tx & <- & _). apply label_no_index.
Qed.

Lemma values_monthly_names (h : Host) (l : list Transaction) :
  map mr_name (Obj.values (monthly h l)) = map fst (monthly h l).
Proof.
  unfold Obj.values.
  rewrite entries_no_index;
    [|apply wf_monthly|intros k; apply monthly_no_index].
  rewrite map_map. apply map_ext_in. intros [k r] Hin.
  apply (In_get _ _ _ (wf_monthly h l)) in Hin.
  rewrite get_monthly in Hin.
  destruct (existsb _ l); [|discriminate]. now injection Hin as <-.
Qed.

(** X22. On an engine that does not tell the month labels of the
    collection apart (for each of them [new Date] gives the same time value,
    or [NaN] for all), the rows of the monthly series come in the order in
    which their months first occur among the transactions: the final sort,
    whose comparator parses the month labels, changes nothing. *)
Theorem groupTransactionsByMonth_order :
  forall (h : Host) (l : list Transaction),
    (forall t1 t2 : Transaction,
        In t1 l -> In t2 l ->
        ofString h (monthKey h t1) = ofString h (monthKey h t2)) ->
    map mr_name (groupTransactionsByMonth h l) =
    distinct (map (monthKey h) l).
Proof.
  intros h l Hsame.
  assert (Hsort : groupTransactionsByMonth h l = Obj.values (monthly h l)).
  { unfold groupTransactionsByMonth. fold (monthly h l).
    apply sort_no_positive. intros a b Ha Hb.
    assert (Hkey : forall r, In r (Obj.values (monthly h l)) ->
                   exists tx, In tx l /\ mr_name r = monthKey h tx).
    { intros r Hr. unfold Obj.values in Hr. apply in_map_iff in Hr.
      destruct Hr as ([k r'] & <- & Hin).
      apply In_entries in Hin; [|apply wf_monthly].
      rewrite get_monthly in Hin.
      destruct (existsb _ l) eqn:Ex; [|discriminate].
      injection Hin as <-. apply key_occurs in Ex.
      apply in_map_iff in Ex. destruct Ex as (tx & <- & Htx).
      exists tx. split; auto. }
    destruct (Hkey a Ha) as (ta & Hta & Ea).
    destruct (Hkey b Hb) as (tb & Htb & Eb).
    unfold byLabelTime. rewrite Ea, Eb, (Hsame tb ta Htb Hta).
    apply sub_self_not_positive. }
  rewrite Hsort, values_monthly_names. apply keys_monthly.
Qed.

Lemma groupTransactionsByMonth_order_witness :
  map mr_name
    (groupTransactionsByMonth (lenientHost cairo mid_march_2024)
       march_jan_feb) =
  distinct (map (monthKey (lenientHost cairo mid_march_2024)) march_jan_feb).
Proof.
  apply (groupTransactionsByMonth_order (lenientHost cairo mid_march_2024)
           march_jan_feb).
  intros t1 t2 H1 H2. simpl in H1, H2.
  destruct H1 as [<-|[<-|[<-|[]]]]; destruct H2 as [<-|[<-|[<-|[]]]];
    reflexivity.
Defined.

End SeriesOrderFacts.

(* ================================================================= *)
(** ** Unknown categories in the grouping, and rounding *)

Module RoundingFacts.

Import JsDate App Sample Vocab.
Import NumFacts ListFacts ObjFacts TotalsFacts GroupFacts SliceFacts.








(** On binary64 numbers the totals depend on the order of the collection:
    the incomes 0.1, 0.2, 0.3 add up to 0.6000000000000001 in this order
    and to 0.6 in the opposite order. *)
Example totals_depend_on_order :
  Binary64.income (Binary64.calculateTotals tenths) =
    0.6000000000000001%float /\
  Binary64.income (Binary64.calculateTotals (rev tenths)) = 0.6%float /\
  Binary64.income (Binary64.calculateTotals tenths) <>
    Binary64.income (Binary64.calculateTotals (rev tenths)).
Proof.
  repeat split; try (vm_compute; reflexivity).
  intros H.
  apply (f_equal (fun x => PrimFloat.eqb x 0.6%float)) in H.
  vm_compute in H. discriminate H.
Qed.

End RoundingFacts.

(* ================================================================= *)
(** ** The current calendar month, at or east of UTC *)

Module CalendarFacts.

Import JsDate App Sample Vocab.
Import NumFacts ListFacts ObjFacts ArrFacts DateFacts TotalsFacts.
Import SpendFacts BudgetStoreFacts BudgetFacts SavingsFacts ClockFacts.

(** At or east of UTC the month filter of the code is the month rule of
    the specification on the dates of the form [YYYY-MM-DD]. *)
Lemma inCurrentMonth_calendar (h : Host) (tx : Transaction) :
  eastOfUtc h -> isoDated tx = true ->
  inCurrentMonth h tx = inCalendarMonth h tx.
Proof.
  unfold eastOfUtc, isoDated. intros Hoff Hiso.
  destruct (parseIsoDate (date tx)) as [[[y m] d]|] eqn:Hparse;
    [|discriminate].
  destruct (parseIsoDate_valid _ _ _ _ Hparse) as [Hm Hd].
  apply eq_iff_eq_true.
  unfold inCurrentMonth, getMonth, getFullYear, now, ofString,
    inCalendarMonth, datedIn.
  rewrite Hparse. rewrite localFields_date by assumption.
  destruct (localFields h (clock h)) as [[cy cm] cd].
  rewrite !andb_true_iff, !strictEq_ofZ, !Z.eqb_eq. lia.
Qed.

Lemma filter_same {A : Type} (f g : A -> bool) (l : list A) :
  Forall (fun x => f x = g x) l -> filter f l = filter g l.
Proof.
  induction 1 as [|x l Hx _ IH]; simpl; auto. now rewrite Hx, IH.
Qed.

Section Month.
Variables (h : Host) (l : list Transaction).
Hypothesis east : eastOfUtc h.
Hypothesis iso : Forall (fun tx => isoDated tx = true) l.

Lemma same_filter : Forall (fun tx => inCurrentMonth h tx =
                                      inCalendarMonth h tx) l.
Proof.
  apply Forall_forall. intros tx Htx. apply inCurrentMonth_calendar; auto.
  rewrite Forall_forall in iso. auto.
Qed.

Lemma currentMonth_calendar :
  filter (inCurrentMonth h) l = calendarMonthTransactions h l.
Proof. apply filter_same, same_filter. Qed.

Lemma currentMonthExpenses_calendar :
  currentMonthExpenses h l = calendarMonthExpenses h l.
Proof.
  apply filter_same. apply Forall_forall. intros tx Htx.
  pose proof same_filter as H. rewrite Forall_forall in H.
  now rewrite (H tx Htx).
Qed.

End Month.

(** X26. On a host at or east of UTC, with dates of the form [YYYY-MM-DD],
    finite amounts, and a budget mapping whose limits are finite and whose
    keys are distinct and are not names that the accumulator inherits: the
    budget status has exactly one row for each category id whose limit is
    greater than zero and none for the others; each row carries the limit,
    the EXPENSE total of its category in the current calendar month as
    [spentAmount], [spentAmount / limit * 100] as [percentage] and
    [limit - spentAmount] as [remaining]; the rows are in descending order
    of percentage; a row with limit [1000] and [800] spent has percentage
    [80], [200] remaining and is among the alerts at threshold [80]. *)
Theorem budgetStatus_calendar_month :
  forall (h : Host) (transactions : list Transaction)
         (budgets : Obj.t number),
    eastOfUtc h ->
    Forall (fun tx => isoDated tx = true) transactions ->
    Forall finiteAmount transactions ->
    Obj.wf budgets ->
    plainKeys budgets ->
    Forall (fun limit => isFinite limit = true) (map snd budgets) ->
    let rows := budgetStatus h transactions budgets in
    NoDup (map bs_categoryId rows) /\
    (forall k : string,
        In k (map bs_categoryId rows) <-> limitPositive budgets k = true) /\
    Forall (rowMatches h transactions budgets) rows /\
    StronglySorted (descendingBy percentage) rows /\
    (forall r : BudgetRow,
        In r rows ->
        budgetAmount r = ofZ 1000 -> spentAmount r = ofZ 800 ->
        percentage r = ofZ 80 /\ remaining r = ofZ 200 /\
        In r (budgetAlerts rows)).
Proof.
  intros h transactions budgets Heast Hiso Hfin Hwf _ _ rows.
  pose proof (rows_ids_perm h transactions budgets) as Hids.
  fold rows in Hids.
  assert (Hmatch : forall r, In r rows ->
                             rowMatches h transactions budgets r).
  { intros r Hr.
    destruct (row_matches h transactions budgets Hfin r Hr)
      as (limit & Hget & Hpos & Hb & Hs & Hp & Hrem).
    exists limit. unfold calendarSpent.
    rewrite <- (currentMonthExpenses_calendar h transactions Heast Hiso).
    auto 10. }
  split; [|split; [|split; [|split]]].
  - apply (Permutation_NoDup (Permutation_sym Hids)).
    now apply NoDup_filter.
  - intros k. split.
    + intros Hin. apply (Permutation_in _ Hids) in Hin.
      now apply filter_In in Hin.
    + intros Hpos. apply (Permutation_in _ (Permutation_sym Hids)).
      apply filter_In. split; auto.
      unfold limitPositive in Hpos.
      destruct (Obj.get budgets k) as [limit|] eqn:G; [|discriminate].
      now apply get_Some_key in G.
  - now apply Forall_forall.
  - now apply rows_sorted.
  - intros r Hin Hlimit Hspent.
    destruct (Hmatch r Hin) as (limit & _ & _ & Hb & _ & Hp & Hr).
    rewrite Hlimit in Hb. subst limit. rewrite Hspent in Hp, Hr.
    destruct eighty_percent as [H80 H200].
    rewrite H80 in Hp. rewrite H200 in Hr.
    repeat split; auto.
    unfold budgetAlerts. apply In_sort. apply filter_In. split; auto.
    now rewrite Hp.
Qed.

Lemma budgetStatus_calendar_month_witness :
  let rows :=
    budgetStatus (strictHost cairo mid_march_2024) march_expenses
      three_budgets in
  NoDup (map bs_categoryId rows) /\
  (forall k : string,
      In k (map bs_categoryId rows) <->
      limitPositive three_budgets k = true) /\
  Forall (rowMatches (strictHost cairo mid_march_2024) march_expenses
            three_budgets) rows /\
  StronglySorted (descendingBy percentage) rows /\
  (forall r : BudgetRow,
      In r rows ->
      budgetAmount r = ofZ 1000 -> spentAmount r = ofZ 800 ->
      percentage r = ofZ 80 /\ remaining r = ofZ 200 /\
      In r (budgetAlerts rows)).
Proof.
  apply (budgetStatus_calendar_month (strictHost cairo mid_march_2024)
           march_expenses three_budgets).
  - unfold eastOfUtc, cairo. simpl. lia.
  - repeat constructor.
  - repeat constructor.
  - unfold Obj.wf. simpl. repeat constructor; simpl; intuition discriminate.
  - unfold plainKeys. simpl. repeat constructor.
  - simpl. repeat constructor.
Defined.

(** X27. On a host at or east of UTC, with dates of the form [YYYY-MM-DD]
    and finite, non-negative amounts: the savings percentage is [0] when
    the income of the current calendar month is zero, in particular when
    the month has only expenses; otherwise it is
    [(income - expense) / income * 100] over the transactions of the
    current calendar month, which is below zero when the expenses exceed
    the income. *)
Theorem monthlySavingsPercentage_calendar_month :
  forall (h : Host) (transactions : list Transaction),
    eastOfUtc h ->
    Forall (fun tx => isoDated tx = true) transactions ->
    Forall wellFormed transactions ->
    let t := calculateTotals (calendarMonthTransactions h transactions) in
    let p := monthlySavingsPercentage (getDashboardStats h transactions) in
    (income t = zero -> p = zero) /\
    (income t <> zero ->
     p = mul (div (sub (income t) (expense t)) (income t)) (ofZ 100)) /\
    (income t <> zero -> ltb (income t) (expense t) = true ->
     ltb p zero = true) /\
    (Forall (fun tx => isExpense (tx_type tx) = true)
       (calendarMonthTransactions h transactions) -> p = zero).
Proof.
  intros h transactions Heast Hiso Hwf t p.
  pose proof (currentMonth_calendar h transactions Heast Hiso) as Hmonth.
  assert (Hcur : Forall wellFormed
                   (calendarMonthTransactions h transactions)).
  { apply Forall_forall. intros tx [Hin _]%filter_In.
    rewrite Forall_forall in Hwf. auto. }
  destruct (wellFormed_totals _ Hcur) as (i & e & Hi & He & Hnn).
  fold t in Hi, He.
  assert (Hp : p = if gtb (income t) zero
                   then mul (div (sub (income t) (expense t)) (income t))
                          (ofZ 100)
                   else zero).
  { unfold p, t. rewrite savings_unfold, Hmonth. reflexivity. }
  assert (Hzero : income t = zero -> p = zero).
  { intros Hz. rewrite Hp, Hz. reflexivity. }
  assert (Hpos : income t <> zero ->
                 (Q2Qc 0 < i)%Qc /\
                 p = Fin ((i + - e) / i * Q2Qc (inject_Z 100))).
  { intros Hnz.
    assert (Hlt : (Q2Qc 0 < i)%Qc).
    { destruct (Qcle_lt_or_eq _ _ Hnn) as [Hlt|Heq]; auto.
      exfalso. apply Hnz. rewrite Hi, <- Heq. reflexivity. }
    split; auto.
    rewrite Hp, Hi, He. unfold gtb. change zero with (Fin (Q2Qc 0)).
    rewrite (proj2 (ltb_Fin _ _) Hlt).
    unfold sub, neg, add, div, mul, ofZ.
    rewrite Qc_eq_bool_false; auto.
    intros ->. now apply Qclt_irrefl in Hlt. }
  split; [|split; [|split]].
  - exact Hzero.
  - intros Hnz. destruct (Hpos Hnz) as [Hlt Hpe].
    rewrite Hpe, Hi, He. unfold sub, neg, add, div, mul, ofZ.
    rewrite Qc_eq_bool_false; auto.
    intros ->. now apply Qclt_irrefl in Hlt.
  - intros Hnz Hover. destruct (Hpos Hnz) as [Hlt ->].
    rewrite Hi, He in Hover. apply ltb_Fin in Hover.
    apply ltb_Fin. now apply negative_share.
  - intros Hexp. apply Hzero.
    destruct (totals_sums (calendarMonthTransactions h transactions))
      as (Hinc & _ & _).
    fold t in Hinc. rewrite Hinc. now rewrite incomeAmounts_expenses.
Qed.

Lemma monthlySavingsPercentage_calendar_month_witness :
  let h := strictHost cairo mid_march_2024 in
  let t := calculateTotals (calendarMonthTransactions h march_overspent) in
  let p := monthlySavingsPercentage (getDashboardStats h march_overspent) in
  (income t = zero -> p = zero) /\
  (income t <> zero ->
   p = mul (div (sub (income t) (expense t)) (income t)) (ofZ 100)) /\
  (income t <> zero -> ltb (income t) (expense t) = true ->
   ltb p zero = true) /\
  (Forall (fun tx => isExpense (tx_type tx) = true)
     (calendarMonthTransactions h march_overspent) -> p = zero).
Proof.
  apply (monthlySavingsPercentage_calendar_month
           (strictHost cairo mid_march_2024) march_overspent).
  - unfold eastOfUtc, cairo. simpl. lia.
  - repeat constructor.
  - repeat constructor.
Defined.

End CalendarFacts.
